(** * Tilck core: kernel mutex, IRQ dispatch, VFS stat/getdents, FAT read/seek

    A shallow embedding of
      - kernel/kmutex.c            (module [Kmutex]),
      - kernel/arch/i386/irq.c     (module [Irq]),
      - the VFS stat / getdents64 code (module [Vfs]),
      - kernel/fs/fat32.c          (module [Fat]),
    together with the properties of these functions.

    Conventions.  C pointers are addresses ([Z] or [nat] identifiers) and
    [NULL] is [None] (or address 0 for function pointers).  A failed
    [ASSERT], or a dereference of a dangling pointer, makes a function
    return [None]: the kernel panics.  Unsigned 32-bit arithmetic is
    written with [wrap32]. *)

From stdpp Require Import base numbers option list gmap.

Definition wrap32 (x : Z) : Z := (x mod 2 ^ 32)%Z.
Definition wrap16 (x : Z) : Z := (x mod 2 ^ 16)%Z.
Definition wrap8 (x : Z) : Z := (x mod 2 ^ 8)%Z.

(** C truth value of an integer expression. *)
Definition c_true (x : Z) : bool := negb (x =? 0)%Z.

(* ===================================================================== *)
(** * kernel/kmutex.c *)
(* ===================================================================== *)

Module Kmutex.

Local Open Scope Z_scope.

(** A [task_info *] and a [kmutex *]. *)
Definition tid := nat.
Definition maddr := nat.

Inductive task_state :=
| TASK_STATE_RUNNABLE
| TASK_STATE_RUNNING
| TASK_STATE_SLEEPING
| TASK_STATE_ZOMBIE.

(** Modelled from the spec: the kinds of wait object (sync.h); they
    "include at least KMUTEX". *)
Inductive wo_type := WOBJ_NONE | WOBJ_KMUTEX | WOBJ_KCOND.

#[export] Instance task_state_eq_dec : EqDecision task_state.
Proof. solve_decision. Defined.
#[export] Instance wo_type_eq_dec : EqDecision wo_type.
Proof. solve_decision. Defined.

(** [wait_obj]: a kind and the pointer to the object waited for. *)
Record wait_obj := { wtype : wo_type; ptr : option maddr }.

Record task_info := { state : task_state; wobj : wait_obj }.

(** Modelled from the spec: the [kmutex] struct is declared in sync.h,
    outside the sources at hand.  Attributes per the data model: id,
    flags (bit RECURSIVE), owner_task (nullable), lock_count; the two
    integer fields are taken as unsigned 32-bit. *)
Record kmutex := {
  id : Z;
  flags : Z;
  lock_count : Z;
  owner_task : option tid
}.

Definition KMUTEX_FL_RECURSIVE : Z := 1.

(** The part of the kernel state the mutex code reads and writes.  The
    scheduler, outside the sources, decides where a task that goes to
    sleep is linked into the sleeping list; the specification leaves the
    order of the list open, so the position is a parameter of the state
    ([sleep_slot t l], an index into the list [l]) about which nothing is
    assumed. *)
Record kstate := {
  tasks : gmap tid task_info;          (* the task structs, by address *)
  sleeping_tasks_list : list tid;      (* the global sleeping-tasks list *)
  curr_task : tid;                     (* get_curr_task() *)
  disable_preemption_count : Z;
  in_irq_handler : bool;               (* what check_not_in_irq_handler reads *)
  kmutexes : gmap maddr kmutex;        (* the mutex structs, by address *)
  new_mutex_id : Z;
  sleep_slot : tid -> list tid -> nat  (* where the scheduler links a sleeper *)
}.

Definition set_tasks (f : gmap tid task_info -> gmap tid task_info)
    (st : kstate) : kstate :=
  {| tasks := f (tasks st);
     sleeping_tasks_list := sleeping_tasks_list st;
     curr_task := curr_task st;
     disable_preemption_count := disable_preemption_count st;
     in_irq_handler := in_irq_handler st;
     kmutexes := kmutexes st;
     new_mutex_id := new_mutex_id st;
     sleep_slot := sleep_slot st |}.

Definition set_sleeping (f : list tid -> list tid) (st : kstate) : kstate :=
  {| tasks := tasks st;
     sleeping_tasks_list := f (sleeping_tasks_list st);
     curr_task := curr_task st;
     disable_preemption_count := disable_preemption_count st;
     in_irq_handler := in_irq_handler st;
     kmutexes := kmutexes st;
     new_mutex_id := new_mutex_id st;
     sleep_slot := sleep_slot st |}.

Definition set_preempt (f : Z -> Z) (st : kstate) : kstate :=
  {| tasks := tasks st;
     sleeping_tasks_list := sleeping_tasks_list st;
     curr_task := curr_task st;
     disable_preemption_count := f (disable_preemption_count st);
     in_irq_handler := in_irq_handler st;
     kmutexes := kmutexes st;
     new_mutex_id := new_mutex_id st;
     sleep_slot := sleep_slot st |}.

Definition set_kmutexes (f : gmap maddr kmutex -> gmap maddr kmutex)
    (st : kstate) : kstate :=
  {| tasks := tasks st;
     sleeping_tasks_list := sleeping_tasks_list st;
     curr_task := curr_task st;
     disable_preemption_count := disable_preemption_count st;
     in_irq_handler := in_irq_handler st;
     kmutexes := f (kmutexes st);
     new_mutex_id := new_mutex_id st;
     sleep_slot := sleep_slot st |}.

Definition set_new_mutex_id (v : Z) (st : kstate) : kstate :=
  {| tasks := tasks st;
     sleeping_tasks_list := sleeping_tasks_list st;
     curr_task := curr_task st;
     disable_preemption_count := disable_preemption_count st;
     in_irq_handler := in_irq_handler st;
     kmutexes := kmutexes st;
     new_mutex_id := v;
     sleep_slot := sleep_slot st |}.

(** Field updates of a mutex, [m->owner_task = o] and [m->lock_count = c]. *)
Definition with_owner (o : option tid) (mu : kmutex) : kmutex :=
  {| id := id mu; flags := flags mu; lock_count := lock_count mu;
     owner_task := o |}.

Definition with_lock_count (c : Z) (mu : kmutex) : kmutex :=
  {| id := id mu; flags := flags mu; lock_count := c;
     owner_task := owner_task mu |}.

Definition store_mutex (m : maddr) (mu : kmutex) (st : kstate) : kstate :=
  set_kmutexes (fun ms => <[m := mu]> ms) st.

(** [m->flags & KMUTEX_FL_RECURSIVE] *)
Definition is_recursive (mu : kmutex) : bool :=
  c_true (Z.land (flags mu) KMUTEX_FL_RECURSIVE).

(** Modelled from the spec: the preemption counter of sched.h,
    [disable_preemption()] / [enable_preemption()] increment / decrement
    it. *)
Definition disable_preemption (st : kstate) : kstate :=
  set_preempt (fun c => c + 1) st.
Definition enable_preemption (st : kstate) : kstate :=
  set_preempt (fun c => c - 1) st.

(** [DEBUG_ONLY(check_not_in_irq_handler())]: panics inside an IRQ handler. *)
Definition check_not_in_irq_handler (st : kstate) : option unit :=
  if in_irq_handler st then None else Some tt.

(** Modelled from the spec: [wait_obj_set] assigns, [wait_obj_reset]
    clears the wait object of a task (sync.h / sched). *)
Definition wait_obj_set (t : tid) (k : wo_type) (p : maddr) (st : kstate)
    : option kstate :=
  ti ← tasks st !! t;
  Some (set_tasks
          (fun ts => <[t := {| state := state ti;
                               wobj := {| wtype := k; ptr := Some p |} |}]> ts)
          st).

Definition wait_obj_reset (t : tid) (st : kstate) : option kstate :=
  ti ← tasks st !! t;
  Some (set_tasks
          (fun ts => <[t := {| state := state ti;
                               wobj := {| wtype := WOBJ_NONE; ptr := None |} |}]> ts)
          st).

(** [t] linked into the list [l] in front of its element number [n]
    (behind the last one when [n] is the length of [l] or more). *)
Definition insert_at (n : nat) (t : tid) (l : list tid) : list tid :=
  take n l ++ t :: drop n l.

(** Modelled from the spec: [task_change_state(task, new_state)] of the
    scheduler.  It stores the new state and keeps the membership of the
    sleeping tasks in the ordered collection [sleeping_tasks_list]: a task
    leaving SLEEPING is unlinked, a task entering SLEEPING is linked in.
    Where it is linked in is not said ("either B or C" may get a mutex
    two tasks wait for): the position is [sleep_slot] of the state. *)
Definition task_change_state (t : tid) (ns : task_state) (st : kstate)
    : option kstate :=
  ti ← tasks st !! t;
  let st1 :=
    if decide (state ti = TASK_STATE_SLEEPING)
    then set_sleeping (filter (fun x => x ≠ t)) st else st in
  let st2 :=
    set_tasks (fun ts => <[t := {| state := ns; wobj := wobj ti |}]> ts) st1 in
  Some (if decide (ns = TASK_STATE_SLEEPING)
        then set_sleeping (fun l => insert_at (sleep_slot st t l) t l) st2
        else st2).

(** [kmutex_is_curr_task_holding_lock] *)
Definition kmutex_is_curr_task_holding_lock (mu : kmutex) (st : kstate) : bool :=
  bool_decide (owner_task mu = Some (curr_task st)).

(** [kmutex_init]: bzero, then a fresh id and the flags. *)
Definition kmutex_init (m : maddr) (fl : Z) (st : kstate) : kstate :=
  let mu := {| id := new_mutex_id st; flags := fl; lock_count := 0;
               owner_task := None |} in
  store_mutex m mu (set_new_mutex_id (wrap32 (new_mutex_id st + 1)) st).

(** [kmutex_destroy]: bzero. *)
Definition kmutex_destroy (m : maddr) (st : kstate) : kstate :=
  store_mutex m {| id := 0; flags := 0; lock_count := 0; owner_task := None |} st.

(** What a call of [kmutex_lock] did before it returned or yielded. *)
Inductive lock_outcome := Acquired | Blocked.

(** [kmutex_lock], up to [kernel_yield()]: on contention the caller is
    left sleeping on the mutex ([Blocked]); the assertions after the
    wake-up are [kmutex_lock_wakeup]. *)
Definition kmutex_lock (m : maddr) (st : kstate) : option (lock_outcome * kstate) :=
  _ ← check_not_in_irq_handler st;
  let st := disable_preemption st in
  mu ← kmutexes st !! m;
  match owner_task mu with
  | None =>
      (* Nobody owns this mutex, just set the owner *)
      let mu := with_owner (Some (curr_task st)) mu in
      let mu := if is_recursive mu
                then with_lock_count (wrap32 (lock_count mu + 1)) mu else mu in
      Some (Acquired, enable_preemption (store_mutex m mu st))
  | Some _ =>
      let sleep (_ : unit) :=
        st ← wait_obj_set (curr_task st) WOBJ_KMUTEX m st;
        st ← task_change_state (curr_task st) TASK_STATE_SLEEPING st;
        Some (Blocked, enable_preemption st) in
      if is_recursive mu then
        if negb (0 <? lock_count mu) then None            (* ASSERT *)
        else if kmutex_is_curr_task_holding_lock mu st then
          let mu := with_lock_count (wrap32 (lock_count mu + 1)) mu in
          Some (Acquired, enable_preemption (store_mutex m mu st))
        else sleep tt
      else
        if kmutex_is_curr_task_holding_lock mu st then None   (* ASSERT *)
        else sleep tt
  end.

(** The tail of [kmutex_lock] after [kernel_yield()] returned. *)
Definition kmutex_lock_wakeup (m : maddr) (st : kstate) : option kstate :=
  mu ← kmutexes st !! m;
  if negb (kmutex_is_curr_task_holding_lock mu st) then None
  else if is_recursive mu && negb (lock_count mu =? 1) then None
  else Some st.

(** [kmutex_trylock] *)
Definition kmutex_trylock (m : maddr) (st : kstate) : option (bool * kstate) :=
  _ ← check_not_in_irq_handler st;
  let st := disable_preemption st in
  mu ← kmutexes st !! m;
  match owner_task mu with
  | None =>
      let mu := with_owner (Some (curr_task st)) mu in
      let mu := if is_recursive mu
                then with_lock_count (wrap32 (lock_count mu + 1)) mu else mu in
      Some (true, enable_preemption (store_mutex m mu st))
  | Some _ =>
      (* There is an owner task *)
      if is_recursive mu && kmutex_is_curr_task_holding_lock mu st then
        let mu := with_lock_count (wrap32 (lock_count mu + 1)) mu in
        Some (true, enable_preemption (store_mutex m mu st))
      else Some (false, enable_preemption st)
  end.

(** The [list_for_each] loop of [kmutex_unlock] over the sleeping tasks:
    the first task whose [wobj.ptr] is [m] takes the mutex and the loop
    breaks. *)
Fixpoint unlock_scan (m : maddr) (l : list tid) (st : kstate) : option kstate :=
  match l with
  | [] => Some st
  | pos :: rest =>
      ti ← tasks st !! pos;
      if negb (bool_decide (state ti = TASK_STATE_SLEEPING)) then None (* ASSERT *)
      else if bool_decide (ptr (wobj ti) = Some m) then
        mu ← kmutexes st !! m;
        let mu := with_owner (Some pos) mu in
        let mu := if is_recursive mu
                  then with_lock_count (wrap32 (lock_count mu + 1)) mu else mu in
        let st := store_mutex m mu st in
        st ← wait_obj_reset pos st;
        task_change_state pos TASK_STATE_RUNNABLE st      (* break *)
      else unlock_scan m rest st
  end.

(** [kmutex_unlock] *)
Definition kmutex_unlock (m : maddr) (st : kstate) : option kstate :=
  _ ← check_not_in_irq_handler st;
  let st := disable_preemption st in
  mu ← kmutexes st !! m;
  if negb (kmutex_is_curr_task_holding_lock mu st) then None     (* ASSERT *)
  else
    let release (mu : kmutex) :=
      let st := store_mutex m (with_owner None mu) st in
      (* Unlock one task waiting to acquire the mutex 'm' *)
      st ← unlock_scan m (sleeping_tasks_list st) st;
      Some (enable_preemption st) in
    if is_recursive mu then
      if negb (0 <? lock_count mu) then None                     (* ASSERT *)
      else
        let mu := with_lock_count (wrap32 (lock_count mu - 1)) mu in
        if 0 <? lock_count mu
        then Some (enable_preemption (store_mutex m mu st))
        else release mu       (* lock_count == 0: really unlock *)
    else release mu.

(** [n] calls of [kmutex_lock] by the current task, each of which returns
    with the lock taken (a call that blocks ends the sequence). *)
Fixpoint lock_times (n : nat) (m : maddr) (st : kstate) : option kstate :=
  match n with
  | O => Some st
  | S n' =>
      r ← kmutex_lock m st;
      match r with
      | (Acquired, st') => lock_times n' m st'
      | (Blocked, _) => None
      end
  end.

(** [n] calls of [kmutex_unlock] by the current task. *)
Fixpoint unlock_times (n : nat) (m : maddr) (st : kstate) : option kstate :=
  match n with
  | O => Some st
  | S n' => st' ← kmutex_unlock m st; unlock_times n' m st'
  end.

(** Task [t] has a wait object whose target is the mutex at [m]. *)
Definition waits_on (m : maddr) (st : kstate) (t : tid) : Prop :=
  exists ti, tasks st !! t = Some ti /\ ptr (wobj ti) = Some m.

(** The sleeping list holds live tasks in state SLEEPING, each once. *)
Definition sleeping_wf (st : kstate) : Prop :=
  NoDup (sleeping_tasks_list st) /\
  forall t, t ∈ sleeping_tasks_list st ->
    exists ti, tasks st !! t = Some ti /\ state ti = TASK_STATE_SLEEPING.

(** The mutex as [kmutex_unlock] leaves it when task [t] is picked. *)
Definition handed_to (t : tid) (mu : kmutex) : kmutex :=
  {| id := id mu; flags := flags mu;
     lock_count := if is_recursive mu then 1 else lock_count mu;
     owner_task := Some t |}.

(** The mutex as [kmutex_unlock] leaves it when nobody waits. *)
Definition released (mu : kmutex) : kmutex :=
  {| id := id mu; flags := flags mu;
     lock_count := if is_recursive mu then 0 else lock_count mu;
     owner_task := None |}.

(** The scheduler's part of the state: tasks, sleeping list, current task. *)
Definition same_sched (st st' : kstate) : Prop :=
  tasks st' = tasks st /\
  sleeping_tasks_list st' = sleeping_tasks_list st /\
  curr_task st' = curr_task st /\
  in_irq_handler st' = in_irq_handler st /\
  disable_preemption_count st' = disable_preemption_count st.

(** Scenario S2 of the specification: task 1 runs and owns the mutex at
    address 7; tasks 2 and 3 sleep on it, task 4 sleeps on another object.
    This scheduler links a new sleeper behind the others. *)
Definition sleeper (m : maddr) : task_info :=
  {| state := TASK_STATE_SLEEPING;
     wobj := {| wtype := WOBJ_KMUTEX; ptr := Some m |} |}.

Definition runner : task_info :=
  {| state := TASK_STATE_RUNNING;
     wobj := {| wtype := WOBJ_NONE; ptr := None |} |}.

Definition s2_state (fl lc : Z) : kstate :=
  {| tasks := <[1%nat := runner]> (<[2%nat := sleeper 7%nat]>
                (<[3%nat := sleeper 7%nat]> (<[4%nat := sleeper 9%nat]> ∅)));
     sleeping_tasks_list := [4; 2; 3]%nat;
     curr_task := 1%nat;
     disable_preemption_count := 0;
     in_irq_handler := false;
     kmutexes := <[7%nat := {| id := 5; flags := fl; lock_count := lc;
                               owner_task := Some 1%nat |}]> ∅;
     new_mutex_id := 6;
     sleep_slot := fun _ l => length l |}.

(** ** Further vocabulary *)

(** Modelled from the spec: the scheduler picks [t] as the task that
    runs next ([get_curr_task()] returns it from then on). *)
Definition switch_to (t : tid) (st : kstate) : kstate :=
  {| tasks := tasks st;
     sleeping_tasks_list := sleeping_tasks_list st;
     curr_task := t;
     disable_preemption_count := disable_preemption_count st;
     in_irq_handler := in_irq_handler st;
     kmutexes := kmutexes st;
     new_mutex_id := new_mutex_id st;
     sleep_slot := sleep_slot st |}.

(** The data-model invariant of a mutex: a non-recursive mutex never
    counts; a recursive one has no owner exactly when its count is 0. *)
Definition mutex_ok (mu : kmutex) : Prop :=
  0 <= lock_count mu < 2 ^ 32 /\
  if is_recursive mu
  then (owner_task mu = None <-> lock_count mu = 0)
  else lock_count mu = 0.

(** A task as [kmutex_lock] leaves it when it has to wait for [m]. *)
Definition parked_on (m : maddr) : task_info :=
  {| state := TASK_STATE_SLEEPING;
     wobj := {| wtype := WOBJ_KMUTEX; ptr := Some m |} |}.

(** A task as [kmutex_unlock] leaves the waiter it picked. *)
Definition woken : task_info :=
  {| state := TASK_STATE_RUNNABLE;
     wobj := {| wtype := WOBJ_NONE; ptr := None |} |}.

(** Scenario S2 from its start: task 1 owns the mutex at address 7, the
    tasks 2 and 3 run and task 4 sleeps on another object.  This
    scheduler links a new sleeper in front of the others. *)
Definition s2_start (fl lc : Z) : kstate :=
  {| tasks := <[1%nat := runner]> (<[2%nat := runner]>
                (<[3%nat := runner]> (<[4%nat := sleeper 9%nat]> ∅)));
     sleeping_tasks_list := [4]%nat;
     curr_task := 2%nat;
     disable_preemption_count := 0;
     in_irq_handler := false;
     kmutexes := <[7%nat := {| id := 5; flags := fl; lock_count := lc;
                               owner_task := Some 1%nat |}]> ∅;
     new_mutex_id := 6;
     sleep_slot := fun _ _ => 0%nat |}.

(** No wake-up of a waiter of [m] can get lost: the sleeping list is
    well formed, every task that waits on [m] is on the sleeping list
    (where [kmutex_unlock] looks for it), and as long as a task waits on
    [m] the mutex has an owner that does not itself wait on [m]. *)
Definition waiters_served (m : maddr) (st : kstate) : Prop :=
  sleeping_wf st /\
  (forall t, waits_on m st t -> t ∈ sleeping_tasks_list st) /\
  ((exists t, waits_on m st t) ->
   exists mu o, kmutexes st !! m = Some mu /\ owner_task mu = Some o /\
                ~ waits_on m st o).

(** The task that runs is not asleep. *)
Definition curr_awake (st : kstate) : Prop :=
  exists ti, tasks st !! curr_task st = Some ti /\
             state ti ≠ TASK_STATE_SLEEPING.

End Kmutex.

(* ===================================================================== *)
(** * kernel/arch/i386/irq.c *)
(* ===================================================================== *)

Module Irq.

Local Open Scope Z_scope.

Definition PIC1 : Z := 0x20.          (* IO base address for master PIC *)
Definition PIC2 : Z := 0xA0.          (* IO base address for slave PIC *)
Definition PIC1_COMMAND : Z := PIC1.
Definition PIC1_DATA : Z := PIC1 + 1.
Definition PIC2_COMMAND : Z := PIC2.
Definition PIC2_DATA : Z := PIC2 + 1.
Definition PIC_EOI : Z := 0x20.       (* End-of-interrupt command code *)
Definition PIC_READ_IRR : Z := 0x0a.  (* OCW3 irq ready next CMD read *)
Definition PIC_READ_ISR : Z := 0x0b.  (* OCW3 irq service next CMD read *)

(** What the kernel does that is visible from outside [handle_irq]: port
    accesses, calls through [irq_handlers], calls into the scheduler. *)
Inductive event :=
| EvOutb (port val : Z)
| EvInb (port val : Z)
| EvCallHandler (fn : Z)
| EvSaveCurrentTaskState
| EvSchedule.

#[export] Instance event_eq_dec : EqDecision event.
Proof. solve_decision. Defined.

(** Modelled from the spec: one 8259 behind its command and data port
    (hardware, outside the sources).  The data port holds the mask
    register; a read of the command port returns IRR or ISR as selected
    by the last OCW3; a non-specific EOI clears the in-service bit of
    highest priority (the lowest set bit). *)
Record pic := {
  imr : Z;
  irr : Z;
  isr : Z;
  read_isr : bool
}.

Definition pic_command (val : Z) (p : pic) : pic :=
  if val =? PIC_EOI then
    {| imr := imr p; irr := irr p; isr := Z.land (isr p) (isr p - 1);
       read_isr := read_isr p |}
  else if val =? PIC_READ_IRR then
    {| imr := imr p; irr := irr p; isr := isr p; read_isr := false |}
  else if val =? PIC_READ_ISR then
    {| imr := imr p; irr := irr p; isr := isr p; read_isr := true |}
  else p.

Definition pic_data (val : Z) (p : pic) : pic :=
  {| imr := val; irr := irr p; isr := isr p; read_isr := read_isr p |}.

(** The register frame pushed by the IRQ entry stub; [handle_irq] reads
    the vector only. *)
Record regs := { int_num : Z }.

Record kstate := {
  pic1 : pic;
  pic2 : pic;
  trace : list event;                 (* oldest event first *)
  irq_handlers : list Z;              (* 16 function pointers, 0 is NULL *)
  unhandled_irq_count : list Z;       (* u32 [256] *)
  spur_irq_count : Z;                 (* u32 *)
  disable_preemption_count : Z;
  nested_interrupts : list Z;         (* the stack of nested vectors *)
  interrupts_enabled : bool           (* the IF flag *)
}.

(** ** A state monad with panic *)

Definition M (A : Type) : Type := kstate -> option (A * kstate).

Definition ret {A} (a : A) : M A := fun st => Some (a, st).
Definition bind {A B} (k : A -> M B) (c : M A) : M B :=
  fun st => match c st with
            | Some (a, st') => k a st'
            | None => None
            end.
#[export] Instance M_ret : MRet M := @ret.
#[export] Instance M_bind : MBind M := @bind.
Definition panic {A} : M A := fun _ => None.
Definition get : M kstate := fun st => Some (st, st).
Definition modify (f : kstate -> kstate) : M unit := fun st => Some (tt, f st).
Definition ASSERT (b : bool) : M unit := if b then ret tt else panic.

Definition set_pic1 (f : pic -> pic) (st : kstate) : kstate :=
  {| pic1 := f (pic1 st); pic2 := pic2 st; trace := trace st;
     irq_handlers := irq_handlers st;
     unhandled_irq_count := unhandled_irq_count st;
     spur_irq_count := spur_irq_count st;
     disable_preemption_count := disable_preemption_count st;
     nested_interrupts := nested_interrupts st;
     interrupts_enabled := interrupts_enabled st |}.

Definition set_pic2 (f : pic -> pic) (st : kstate) : kstate :=
  {| pic1 := pic1 st; pic2 := f (pic2 st); trace := trace st;
     irq_handlers := irq_handlers st;
     unhandled_irq_count := unhandled_irq_count st;
     spur_irq_count := spur_irq_count st;
     disable_preemption_count := disable_preemption_count st;
     nested_interrupts := nested_interrupts st;
     interrupts_enabled := interrupts_enabled st |}.

Definition log (e : event) (st : kstate) : kstate :=
  {| pic1 := pic1 st; pic2 := pic2 st; trace := trace st ++ [e];
     irq_handlers := irq_handlers st;
     unhandled_irq_count := unhandled_irq_count st;
     spur_irq_count := spur_irq_count st;
     disable_preemption_count := disable_preemption_count st;
     nested_interrupts := nested_interrupts st;
     interrupts_enabled := interrupts_enabled st |}.

Definition set_irq_handlers (f : list Z -> list Z) (st : kstate) : kstate :=
  {| pic1 := pic1 st; pic2 := pic2 st; trace := trace st;
     irq_handlers := f (irq_handlers st);
     unhandled_irq_count := unhandled_irq_count st;
     spur_irq_count := spur_irq_count st;
     disable_preemption_count := disable_preemption_count st;
     nested_interrupts := nested_interrupts st;
     interrupts_enabled := interrupts_enabled st |}.

Definition set_unhandled (f : list Z -> list Z) (st : kstate) : kstate :=
  {| pic1 := pic1 st; pic2 := pic2 st; trace := trace st;
     irq_handlers := irq_handlers st;
     unhandled_irq_count := f (unhandled_irq_count st);
     spur_irq_count := spur_irq_count st;
     disable_preemption_count := disable_preemption_count st;
     nested_interrupts := nested_interrupts st;
     interrupts_enabled := interrupts_enabled st |}.

Definition set_spur (f : Z -> Z) (st : kstate) : kstate :=
  {| pic1 := pic1 st; pic2 := pic2 st; trace := trace st;
     irq_handlers := irq_handlers st;
     unhandled_irq_count := unhandled_irq_count st;
     spur_irq_count := f (spur_irq_count st);
     disable_preemption_count := disable_preemption_count st;
     nested_interrupts := nested_interrupts st;
     interrupts_enabled := interrupts_enabled st |}.

Definition set_preempt (f : Z -> Z) (st : kstate) : kstate :=
  {| pic1 := pic1 st; pic2 := pic2 st; trace := trace st;
     irq_handlers := irq_handlers st;
     unhandled_irq_count := unhandled_irq_count st;
     spur_irq_count := spur_irq_count st;
     disable_preemption_count := f (disable_preemption_count st);
     nested_interrupts := nested_interrupts st;
     interrupts_enabled := interrupts_enabled st |}.

Definition set_nested (f : list Z -> list Z) (st : kstate) : kstate :=
  {| pic1 := pic1 st; pic2 := pic2 st; trace := trace st;
     irq_handlers := irq_handlers st;
     unhandled_irq_count := unhandled_irq_count st;
     spur_irq_count := spur_irq_count st;
     disable_preemption_count := disable_preemption_count st;
     nested_interrupts := f (nested_interrupts st);
     interrupts_enabled := interrupts_enabled st |}.

Definition set_interrupts (b : bool) (st : kstate) : kstate :=
  {| pic1 := pic1 st; pic2 := pic2 st; trace := trace st;
     irq_handlers := irq_handlers st;
     unhandled_irq_count := unhandled_irq_count st;
     spur_irq_count := spur_irq_count st;
     disable_preemption_count := disable_preemption_count st;
     nested_interrupts := nested_interrupts st;
     interrupts_enabled := b |}.

(** ** Port I/O *)

(** [outb(port, val)]; [val] is a [u8]. *)
Definition outb (port val : Z) : M unit :=
  let v := wrap8 val in
  modify (log (EvOutb port v));;
  if port =? PIC1_COMMAND then modify (set_pic1 (pic_command v))
  else if port =? PIC1_DATA then modify (set_pic1 (pic_data v))
  else if port =? PIC2_COMMAND then modify (set_pic2 (pic_command v))
  else if port =? PIC2_DATA then modify (set_pic2 (pic_data v))
  else ret tt.

Definition pic_read (command : bool) (p : pic) : Z :=
  wrap8 (if command then (if read_isr p then isr p else irr p) else imr p).

(** [inb(port)] *)
Definition inb (port : Z) : M Z :=
  st ← get;
  let v :=
    if port =? PIC1_COMMAND then pic_read true (pic1 st)
    else if port =? PIC1_DATA then pic_read false (pic1 st)
    else if port =? PIC2_COMMAND then pic_read true (pic2 st)
    else if port =? PIC2_DATA then pic_read false (pic2 st)
    else 0xFF in
  modify (log (EvInb port v));;
  ret v.

(** ** irq.c *)

(** [irq_set_mask] *)
Definition irq_set_mask (irq : Z) : M unit :=
  ASSERT ((0 <=? irq) && (irq <=? 32));;
  let (port, irq) := if irq <? 8 then (PIC1_DATA, irq) else (PIC2_DATA, irq - 8) in
  irq_mask ← inb port;
  let irq_mask := wrap8 (Z.lor irq_mask (Z.shiftl 1 irq)) in
  outb port irq_mask.

(** [irq_clear_mask] *)
Definition irq_clear_mask (irq : Z) : M unit :=
  ASSERT ((0 <=? irq) && (irq <=? 32));;
  let (port, irq) := if irq <? 8 then (PIC1_DATA, irq) else (PIC2_DATA, irq - 8) in
  v ← inb port;
  outb port (Z.land v (Z.lnot (Z.shiftl 1 irq))).

(** [irq_handlers[irq] = h]; the array has 16 slots. *)
Definition store_handler (irq h : Z) : M unit :=
  if (0 <=? irq) && (irq <? 16)
  then modify (set_irq_handlers (fun l => <[Z.to_nat irq := h]> l))
  else panic.

(** [irq_install_handler]; [irq] is a [u8]. *)
Definition irq_install_handler (irq h : Z) : M unit :=
  let irq := wrap8 irq in
  store_handler irq h;;
  irq_clear_mask irq.

(** [irq_uninstall_handler] *)
Definition irq_uninstall_handler (irq : Z) : M unit :=
  let irq := wrap8 irq in
  store_handler irq 0.

(** [pic_send_eoi] *)
Definition pic_send_eoi (irq : Z) : M unit :=
  ASSERT ((0 <=? irq) && (irq <=? 256));;
  (if 8 <=? irq then outb PIC2_COMMAND PIC_EOI else ret tt);;
  outb PIC1_COMMAND PIC_EOI.

(** [__pic_get_irq_reg] *)
Definition __pic_get_irq_reg (ocw3 : Z) : M Z :=
  outb PIC1_COMMAND ocw3;;
  outb PIC2_COMMAND ocw3;;
  lo ← inb PIC1_COMMAND;
  hi ← inb PIC2_COMMAND;
  ret (Z.lor lo (wrap16 (Z.shiftl hi 8))).

Definition pic_get_irr : M Z := __pic_get_irq_reg PIC_READ_IRR.
Definition pic_get_isr : M Z := __pic_get_irq_reg PIC_READ_ISR.

(** [pic_get_imr] *)
Definition pic_get_imr : M Z :=
  lo ← inb PIC1_DATA;
  hi ← inb PIC2_DATA;
  ret (Z.lor lo (Z.shiftl hi 8)).

(** The masking loop of [setup_irq_handling] (the remapping of the PICs
    and the IDT entries are left out). *)
Fixpoint mask_lines (n : nat) (i : Z) : M unit :=
  match n with
  | O => ret tt
  | S n' => irq_set_mask i;; mask_lines n' (i + 1)
  end.

(** Modelled from the spec: the preemption counter and the stack of
    nested interrupts (sched.h, hal.h), outside the sources. *)
Definition disable_preemption : M unit := modify (set_preempt (fun c => c + 1)).
Definition enable_preemption : M unit := modify (set_preempt (fun c => c - 1)).
Definition push_nested_interrupt (v : Z) : M unit :=
  modify (set_nested (fun l => v :: l)).
Definition pop_nested_interrupt : M unit := modify (set_nested (drop 1)).
Definition enable_interrupts_forced : M unit := modify (set_interrupts true).

Section Dispatch.

(** The build option, and what a call through a function pointer of
    [irq_handlers] does: it returns an [int] and may change the state. *)
Variable KERNEL_TRACK_NESTED_INTERRUPTS : bool.
Variable call_handler : Z -> regs -> M Z.

Definition handle_irq_set_mask (irq : Z) : M unit :=
  if KERNEL_TRACK_NESTED_INTERRUPTS then
    if negb (irq =? 0) then irq_set_mask irq else ret tt
  else irq_set_mask irq.

Definition handle_irq_clear_mask (irq : Z) : M unit :=
  if KERNEL_TRACK_NESTED_INTERRUPTS then
    if negb (irq =? 0) then irq_clear_mask irq else ret tt
  else irq_clear_mask irq.

(** The part of [handle_irq] after the spurious-IRQ check. *)
Definition handle_irq_serve (r : regs) (irq : Z) : M unit :=
  handle_irq_set_mask irq;;
  disable_preemption;;
  push_nested_interrupt (int_num r);;
  st ← get;
  ASSERT (negb (interrupts_enabled st));;
  pic_send_eoi irq;;
  enable_interrupts_forced;;
  st ← get;
  handler_ret ←
    (if (0 <=? irq) && (irq <? 16) then
       match irq_handlers st !! Z.to_nat irq with
       | Some h =>
           if negb (h =? 0) then
             modify (log (EvCallHandler h));; call_handler h r
           else
             modify (set_unhandled
                       (alter (fun c => wrap32 (c + 1)) (Z.to_nat irq)));;
             ret 0
       | None => panic
       end
     else panic);
  pop_nested_interrupt;;
  enable_preemption;;
  handle_irq_clear_mask irq;;
  if handler_ret =? 0 then ret tt
  else
    disable_preemption;;
    st ← get;
    if 1 <? disable_preemption_count st then
      enable_preemption       (* restore the counter *)
    else
      modify (log EvSaveCurrentTaskState);;
      modify (log EvSchedule);;
      (* In case schedule() returned, we MUST re-enable the preemption *)
      enable_preemption.

(** [handle_irq] *)
Definition handle_irq (r : regs) : M unit :=
  let irq := int_num r - 32 in
  spurious ←
    (if (irq =? 7) || (irq =? 15) then
       v ← pic_get_isr;
       ret (negb (c_true (Z.land v (Z.shiftl 1 irq))))
     else ret false);
  if spurious : bool then
    (if irq =? 15 then pic_send_eoi 7 else ret tt);;
    modify (set_spur (fun c => wrap32 (c + 1)))
  else handle_irq_serve r irq.

End Dispatch.

(** A call of the install / uninstall interface. *)
Inductive irq_call :=
| Install (irq h : Z)
| Uninstall (irq : Z).

Definition run_call (c : irq_call) : M unit :=
  match c with
  | Install irq h => irq_install_handler irq h
  | Uninstall irq => irq_uninstall_handler irq
  end.

Fixpoint run_calls (cs : list irq_call) : M unit :=
  match cs with
  | [] => ret tt
  | c :: cs' => run_call c;; run_calls cs'
  end.

Definition call_line (c : irq_call) : Z :=
  match c with Install irq _ => irq | Uninstall irq => irq end.

(** The last call of [cs] that names line [irq]. *)
Definition last_call_on (irq : Z) (cs : list irq_call) : option irq_call :=
  last (filter (fun c => call_line c = irq) cs).

(** The calls the interface is meant for: a line of the table and, for
    an installation, a handler that is not NULL. *)
Definition call_ok (c : irq_call) : Prop :=
  match c with
  | Install irq h => 0 <= irq < 16 /\ h ≠ 0
  | Uninstall irq => 0 <= irq < 16
  end.

(** The mask bit of line [irq] in the 8259 pair. *)
Definition line_masked (st : kstate) (irq : Z) : bool :=
  if irq <? 8 then Z.testbit (imr (pic1 st)) irq
  else Z.testbit (imr (pic2 st)) (irq - 8).

(** [irq_handlers[irq]] *)
Definition handler_of (st : kstate) (irq : Z) : Z :=
  default 0 (irq_handlers st !! Z.to_nat irq).

(** The state [setup_irq_handling] leaves: every line masked, no handler. *)
Definition fully_masked (st : kstate) : Prop :=
  imr (pic1 st) = 0xFF /\ imr (pic2 st) = 0xFF /\
  irq_handlers st = replicate 16 0.

Definition boot_state : kstate :=
  {| pic1 := {| imr := 0xFF; irr := 0; isr := 0; read_isr := false |};
     pic2 := {| imr := 0xFF; irr := 0; isr := 0; read_isr := false |};
     trace := [];
     irq_handlers := replicate 16 0;
     unhandled_irq_count := replicate 256 0;
     spur_irq_count := 0;
     disable_preemption_count := 0;
     nested_interrupts := [];
     interrupts_enabled := false |}.

(** "Every unmasked IRQ line has a non-null handler registered." *)
Definition unmasked_implies_handler (st : kstate) : Prop :=
  forall irq, 0 <= irq < 16 ->
    line_masked st irq = false -> handler_of st irq ≠ 0.

(** A handler is installed on line 3 and then removed. *)
Definition install_then_uninstall : list irq_call :=
  [Install 3 0x1000; Uninstall 3].

(** The in-service bit of line [irq] (7 or 15) as the 8259 pair holds it. *)
Definition in_service (st : kstate) (irq : Z) : bool :=
  if irq <? 8 then Z.testbit (isr (pic1 st)) irq
  else Z.testbit (isr (pic2 st)) (irq - 8).

(** How many EOI commands the events [evs] send to command port [port]. *)
Definition eoi_count (port : Z) (evs : list event) : nat :=
  length (filter (fun e => e = EvOutb port PIC_EOI) evs).

(** The port writes of [evs] that go to a mask register. *)
Definition is_mask_write (e : event) : bool :=
  match e with
  | EvOutb port _ => (port =? PIC1_DATA) || (port =? PIC2_DATA)
  | _ => false
  end.

Definition mask_writes (evs : list event) : list event :=
  List.filter is_mask_write evs.

(** The handler calls of [evs]. *)
Definition is_handler_call (e : event) : bool :=
  match e with EvCallHandler _ => true | _ => false end.

Definition handler_calls (evs : list event) : list event :=
  List.filter is_handler_call evs.

(** The state after the four port accesses of [pic_get_isr]. *)
Definition after_isr_read (st : kstate) : kstate :=
  let st1 := set_pic1 (pic_command PIC_READ_ISR)
               (log (EvOutb PIC1_COMMAND PIC_READ_ISR) st) in
  let st2 := set_pic2 (pic_command PIC_READ_ISR)
               (log (EvOutb PIC2_COMMAND PIC_READ_ISR) st1) in
  let st3 := log (EvInb PIC1_COMMAND (wrap8 (isr (pic1 st)))) st2 in
  log (EvInb PIC2_COMMAND (wrap8 (isr (pic2 st)))) st3.

(** ** Initialisation *)

Definition ICW1_ICW4 : Z := 0x01.     (* ICW4 (not) needed *)
Definition ICW1_INIT : Z := 0x10.     (* Initialization - required! *)
Definition ICW4_8086 : Z := 0x01.     (* 8086/88 (MCS-80/85) mode *)

(** [PIC_remap]; the offsets are [u8]. *)
Definition PIC_remap (offset1 offset2 : Z) : M unit :=
  a1 ← inb PIC1_DATA;                          (* save masks *)
  a2 ← inb PIC2_DATA;
  outb PIC1_COMMAND (ICW1_INIT + ICW1_ICW4);;  (* starts the initialization *)
  outb PIC2_COMMAND (ICW1_INIT + ICW1_ICW4);;
  outb PIC1_DATA (wrap8 offset1);;             (* ICW2: Master PIC vector offset *)
  outb PIC2_DATA (wrap8 offset2);;             (* ICW2: Slave PIC vector offset *)
  outb PIC1_DATA 4;;                           (* ICW3: slave PIC at IRQ2 *)
  outb PIC2_DATA 2;;                           (* ICW3: cascade identity *)
  outb PIC1_DATA ICW4_8086;;
  outb PIC2_DATA ICW4_8086;;
  outb PIC1_DATA a1;;                          (* restore saved masks. *)
  outb PIC2_DATA a2.

(** [setup_irq_handling]: the remapping and the loop over the 16 lines.
    [idt_set_entry] writes the IDT, which is not part of [kstate]; of
    the loop body the call of [irq_set_mask] remains ([mask_lines]). *)
Definition setup_irq_handling : M unit :=
  PIC_remap 32 40;;
  mask_lines 16 0.

(** ** The two halves of [handle_irq] around the handler *)

Section DispatchParts.

Variable KERNEL_TRACK_NESTED_INTERRUPTS : bool.
Variable call_handler : Z -> regs -> M Z.

(** From [if (LIKELY(irq_handlers[irq] != NULL))] to the end of that
    statement: the value is [handler_ret]. *)
Definition irq_dispatch (r : regs) (irq : Z) : M Z :=
  st ← get;
  if (0 <=? irq) && (irq <? 16) then
    match irq_handlers st !! Z.to_nat irq with
    | Some h =>
        if negb (h =? 0) then
          modify (log (EvCallHandler h));; call_handler h r
        else
          modify (set_unhandled
                    (alter (fun c => wrap32 (c + 1)) (Z.to_nat irq)));;
          ret 0
    | None => panic
    end
  else panic.

(** From [pop_nested_interrupt()] to the end of [handle_irq]. *)
Definition irq_epilogue (irq handler_ret : Z) : M unit :=
  pop_nested_interrupt;;
  enable_preemption;;
  handle_irq_clear_mask KERNEL_TRACK_NESTED_INTERRUPTS irq;;
  if handler_ret =? 0 then ret tt
  else
    disable_preemption;;
    st ← get;
    if 1 <? disable_preemption_count st then
      enable_preemption
    else
      modify (log EvSaveCurrentTaskState);;
      modify (log EvSchedule);;
      enable_preemption.

End DispatchParts.

(** The calls into the scheduler among the events [evs]. *)
Definition is_sched_event (e : event) : bool :=
  match e with EvSaveCurrentTaskState | EvSchedule => true | _ => false end.

Definition sched_events (evs : list event) : list event :=
  List.filter is_sched_event evs.

(** The line is left alone by the masking of [handle_irq]: the timer on
    a kernel that tracks nested interrupts. *)
Definition nests (track : bool) (irq : Z) : bool := track && (irq =? 0).

(** A handler that asks for the scheduler and one that does not. *)
Definition handler_returning (v : Z) : Z -> regs -> M Z := fun _ _ => ret v.

(** [handle_irq] from [handle_irq_set_mask(irq)] to
    [enable_interrupts_forced()]: what runs before the handler. *)
Definition irq_prologue (track : bool) (r : regs) (irq : Z) : M unit :=
  handle_irq_set_mask track irq;;
  disable_preemption;;
  push_nested_interrupt (int_num r);;
  st ← get;
  ASSERT (negb (interrupts_enabled st));;
  pic_send_eoi irq;;
  enable_interrupts_forced.

(** The state after the spurious-IRQ check of [handle_irq] let the
    interrupt through: lines 7 and 15 have had the ISR read. *)
Definition after_spurious_check (irq : Z) (st : kstate) : kstate :=
  if (irq =? 7) || (irq =? 15) then after_isr_read st else st.

(** The events the spurious-IRQ check adds to the trace. *)
Definition spurious_check_events (irq : Z) (st : kstate) : list event :=
  if (irq =? 7) || (irq =? 15) then
    [EvOutb PIC1_COMMAND PIC_READ_ISR; EvOutb PIC2_COMMAND PIC_READ_ISR;
     EvInb PIC1_COMMAND (wrap8 (isr (pic1 st)));
     EvInb PIC2_COMMAND (wrap8 (isr (pic2 st)))]
  else [].

(** A handler that returns [hr], adds the events [hevs] (the port
    accesses and calls it makes itself) to the trace and nothing else,
    and hands back the preemption counter, the stack of nested
    interrupts, the masks and the handler table as it found them. *)
Definition handler_restores (call_handler : Z -> regs -> M Z)
    (h : Z) (r : regs) (hr : Z) (hevs : list event) : Prop :=
  forall s0, exists s,
    call_handler h r s0 = Some (hr, s) /\
    trace s = trace s0 ++ hevs /\
    disable_preemption_count s = disable_preemption_count s0 /\
    nested_interrupts s = nested_interrupts s0 /\
    (forall j, line_masked s j = line_masked s0 j) /\
    irq_handlers s = irq_handlers s0.

(** The scheduler calls [handle_irq] makes after a handler return of
    [hr] when the preemption counter was [dpc] at entry. *)
Definition bottom_half (hr dpc : Z) : list event :=
  if negb (hr =? 0) && (dpc <=? 0)
  then [EvSaveCurrentTaskState; EvSchedule] else [].

(** A state with the handler [0x1000] on line 3 and one with no handler
    on the unmasked line 3. *)
Definition s4_handler : kstate :=
  set_irq_handlers (fun l => <[3%nat := 0x1000]> l) boot_state.

Definition s4_unhandled : kstate :=
  set_pic1 (pic_data 0xF7) boot_state.

(** Both mask registers hold a byte. *)
Definition byte_masks (st : kstate) : Prop :=
  0 <= imr (pic1 st) < 256 /\ 0 <= imr (pic2 st) < 256.

(** The request bit of line [irq] as the 8259 pair holds it. *)
Definition raised (st : kstate) (irq : Z) : bool :=
  if irq <? 8 then Z.testbit (irr (pic1 st)) irq
  else Z.testbit (irr (pic2 st)) (irq - 8).

End Irq.

(* ===================================================================== *)
(** * VFS: stat64 and getdents64 *)
(* ===================================================================== *)

Module Vfs.

Local Open Scope Z_scope.

Definition ENOENT : Z := 2.
Definition EFAULT : Z := 14.
Definition EINVAL : Z := 22.
Definition O_RDONLY : Z := 0.

(** ** [vfs_fstat64] and [vfs_stat64] *)

(** An [fs_handle]. *)
Definition fs_handle := Z.

(** Modelled from the spec: the rest of the VFS and the driver behind a
    handle, as the stat path uses them.  [vfs_open] resolves a path and
    gives an error code and a handle ([open(O_RDONLY)]); [fsops_fstat] is
    the driver's [fstat], which gives an error code and, on success, the
    stat structure it filled; [vfs_close] closes the handle and may fail;
    [vfs_shlock] / [vfs_shunlock] take and drop the shared lock.  The calls
    made are recorded in order. *)
Inductive vfs_call :=
| CallOpen (path : list Z) (flags : Z)
| CallShlock (h : fs_handle)
| CallFstat (h : fs_handle)
| CallShunlock (h : fs_handle)
| CallClose (h : fs_handle).

Record vfs_env := {
  vfs_open : list Z -> Z -> Z -> Z * option fs_handle;
  fsops_fstat : fs_handle -> Z * option Z;
  vfs_close : fs_handle -> Z
}.

(** [vfs_fstat64]: the return value, the [statbuf] and the calls made. *)
Definition vfs_fstat64 (env : vfs_env) (h : option fs_handle) (statbuf : option Z)
    : option (Z * option Z * list vfs_call) :=
  match h with
  | None => None                                        (* ASSERT(h != NULL) *)
  | Some h =>
      let (ret, filled) := fsops_fstat env h in
      let statbuf := match filled with Some s => Some s | None => statbuf end in
      Some (ret, statbuf, [CallShlock h; CallFstat h; CallShunlock h])
  end.

(** [vfs_stat64] *)
Definition vfs_stat64 (env : vfs_env) (path : list Z) (statbuf : option Z)
    : option (Z * option Z * list vfs_call) :=
  let (rc, h) := vfs_open env path O_RDONLY 0 in
  if rc <? 0 then Some (rc, statbuf, [CallOpen path O_RDONLY])
  else
    match h with
    | None => None            (* ASSERT(h != NULL) *)
    | Some hh =>
        '(rc, statbuf, calls) ← vfs_fstat64 env h statbuf;
        let close_rc := vfs_close env hh in          (* result not looked at *)
        Some (0, statbuf, CallOpen path O_RDONLY :: calls ++ [CallClose hh])
    end.

(** A file system with one file, "/f", whose driver cannot stat it:
    [open] succeeds with handle 1, [fstat] fails with -ENOENT (as
    [fat_stat] does for a missing entry) and [close] succeeds. *)
Definition path_f : list Z := [47; 102].

Definition stat_failing_env : vfs_env :=
  {| vfs_open := fun path _ _ =>
       if bool_decide (path = path_f) then (0, Some 1) else (- ENOENT, None);
     fsops_fstat := fun _ => (- ENOENT, None);
     vfs_close := fun _ => 0 |}.

(** ** [vfs_getdents64] *)

Inductive vfs_entry_type :=
| VFS_NONE
| VFS_FILE
| VFS_DIR
| VFS_SYMLINK
| VFS_CHAR_DEV
| VFS_BLOCK_DEV
| VFS_PIPE.

#[export] Instance vfs_entry_type_eq_dec : EqDecision vfs_entry_type.
Proof. solve_decision. Defined.

Definition DT_UNKNOWN : Z := 0.
Definition DT_FIFO : Z := 1.
Definition DT_CHR : Z := 2.
Definition DT_DIR : Z := 4.
Definition DT_BLK : Z := 6.
Definition DT_REG : Z := 8.
Definition DT_LNK : Z := 10.

(** [vfs_type_to_linux_dirent_type]; [None] is the failed assertion. *)
Definition vfs_type_to_linux_dirent_type (t : vfs_entry_type) : option Z :=
  match t with
  | VFS_NONE => None
  | VFS_FILE => Some DT_REG
  | VFS_DIR => Some DT_DIR
  | VFS_SYMLINK => Some DT_LNK
  | VFS_CHAR_DEV => Some DT_CHR
  | VFS_BLOCK_DEV => Some DT_BLK
  | VFS_PIPE => Some DT_FIFO
  end.

(** A [vfs_dent64] as a driver hands it to the callback; [name] is the
    C string without its terminating NUL, one [Z] in 1..255 per byte. *)
Record vfs_dent64 := {
  ino : Z;
  type : vfs_entry_type;
  name : list Z
}.

(** [struct linux_dirent64] without its flexible [d_name]. *)
Record linux_dirent64 := {
  d_ino : Z;       (* u64 *)
  d_off : Z;       (* s64 *)
  d_reclen : Z;    (* u16 *)
  d_type : Z       (* u8 *)
}.

(** [n] bytes of [v], least significant first. *)
Fixpoint le_bytes (n : nat) (v : Z) : list Z :=
  match n with
  | O => []
  | S n' => v mod 256 :: le_bytes n' (v / 256)
  end.

(** [offsetof(struct linux_dirent64, d_name)] *)
Definition d_name_offset : Z := 19.

(** The first 19 bytes of the struct as they lie in memory. *)
Definition dirent_fields (ent : linux_dirent64) : list Z :=
  le_bytes 8 (d_ino ent) ++ le_bytes 8 (d_off ent) ++
  le_bytes 2 (d_reclen ent) ++ [d_type ent mod 256].

(** The user buffer at [user_dirp]: the bytes that are mapped and
    writable.  The caller's [buf_size] may promise more than that. *)
Abbreviation ubuf := (list Z).

(** Modelled from the spec: the fallible copy primitive [copy_to_user]
    (user.h), here for a destination [off] bytes into the user buffer.
    The bytes are stored one by one up to the end of the mapped area; the
    copy fails (a negative result) when it runs past it. *)
Definition copy_to_user (off : Z) (bs : list Z) (ub : ubuf) : Z * ubuf :=
  (if off + Z.of_nat (length bs) <=? Z.of_nat (length ub) then 0 else -1,
   list_inserts (Z.to_nat off) bs ub).

(** What [vfs_getdents_cb] reads and writes: the [vfs_getdents_ctx], the
    [pos] of the handle [ctx->h] and the user memory behind [ctx->dirp]. *)
Record getdents_state := {
  h_pos : Z;              (* ctx->h->pos *)
  buf_size : Z;           (* u32 *)
  offset : Z;             (* u32 *)
  curr_index : Z;         (* int *)
  ent : linux_dirent64;
  user_mem : ubuf
}.

(** [ctx->curr_index] moved on by [n]. *)
Definition skipped (n : Z) (ctx : getdents_state) : getdents_state :=
  {| h_pos := h_pos ctx; buf_size := buf_size ctx; offset := offset ctx;
     curr_index := curr_index ctx + n; ent := ent ctx;
     user_mem := user_mem ctx |}.

Section Getdents.

(** [sizeof(struct linux_dirent64)]: 19 bytes of fields and the padding
    the ABI adds (20 on i386, 24 on x86-64). *)
Variable dirent64_size : Z.

(** The bytes [copy_to_user(user_ent, &ctx->ent, sizeof(ctx->ent))] copies. *)
Definition dirent_bytes (ent : linux_dirent64) : list Z :=
  dirent_fields ent ++ replicate (Z.to_nat (dirent64_size - d_name_offset)) 0.

(** [vfs_getdents_cb]; [None] is a failed assertion. *)
Definition vfs_getdents_cb (vde : vfs_dent64) (ctx : getdents_state)
    : option (Z * getdents_state) :=
  if curr_index ctx <? h_pos ctx then
    Some (0, {| h_pos := h_pos ctx; buf_size := buf_size ctx;
                offset := offset ctx; curr_index := curr_index ctx + 1;
                ent := ent ctx; user_mem := user_mem ctx |})   (* continue *)
  else
    let fl := wrap16 (Z.of_nat (length (name vde))) in
    let entry_size := wrap16 (dirent64_size + fl + 1) in
    if buf_size ctx <? wrap32 (offset ctx + entry_size) then
      if offset ctx =? 0 then
        (* We haven't "returned" any entries yet and the buffer is too
           small for our first entry. *)
        Some (- EINVAL, ctx)
      else
        (* We "returned" at least one entry *)
        Some (offset ctx, ctx)
    else
      dt ← vfs_type_to_linux_dirent_type (type vde);
      let e := {| d_ino := ino vde;
                  d_off := wrap32 (offset ctx + entry_size);
                  d_reclen := entry_size;
                  d_type := dt |} in
      let (rc1, mem1) := copy_to_user (offset ctx) (dirent_bytes e) (user_mem ctx) in
      if rc1 <? 0 then
        Some (- EFAULT, {| h_pos := h_pos ctx; buf_size := buf_size ctx;
                           offset := offset ctx; curr_index := curr_index ctx;
                           ent := e; user_mem := mem1 |})
      else
        let (rc2, mem2) :=
          copy_to_user (offset ctx + d_name_offset)
            (take (Z.to_nat (fl + 1)) (name vde ++ [0])) mem1 in
        if rc2 <? 0 then
          Some (- EFAULT, {| h_pos := h_pos ctx; buf_size := buf_size ctx;
                             offset := offset ctx; curr_index := curr_index ctx;
                             ent := e; user_mem := mem2 |})
        else
          Some (0, {| h_pos := h_pos ctx + 1; buf_size := buf_size ctx;
                      offset := wrap32 (offset ctx + entry_size);
                      curr_index := curr_index ctx + 1;
                      ent := e; user_mem := mem2 |}).

(** Modelled from the spec: the driver's [getdents] ("the driver
    iterates all entries and passes each to a callback"), over the
    entries of the directory behind the handle; as in [fat_getdents], a
    non-zero result of the callback ends the walk and is returned. *)
Fixpoint fsops_getdents (entries : list vfs_dent64) (ctx : getdents_state)
    : option (Z * getdents_state) :=
  match entries with
  | [] => Some (0, ctx)
  | vde :: rest =>
      '(rc, ctx') ← vfs_getdents_cb vde ctx;
      if rc =? 0 then fsops_getdents rest ctx' else Some (rc, ctx')
  end.

(** The cast [(int) ctx.offset]. *)
Definition to_int (x : Z) : Z :=
  let y := wrap32 x in if y <? 2 ^ 31 then y else y - 2 ^ 32.

(** [vfs_getdents64] on a handle at [pos] over a directory holding
    [entries]: the result, the new [pos] and the user memory. *)
Definition vfs_getdents64 (entries : list vfs_dent64) (pos : Z)
    (user_dirp : ubuf) (bufsz : Z) : option (Z * Z * ubuf) :=
  let ctx := {| h_pos := pos; buf_size := wrap32 bufsz; offset := 0;
                curr_index := 0;
                ent := {| d_ino := 0; d_off := 0; d_reclen := 0; d_type := 0 |};
                user_mem := user_dirp |} in
  '(rc, ctx') ← fsops_getdents entries ctx;
  let rc := if rc =? 0 then to_int (offset ctx') else rc in
  Some (rc, h_pos ctx', user_mem ctx').

(** ** What a listing looks like *)

(** [d_reclen] of the record for [vde]. *)
Definition reclen (vde : vfs_dent64) : Z :=
  dirent64_size + Z.of_nat (length (name vde)) + 1.

Definition total_reclen (es : list vfs_dent64) : Z :=
  foldr (fun e acc => reclen e + acc) 0 es.

(** The bytes [bs] lie in [ub] from offset [off] on. *)
Definition bytes_at (off : Z) (bs : list Z) (ub : ubuf) : Prop :=
  forall (i : nat) b, bs !! i = Some b -> ub !! (Z.to_nat off + i)%nat = Some b.

(** The record of [vde] lies at offset [off]: its fields, with [d_off]
    the offset after the record, and its NUL-terminated name. *)
Definition record_at (off : Z) (vde : vfs_dent64) (ub : ubuf) : Prop :=
  exists dt,
    vfs_type_to_linux_dirent_type (type vde) = Some dt /\
    bytes_at off
      (dirent_fields {| d_ino := ino vde; d_off := off + reclen vde;
                        d_reclen := reclen vde; d_type := dt |}) ub /\
    bytes_at (off + d_name_offset) (name vde ++ [0]) ub.

(** The records of [es] lie back to back from offset [off] on. *)
Fixpoint records_at (off : Z) (es : list vfs_dent64) (ub : ubuf) : Prop :=
  match es with
  | [] => True
  | e :: es' => record_at off e ub /\ records_at (off + reclen e) es' ub
  end.

(** How many of the records of [es], in order, fit into [room] bytes. *)
Fixpoint fit (room : Z) (es : list vfs_dent64) : nat :=
  match es with
  | [] => O
  | e :: es' => if reclen e <=? room then S (fit (room - reclen e) es') else O
  end.

(** An entry a driver may report: a real type and a name that keeps the
    record length within 16 bits. *)
Definition dent_ok (vde : vfs_dent64) : Prop :=
  type vde ≠ VFS_NONE /\ reclen vde < 2 ^ 16.

(** Calls of [vfs_getdents64] one after the other on the same handle,
    the [i]-th with a buffer of [sizes !! i] bytes: the results of the
    calls and the final [pos]. *)
Fixpoint getdents_calls (entries : list vfs_dent64) (sizes : list Z)
    (pos : Z) (ub : ubuf) : option (list (Z * ubuf) * Z) :=
  match sizes with
  | [] => Some ([], pos)
  | sz :: sizes' =>
      '(rc, pos', ub') ← vfs_getdents64 entries pos ub sz;
      '(results, pos'') ← getdents_calls entries sizes' pos' ub';
      Some ((rc, ub') :: results, pos'')
  end.

End Getdents.

(** Scenario S6 of the specification: a directory with the entries [a],
    [bb] and [ccc]. *)
Definition s6_a : vfs_dent64 :=
  {| ino := 11; type := VFS_FILE; name := [97] |}.
Definition s6_bb : vfs_dent64 :=
  {| ino := 12; type := VFS_DIR; name := [98; 98] |}.
Definition s6_ccc : vfs_dent64 :=
  {| ino := 13; type := VFS_FILE; name := [99; 99; 99] |}.
Definition s6_entries : list vfs_dent64 := [s6_a; s6_bb; s6_ccc].

End Vfs.

(* ===================================================================== *)
(** * kernel/fs/fat32.c *)
(* ===================================================================== *)

Module Fat.

Local Open Scope Z_scope.

Definition EINVAL : Z := 22.
Definition SEEK_SET : Z := 0.
Definition SEEK_CUR : Z := 1.
Definition SEEK_END : Z := 2.

(** [(u32) -1], the invalid cluster. *)
Definition INVALID_CLUSTER : Z := wrap32 (-1).

(** The fields of a [struct fat_entry] the handle operations read.
    [first_cluster] is what [fat_get_first_cluster] returns for the entry
    and [dirents_count] what [fat_count_dirents] returns for a directory
    (both walk structures of fat32_base.c, outside the sources). *)
Record fat_entry := {
  DIR_FileSize : Z;           (* u32 *)
  directory : bool;
  first_cluster : Z;
  dirents_count : Z
}.

(** Modelled from the spec: the mounted image as [fat_read] and
    [fat_seek] see it through the helpers of fat32_base.c:
    [cluster_size = BPB_SecPerClus * BPB_BytsPerSec]; [fat_read_fat_entry]
    is the FAT itself, from a cluster to the value stored for it;
    [fat_is_end_of_clusterchain] and [fat_is_bad_cluster] classify such a
    value for the FAT type of the image; [fat_get_pointer_to_cluster_data]
    gives the bytes of a cluster. *)
Record fat_fs_device_data := {
  cluster_size : Z;
  fat_read_fat_entry : Z -> Z;
  fat_is_end_of_clusterchain : Z -> bool;
  fat_is_bad_cluster : Z -> bool;
  fat_get_pointer_to_cluster_data : Z -> list Z
}.

(** Modelled from the spec: the kernel runs on x86 in 32-bit protected
    mode, where [offt] and [ssize_t] (basic_defs.h, outside the sources)
    are signed integers of 32 bits and [size_t], like [u32], is an
    unsigned one. *)
Definition OFFT_MIN : Z := - 2 ^ 31.
Definition OFFT_MAX : Z := 2 ^ 31 - 1.

(** The cast [(offt) x] of a [u32] or a [size_t]. *)
Definition to_offt (x : Z) : Z :=
  let y := wrap32 x in if y <? 2 ^ 31 then y else y - 2 ^ 32.

(** The value of a sum or difference computed in [offt]: signed
    overflow is undefined in C, and has no result here. *)
Definition offt_val (x : Z) : option Z :=
  if (OFFT_MIN <=? x) && (x <=? OFFT_MAX) then Some x else None.

(** [a % b] in [offt]: the remainder of the truncated division, undefined
    for a divisor of 0 and when the division overflows. *)
Definition offt_rem (a b : Z) : option Z :=
  if b =? 0 then None
  else if (a =? OFFT_MIN) && (b =? -1) then None
  else Some (Z.rem a b).

(** A [fat_handle]: the entry, the byte cursor ([offt pos]) and the
    cluster under it ([u32 curr_cluster]). *)
Record fat_handle := {
  e : fat_entry;
  pos : Z;
  curr_cluster : Z
}.

Definition MIN3 (a b c : Z) : Z := Z.min (Z.min a b) c.

(** [memcpy(dst + off, src, n)] on a buffer held as a list. *)
Definition memcpy (dst : list Z) (off : Z) (src : list Z) (n : Z) : list Z :=
  list_inserts (Z.to_nat off) (take (Z.to_nat n) src) dst.

(** [fat_open] on an entry that exists, read-only: the fresh handle. *)
Definition fat_open (ent : fat_entry) : fat_handle :=
  {| e := ent; pos := 0; curr_cluster := first_cluster ent |}.

(** The [do { ... } while (true)] loop of [fat_read]; [bufsize] is a
    [size_t], [written_to_buf] an [offt].  [fuel] bounds the number of
    iterations and [None] is a failed assertion, an undefined operation
    (or no fuel). *)
Fixpoint fat_read_loop (fuel : nat) (d : fat_fs_device_data) (bufsize : Z)
    (h : fat_handle) (buf : list Z) (written_to_buf : Z)
    : option (fat_handle * list Z * Z) :=
  match fuel with
  | O => None
  | S fuel' =>
      let fsize := to_offt (DIR_FileSize (e h)) in
      let data := fat_get_pointer_to_cluster_data d (curr_cluster h) in
      file_rem ← offt_val (fsize - pos h);
      buf_rem ← offt_val (to_offt bufsize - written_to_buf);
      cluster_off ← offt_rem (pos h) (to_offt (cluster_size d));
      cluster_rem ← offt_val (to_offt (cluster_size d) - cluster_off);
      let to_read := MIN3 cluster_rem buf_rem file_rem in
      if to_read <? 0 then None                                  (* ASSERT *)
      else
        let buf := memcpy buf written_to_buf
                     (drop (Z.to_nat cluster_off) data) to_read in
        written_to_buf ← offt_val (written_to_buf + to_read);
        new_pos ← offt_val (pos h + to_read);
        let h := {| e := e h; pos := new_pos;
                    curr_cluster := curr_cluster h |} in
        if to_read <? cluster_rem then
          (* the buf or the file was not big enough *)
          Some (h, buf, written_to_buf)
        else
          (* find the next cluster *)
          let fatval := fat_read_fat_entry d (curr_cluster h) in
          if fat_is_end_of_clusterchain d fatval then
            if pos h =? fsize then Some (h, buf, written_to_buf)
            else None                                            (* ASSERT *)
          else if fat_is_bad_cluster d fatval then None          (* ASSERT *)
          else
            fat_read_loop fuel' d bufsize
              {| e := e h; pos := pos h; curr_cluster := fatval |}
              buf written_to_buf
  end.

(** [fat_read]: the handle, the buffer and the number of bytes read.
    Every iteration but the last moves the cursor by at least one byte,
    hence the bound on the iterations. *)
Definition fat_read (d : fat_fs_device_data) (h : fat_handle) (buf : list Z)
    (bufsize : Z) : option (fat_handle * list Z * Z) :=
  let fsize := to_offt (DIR_FileSize (e h)) in
  if fsize <=? pos h then
    (* The cursor is at the end or past the end: nothing to read. *)
    Some (h, buf, 0)
  else
    fat_read_loop (S (Z.to_nat (fsize - pos h))) d bufsize h buf 0.

(** [fat_rewind] *)
Definition fat_rewind (h : fat_handle) : fat_handle :=
  {| e := e h; pos := 0; curr_cluster := first_cluster (e h) |}.

(** The loop of [fat_seek_forward]; [dist] and [moved_distance] are
    [offt]. *)
Fixpoint fat_seek_forward_loop (fuel : nat) (d : fat_fs_device_data) (dist : Z)
    (h : fat_handle) (moved_distance : Z) : option fat_handle :=
  match fuel with
  | O => None
  | S fuel' =>
      let fsize := to_offt (DIR_FileSize (e h)) in
      file_rem ← offt_val (fsize - pos h);
      dist_rem ← offt_val (dist - moved_distance);
      cluster_off ← offt_rem (pos h) (to_offt (cluster_size d));
      cluster_rem ← offt_val (to_offt (cluster_size d) - cluster_off);
      let to_move := MIN3 cluster_rem dist_rem file_rem in
      if to_move <? 0 then None                                  (* ASSERT *)
      else
        moved_distance ← offt_val (moved_distance + to_move);
        new_pos ← offt_val (pos h + to_move);
        let h := {| e := e h; pos := new_pos;
                    curr_cluster := curr_cluster h |} in
        if to_move <? cluster_rem then Some h
        else
          let fatval := fat_read_fat_entry d (curr_cluster h) in
          if fat_is_end_of_clusterchain d fatval then
            if pos h =? fsize then Some h else None              (* ASSERT *)
          else if fat_is_bad_cluster d fatval then None          (* ASSERT *)
          else
            fat_seek_forward_loop fuel' d dist
              {| e := e h; pos := pos h; curr_cluster := fatval |}
              moved_distance
  end.

(** [fat_seek_forward]: the handle and the returned position. *)
Definition fat_seek_forward (d : fat_fs_device_data) (h : fat_handle)
    (dist : Z) : option (fat_handle * Z) :=
  let fsize := to_offt (DIR_FileSize (e h)) in
  if dist =? 0 then Some (h, pos h)
  else
    new_pos ← offt_val (pos h + dist);
    if fsize <? new_pos then
      (* Allow, like Linux does, to seek past the end of a file. *)
      let h := {| e := e h; pos := new_pos;
                  curr_cluster := INVALID_CLUSTER |} in
      Some (h, pos h)
    else
      h' ← fat_seek_forward_loop (S (Z.to_nat dist)) d dist h 0;
      Some (h', pos h').

(** [fat_seek_dir] *)
Definition fat_seek_dir (fh : fat_handle) (off : Z) : fat_handle * Z :=
  if off <? 0 then (fh, - EINVAL)
  else if dirents_count (e fh) <? off then (fh, - EINVAL)
  else
    let fh := {| e := e fh; pos := off; curr_cluster := curr_cluster fh |} in
    (fh, pos fh).

(** [fat_seek]: the handle and the returned value; [off] is an [offt]. *)
Definition fat_seek (d : fat_fs_device_data) (fh : fat_handle) (off whence : Z)
    : option (fat_handle * Z) :=
  if directory (e fh) then
    if negb (whence =? SEEK_SET) then Some (fh, - EINVAL)
    else Some (fat_seek_dir fh off)
  else
    let curr_pos := pos fh in
    if whence =? SEEK_SET then
      if off <? 0 then Some (fh, - EINVAL)     (* invalid negative offset *)
      else fat_seek_forward d (fat_rewind fh) off
    else if whence =? SEEK_END then
      if 0 <=? off then fat_seek_forward d fh off
      else
        off ← offt_val (to_offt (DIR_FileSize (e fh)) + off);
        if off <? 0 then Some (fh, - EINVAL)
        else fat_seek_forward d (fat_rewind fh) off
    else if whence =? SEEK_CUR then
      if off <? 0 then
        off ← offt_val (curr_pos + off);
        if off <? 0 then Some (fh, - EINVAL)
        else fat_seek_forward d (fat_rewind fh) off
      else fat_seek_forward d fh off
    else Some (fh, - EINVAL).

(** ** Well-formed files *)

(** The clusters [c :: rest] are the chain of a file: each is linked to
    the next by the FAT, and the value stored for the last one is an
    end-of-chain mark. *)
Fixpoint chain_ok (d : fat_fs_device_data) (c : Z) (rest : list Z) : Prop :=
  match rest with
  | [] => fat_is_end_of_clusterchain d (fat_read_fat_entry d c) = true
  | n :: rest' =>
      fat_read_fat_entry d c = n /\
      fat_is_end_of_clusterchain d n = false /\
      fat_is_bad_cluster d n = false /\
      chain_ok d n rest'
  end.

(** The entry [ent] is a file of the image [d] with the cluster chain
    [chain]: the size of a cluster and the size of the file are values
    of [offt] (below 2^31), the chain starts at the first cluster of the
    entry, has room for the size of the file, and every cluster has
    [cluster_size] bytes. *)
Definition file_ok (d : fat_fs_device_data) (ent : fat_entry) (chain : list Z)
    : Prop :=
  0 < cluster_size d < 2 ^ 31 /\
  0 <= DIR_FileSize ent < 2 ^ 31 /\
  match chain with
  | [] => DIR_FileSize ent = 0
  | c :: rest => c = first_cluster ent /\ chain_ok d c rest
  end /\
  DIR_FileSize ent <= Z.of_nat (length chain) * cluster_size d /\
  forall c, c ∈ chain ->
    Z.of_nat (length (fat_get_pointer_to_cluster_data d c)) = cluster_size d.

(** The content of the file: the bytes of its clusters, cut at its size. *)
Definition file_content (d : fat_fs_device_data) (ent : fat_entry)
    (chain : list Z) : list Z :=
  take (Z.to_nat (DIR_FileSize ent))
       (concat (map (fat_get_pointer_to_cluster_data d) chain)).

(** The handle is in step with the file: the cursor is a non-negative
    [offt], and while it is inside the file, [curr_cluster] is the
    cluster that holds it. *)
Definition handle_ok (d : fat_fs_device_data) (chain : list Z) (h : fat_handle)
    : Prop :=
  0 <= pos h < 2 ^ 31 /\
  (pos h < DIR_FileSize (e h) ->
   chain !! Z.to_nat (pos h / cluster_size d) = Some (curr_cluster h)).

(** Reading a file chunk by chunk: one [fat_read] per element of [sizes],
    each into a fresh buffer of that size; the bytes read, in order, and
    the handle at the end. *)
Fixpoint read_chunks (d : fat_fs_device_data) (sizes : list Z) (h : fat_handle)
    : option (list Z * fat_handle) :=
  match sizes with
  | [] => Some ([], h)
  | sz :: sizes' =>
      '(h1, buf, n) ← fat_read d h (replicate (Z.to_nat sz) 0) sz;
      '(bytes, h2) ← read_chunks d sizes' h1;
      Some (take (Z.to_nat n) buf ++ bytes, h2)
  end.

Definition total_size (sizes : list Z) : Z := foldr Z.add 0 sizes.

(** ** A small image *)

(** Clusters of 4 bytes; the file of 6 bytes [10..15] lies in clusters 5
    and 9; FAT values from 0xFF8 on end a chain and 0xFF7 marks a bad
    cluster (FAT12). *)
Definition tiny_image : fat_fs_device_data :=
  {| cluster_size := 4;
     fat_read_fat_entry := fun c => if c =? 5 then 9 else 0xFFF;
     fat_is_end_of_clusterchain := fun v => 0xFF8 <=? v;
     fat_is_bad_cluster := fun v => v =? 0xFF7;
     fat_get_pointer_to_cluster_data := fun c =>
       if c =? 5 then [10; 11; 12; 13]
       else if c =? 9 then [14; 15; 0; 0]
       else [0; 0; 0; 0] |}.

Definition tiny_file : fat_entry :=
  {| DIR_FileSize := 6; directory := false; first_cluster := 5;
     dirents_count := 0 |}.

Definition tiny_chain : list Z := [5; 9].

(** A directory of [tiny_image] with three entries. *)
Definition tiny_dir : fat_entry :=
  {| DIR_FileSize := 0; directory := true; first_cluster := 2;
     dirents_count := 3 |}.

(** ** Dates *)

(** The fields of [datetime_t] that [fat_datetime_to_regular_datetime]
    assigns, as integers.  The values it stores are small (at most 63,
    and at most 2107 for the year); the field types of datetime.h,
    outside the sources, are taken to hold them. *)
Record datetime_t := {
  sec : Z;
  min : Z;
  hour : Z;
  day : Z;
  month : Z;
  year : Z
}.

(** [fat_datetime_to_regular_datetime]; [date] and [time] are [u16],
    [timetenth] is a [u8]. *)
Definition fat_datetime_to_regular_datetime (date time timetenth : Z)
    : datetime_t :=
  let date := wrap16 date in
  let time := wrap16 time in
  let timetenth := wrap8 timetenth in
  {| day := Z.land date 31;                              (* 5 bits: [0..4] *)
     month := Z.land (Z.shiftr date 5) 15;               (* 4 bits: [5..8] *)
     year := Z.land (Z.shiftr date 9) 127 + 1980;        (* 7 bits: [9..15] *)
     sec := Z.land time 31 + timetenth / 10;             (* 5 bits: [0..4] *)
     min := Z.land (Z.shiftr time 5) 63;                 (* 6 bits: [5..10] *)
     hour := Z.land (Z.shiftr time 11) 31 |}.            (* 5 bits: [11..15] *)

End Fat.
(* ===================================================================== *)
(** * The ioctl interface of the tty *)
(* ===================================================================== *)

Module Tty.

Local Open Scope Z_scope.

Definition EFAULT : Z := 14.
Definition EINVAL : Z := 22.

(** The request codes and arguments of <sys/ioctl.h> and <linux/kd.h>. *)
Definition TCGETS : Z := 0x5401.
Definition TCSETS : Z := 0x5402.
Definition TCSETSW : Z := 0x5403.
Definition TCSETSF : Z := 0x5404.
Definition TIOCGWINSZ : Z := 0x5413.
Definition KDSETMODE : Z := 0x4B3A.
Definition KDGKBMODE : Z := 0x4B44.
Definition KDSKBMODE : Z := 0x4B45.
Definition KD_TEXT : Z := 0.
Definition KD_GRAPHICS : Z := 1.
Definition K_XLATE : Z := 1.

(** What the ioctl code asks of the terminal and of the tty layer. *)
Inductive tty_event :=
| EvRestartVideo            (* term_restart_video_output() *)
| EvPauseVideo              (* term_pause_video_output() *)
| EvUpdateHandlers          (* tty_update_special_ctrl_handlers() *)
| EvPrintk (request : Z).   (* the warning of tty_ioctl *)

(** The state the ioctl code works on: the bytes of [c_term] (a
    [struct termios], [sizeof(struct termios)] of them), [tty_kd_mode],
    the size [term_get_rows] and [term_get_cols] report, the user memory
    (the bytes that are mapped, from address 0 on) and the calls made. *)
Record tty_state := {
  c_term : list Z;
  tty_kd_mode : Z;
  term_rows : Z;
  term_cols : Z;
  user : list Z;
  events : list tty_event
}.

Definition set_c_term (v : list Z) (st : tty_state) : tty_state :=
  {| c_term := v; tty_kd_mode := tty_kd_mode st; term_rows := term_rows st;
     term_cols := term_cols st; user := user st; events := events st |}.

Definition set_kd_mode (v : Z) (st : tty_state) : tty_state :=
  {| c_term := c_term st; tty_kd_mode := v; term_rows := term_rows st;
     term_cols := term_cols st; user := user st; events := events st |}.

Definition set_user (v : list Z) (st : tty_state) : tty_state :=
  {| c_term := c_term st; tty_kd_mode := tty_kd_mode st;
     term_rows := term_rows st; term_cols := term_cols st; user := v;
     events := events st |}.

Definition log (ev : tty_event) (st : tty_state) : tty_state :=
  {| c_term := c_term st; tty_kd_mode := tty_kd_mode st;
     term_rows := term_rows st; term_cols := term_cols st; user := user st;
     events := events st ++ [ev] |}.

(** Modelled from the spec: the fallible copy primitive [copy_from_user]
    (user.h), the counterpart of [Vfs.copy_to_user]: [n] bytes from
    address [src] of the user memory [um] into [dst].  The bytes are
    loaded one by one up to the end of the mapped area; the copy fails (a
    negative result) when it runs past it. *)
Definition copy_from_user (dst : list Z) (src n : Z) (um : list Z)
    : Z * list Z :=
  (if src + n <=? Z.of_nat (length um) then 0 else -1,
   list_inserts 0 (take (Z.to_nat n) (drop (Z.to_nat src) um)) dst).

(** [sizeof(struct termios)] *)
Definition termios_size (st : tty_state) : Z := Z.of_nat (length (c_term st)).

(** [tty_ioctl_tcgets] *)
Definition tty_ioctl_tcgets (st : tty_state) (argp : Z) : Z * tty_state :=
  let (rc, um) := Vfs.copy_to_user argp (c_term st) (user st) in
  let st := set_user um st in
  if rc <? 0 then (- EFAULT, st) else (0, st).

(** [tty_ioctl_tcsets] *)
Definition tty_ioctl_tcsets (st : tty_state) (argp : Z) : Z * tty_state :=
  let saved := c_term st in
  let (rc, ct) := copy_from_user (c_term st) argp (termios_size st) (user st) in
  let st := set_c_term ct st in
  if rc <? 0 then (- EFAULT, set_c_term saved st)
  else (0, log EvUpdateHandlers st).

(** The bytes of a [struct winsize]: four [unsigned short]. *)
Definition winsize_bytes (rows cols : Z) : list Z :=
  Vfs.le_bytes 2 (wrap16 rows) ++ Vfs.le_bytes 2 (wrap16 cols) ++
  Vfs.le_bytes 2 0 ++ Vfs.le_bytes 2 0.

(** [tty_ioctl_tiocgwinsz] *)
Definition tty_ioctl_tiocgwinsz (st : tty_state) (argp : Z) : Z * tty_state :=
  let sz := winsize_bytes (term_rows st) (term_cols st) in
  let (rc, um) := Vfs.copy_to_user argp sz (user st) in
  let st := set_user um st in
  if rc <? 0 then (- EFAULT, st) else (0, st).

(** [tty_setup_for_panic] *)
Definition tty_setup_for_panic (st : tty_state) : tty_state :=
  if negb (tty_kd_mode st =? KD_TEXT)
  then set_kd_mode KD_TEXT (log EvRestartVideo st)
  else st.

(** [tty_ioctl_kdsetmode] *)
Definition tty_ioctl_kdsetmode (st : tty_state) (argp : Z) : Z * tty_state :=
  let opt := argp in
  if opt =? KD_TEXT then (0, set_kd_mode KD_TEXT (log EvRestartVideo st))
  else if opt =? KD_GRAPHICS
  then (0, set_kd_mode KD_GRAPHICS (log EvPauseVideo st))
  else (- EINVAL, st).

(** [tty_ioctl_KDGKBMODE]; [mode] is an [int]. *)
Definition tty_ioctl_KDGKBMODE (st : tty_state) (argp : Z) : Z * tty_state :=
  let mode := K_XLATE in      (* The only supported mode, at the moment *)
  let (rc, um) := Vfs.copy_to_user argp (Vfs.le_bytes 4 mode) (user st) in
  let st := set_user um st in
  if rc =? 0 then (0, st) else (- EFAULT, st).

(** [tty_ioctl_KDSKBMODE] *)
Definition tty_ioctl_KDSKBMODE (st : tty_state) (argp : Z) : Z * tty_state :=
  let mode := argp in
  if mode =? K_XLATE then (0, st) else (- EINVAL, st).

(** [tty_ioctl] *)
Definition tty_ioctl (st : tty_state) (request argp : Z) : Z * tty_state :=
  if request =? TCGETS then tty_ioctl_tcgets st argp
  else if request =? TCSETS then tty_ioctl_tcsets st argp
  else if request =? TCSETSW then tty_ioctl_tcsets st argp
  else if request =? TCSETSF then tty_ioctl_tcsets st argp
  else if request =? TIOCGWINSZ then tty_ioctl_tiocgwinsz st argp
  else if request =? KDSETMODE then tty_ioctl_kdsetmode st argp
  else if request =? KDGKBMODE then tty_ioctl_KDGKBMODE st argp
  else if request =? KDSKBMODE then tty_ioctl_KDSKBMODE st argp
  else (- EINVAL, log (EvPrintk request) st).

(** The requests that store a termios. *)
Definition is_tcsets (request : Z) : bool :=
  (request =? TCSETS) || (request =? TCSETSW) || (request =? TCSETSF).

(** The mode is one of the two the tty knows. *)
Definition kd_mode_ok (st : tty_state) : Prop :=
  tty_kd_mode st = KD_TEXT \/ tty_kd_mode st = KD_GRAPHICS.

(** A tty with a termios of 8 bytes (for the sake of the example) on an
    80 x 25 terminal in graphics mode, and 16 bytes of user memory. *)
Definition tty0 : tty_state :=
  {| c_term := [1; 2; 3; 4; 5; 6; 7; 8];
     tty_kd_mode := KD_GRAPHICS;
     term_rows := 25; term_cols := 80;
     user := [0; 0; 0; 0; 21; 22; 23; 24; 25; 26; 27; 28; 0; 0; 0; 0];
     events := [] |}.

End Tty.


(* ===================================================================== *)
(** * Machine arithmetic *)
(* ===================================================================== *)

Lemma wrap32_small (x : Z) : (0 <= x < 2 ^ 32)%Z -> wrap32 x = x.
Proof. intros H. unfold wrap32. apply Z.mod_small. exact H. Qed.

Lemma wrap16_small (x : Z) : (0 <= x < 2 ^ 16)%Z -> wrap16 x = x.
Proof. intros H. unfold wrap16. apply Z.mod_small. exact H. Qed.

Lemma wrap8_small (x : Z) : (0 <= x < 2 ^ 8)%Z -> wrap8 x = x.
Proof. intros H. unfold wrap8. apply Z.mod_small. exact H. Qed.

(* ===================================================================== *)
(** * Properties of the kernel mutex *)
(* ===================================================================== *)

Module KmutexSpec.
Import Kmutex.
Local Open Scope Z_scope.

Lemma filter_ne_fresh (t : tid) (l : list tid) :
  t ∉ l -> filter (fun x => x ≠ t) l = l.
Proof.
  induction l as [|a l IH]; intros Hn; [reflexivity|].
  apply not_elem_of_cons in Hn as [Hne Hnl].
  rewrite filter_cons_True by congruence.
  f_equal. apply IH, Hnl.
Qed.

Lemma filter_ne_middle (t : tid) (pre post : list tid) :
  NoDup (pre ++ t :: post) ->
  filter (fun x => x ≠ t) (pre ++ t :: post) = pre ++ post.
Proof.
  intros Hnd. apply NoDup_app in Hnd as (_ & Hdisj & Hnd2).
  apply NoDup_cons in Hnd2 as [Hnpost _].
  rewrite filter_app, filter_cons_False by (intros H; apply H; reflexivity).
  rewrite !filter_ne_fresh; [reflexivity|exact Hnpost|].
  intros Hin. apply (Hdisj t Hin). left.
Qed.

(** The scan walks over tasks that do not wait on [m] without touching
    the state. *)
Lemma unlock_scan_skip m (pre rest : list tid) st :
  (forall x, x ∈ pre ->
     exists ti, tasks st !! x = Some ti /\ state ti = TASK_STATE_SLEEPING /\
                ptr (wobj ti) ≠ Some m) ->
  unlock_scan m (pre ++ rest) st = unlock_scan m rest st.
Proof.
  induction pre as [|a pre IH]; intros Hpre; [reflexivity|].
  destruct (Hpre a) as (ti & Hti & Hs & Hp); [left|].
  simpl. rewrite Hti. simpl.
  rewrite bool_decide_eq_true_2 by exact Hs. simpl.
  rewrite bool_decide_eq_false_2 by exact Hp.
  apply IH. intros x Hx. apply Hpre. right. exact Hx.
Qed.

Lemma is_recursive_with_owner o mu :
  is_recursive (with_owner o mu) = is_recursive mu.
Proof. reflexivity. Qed.

Lemma is_recursive_with_lock_count c mu :
  is_recursive (with_lock_count c mu) = is_recursive mu.
Proof. reflexivity. Qed.

(** What the body of the loop does at the first waiter. *)
Lemma unlock_scan_hit m t post st ti mu :
  tasks st !! t = Some ti ->
  state ti = TASK_STATE_SLEEPING ->
  ptr (wobj ti) = Some m ->
  kmutexes st !! m = Some mu ->
  exists st1,
    unlock_scan m (t :: post) st = Some st1 /\
    tasks st1 =
      <[t := {| state := TASK_STATE_RUNNABLE;
                wobj := {| wtype := WOBJ_NONE; ptr := None |} |}]> (tasks st) /\
    sleeping_tasks_list st1 =
      filter (fun x => x ≠ t) (sleeping_tasks_list st) /\
    kmutexes st1 =
      <[m := if is_recursive mu
             then with_lock_count (wrap32 (lock_count mu + 1))
                    (with_owner (Some t) mu)
             else with_owner (Some t) mu]> (kmutexes st) /\
    disable_preemption_count st1 = disable_preemption_count st.
Proof.
  intros Hti Hs Hp Hm. eexists. split.
  - simpl. rewrite Hti. simpl.
    rewrite bool_decide_eq_true_2 by exact Hs. simpl.
    rewrite bool_decide_eq_true_2 by exact Hp.
    rewrite Hm. simpl.
    unfold wait_obj_reset. simpl. rewrite Hti. simpl.
    unfold task_change_state. simpl. rewrite lookup_insert_eq. simpl.
    rewrite Hs. simpl. reflexivity.
  - simpl. rewrite insert_insert_eq. rewrite is_recursive_with_owner.
    repeat split; reflexivity.
Qed.

Lemma unlock_scan_total m l st mu :
  kmutexes st !! m = Some mu ->
  (forall x, x ∈ l ->
     exists ti, tasks st !! x = Some ti /\ state ti = TASK_STATE_SLEEPING) ->
  is_Some (unlock_scan m l st).
Proof.
  intros Hm. induction l as [|a l IH]; intros Hl; [eexists; reflexivity|].
  destruct (Hl a) as (ti & Hti & Hs); [left|].
  destruct (decide (ptr (wobj ti) = Some m)) as [Hp|Hp].
  - destruct (unlock_scan_hit m a l st ti mu Hti Hs Hp Hm) as (st1 & H1 & _).
    rewrite H1. eexists; reflexivity.
  - simpl. rewrite Hti. simpl.
    rewrite bool_decide_eq_true_2 by exact Hs. simpl.
    rewrite bool_decide_eq_false_2 by exact Hp.
    apply IH. intros x Hx. apply Hl. right. exact Hx.
Qed.

(** The scan leaves the preemption counter and the other mutexes alone. *)
Lemma unlock_scan_frame m l st st1 :
  unlock_scan m l st = Some st1 ->
  disable_preemption_count st1 = disable_preemption_count st /\
  forall m', m' ≠ m -> kmutexes st1 !! m' = kmutexes st !! m'.
Proof.
  induction l as [|a l IH]; intros H.
  - injection H as <-. auto.
  - destruct (tasks st !! a) as [ti|] eqn:Hti;
      [|simpl in H; rewrite Hti in H; discriminate].
    destruct (decide (state ti = TASK_STATE_SLEEPING)) as [Hs|Hs].
    2:{ simpl in H. rewrite Hti in H. simpl in H.
        rewrite bool_decide_eq_false_2 in H by exact Hs. discriminate. }
    destruct (decide (ptr (wobj ti) = Some m)) as [Hp|Hp].
    + destruct (kmutexes st !! m) as [mu|] eqn:Hm.
      * destruct (unlock_scan_hit m a l st ti mu Hti Hs Hp Hm)
          as (st2 & H2 & _ & _ & Hk & Hd).
        rewrite H2 in H. injection H as <-. split; [exact Hd|].
        intros m' Hne. rewrite Hk. apply lookup_insert_ne. congruence.
      * simpl in H. rewrite Hti in H. simpl in H.
        rewrite bool_decide_eq_true_2 in H by exact Hs. simpl in H.
        rewrite bool_decide_eq_true_2 in H by exact Hp.
        rewrite Hm in H. discriminate.
    + simpl in H. rewrite Hti in H. simpl in H.
      rewrite bool_decide_eq_true_2 in H by exact Hs. simpl in H.
      rewrite bool_decide_eq_false_2 in H by exact Hp.
      apply IH, H.
Qed.

(** ** Acquiring and releasing without contention *)

Lemma preempt_roundtrip st : enable_preemption (disable_preemption st) = st.
Proof.
  destruct st. unfold enable_preemption, disable_preemption, set_preempt.
  simpl. f_equal. lia.
Qed.

Lemma preempt_store m mu st :
  enable_preemption (store_mutex m mu (disable_preemption st)) =
  store_mutex m mu st.
Proof.
  destruct st.
  unfold enable_preemption, disable_preemption, store_mutex, set_kmutexes,
    set_preempt.
  simpl. f_equal. lia.
Qed.

Lemma same_sched_refl st : same_sched st st.
Proof. repeat split. Qed.

Lemma same_sched_trans a b c : same_sched a b -> same_sched b c -> same_sched a c.
Proof.
  intros (H1 & H2 & H3 & H4 & H5) (G1 & G2 & G3 & G4 & G5).
  repeat split; congruence.
Qed.

Lemma same_sched_store m mu st : same_sched st (store_mutex m mu st).
Proof. repeat split. Qed.

(** [kmutex_lock] on a free mutex. *)
Lemma kmutex_lock_free st m mu :
  in_irq_handler st = false ->
  kmutexes st !! m = Some mu ->
  owner_task mu = None ->
  kmutex_lock m st =
    Some (Acquired,
          store_mutex m
            (if is_recursive mu
             then with_lock_count (wrap32 (lock_count mu + 1))
                    (with_owner (Some (curr_task st)) mu)
             else with_owner (Some (curr_task st)) mu) st).
Proof.
  intros Hirq Hm Ho. unfold kmutex_lock, check_not_in_irq_handler.
  rewrite Hirq. simpl. rewrite Hm. simpl. rewrite Ho.
  rewrite is_recursive_with_owner, preempt_store. reflexivity.
Qed.

(** [kmutex_lock] on a recursive mutex the caller already holds. *)
Lemma kmutex_lock_again st m mu :
  in_irq_handler st = false ->
  kmutexes st !! m = Some mu ->
  is_recursive mu = true ->
  owner_task mu = Some (curr_task st) ->
  0 < lock_count mu ->
  kmutex_lock m st =
    Some (Acquired,
          store_mutex m (with_lock_count (wrap32 (lock_count mu + 1)) mu) st).
Proof.
  intros Hirq Hm Hr Ho Hlc. unfold kmutex_lock, check_not_in_irq_handler.
  rewrite Hirq. simpl. rewrite Hm. simpl. rewrite Ho, Hr.
  replace (0 <? lock_count mu) with true by (symmetry; apply Z.ltb_lt, Hlc).
  simpl. unfold kmutex_is_curr_task_holding_lock. simpl.
  rewrite bool_decide_eq_true_2 by exact Ho.
  rewrite preempt_store. reflexivity.
Qed.

(** [kmutex_unlock] of a recursive mutex held more than once. *)
Lemma kmutex_unlock_nested st m mu :
  in_irq_handler st = false ->
  kmutexes st !! m = Some mu ->
  is_recursive mu = true ->
  owner_task mu = Some (curr_task st) ->
  1 < lock_count mu < 2 ^ 32 ->
  kmutex_unlock m st =
    Some (store_mutex m (with_lock_count (lock_count mu - 1) mu) st).
Proof.
  intros Hirq Hm Hr Ho Hlc. unfold kmutex_unlock, check_not_in_irq_handler.
  rewrite Hirq. simpl. rewrite Hm. simpl.
  unfold kmutex_is_curr_task_holding_lock. simpl.
  rewrite bool_decide_eq_true_2 by exact Ho. simpl. rewrite Hr.
  replace (0 <? lock_count mu) with true by (symmetry; apply Z.ltb_lt; lia).
  simpl. rewrite wrap32_small by lia.
  replace (0 <? lock_count mu - 1) with true by (symmetry; apply Z.ltb_lt; lia).
  rewrite preempt_store. reflexivity.
Qed.

(** The last [kmutex_unlock]: the owner is cleared and the scan starts. *)
Lemma kmutex_unlock_last st m mu :
  in_irq_handler st = false ->
  kmutexes st !! m = Some mu ->
  owner_task mu = Some (curr_task st) ->
  (is_recursive mu = true -> lock_count mu = 1) ->
  kmutex_unlock m st =
    st1 ← unlock_scan m (sleeping_tasks_list st)
            (store_mutex m (released mu) (disable_preemption st));
    Some (enable_preemption st1).
Proof.
  intros Hirq Hm Hown Hrec.
  unfold kmutex_unlock, check_not_in_irq_handler. rewrite Hirq. simpl.
  rewrite Hm. simpl. unfold kmutex_is_curr_task_holding_lock. simpl.
  rewrite bool_decide_eq_true_2 by exact Hown. simpl.
  unfold released. destruct (is_recursive mu) eqn:Er.
  - rewrite (Hrec eq_refl). reflexivity.
  - destruct mu; reflexivity.
Qed.

(** With nobody waiting on [m] the scan changes nothing. *)
Lemma unlock_scan_none m st :
  sleeping_wf st ->
  (forall x, x ∈ sleeping_tasks_list st -> ~ waits_on m st x) ->
  unlock_scan m (sleeping_tasks_list st) st = Some st.
Proof.
  intros [_ Hsl] Hno.
  rewrite <- (app_nil_r (sleeping_tasks_list st)), unlock_scan_skip;
    [reflexivity|].
  intros x Hx. destruct (Hsl x Hx) as (ti & Hti & Hs).
  exists ti. repeat split; [exact Hti|exact Hs|].
  intros Hp. apply (Hno x Hx). exists ti. split; assumption.
Qed.

Lemma kmutex_unlock_release st m mu :
  in_irq_handler st = false ->
  kmutexes st !! m = Some mu ->
  owner_task mu = Some (curr_task st) ->
  (is_recursive mu = true -> lock_count mu = 1) ->
  sleeping_wf st ->
  (forall x, x ∈ sleeping_tasks_list st -> ~ waits_on m st x) ->
  kmutex_unlock m st = Some (store_mutex m (released mu) st).
Proof.
  intros Hirq Hm Hown Hrec Hwf Hno.
  rewrite (kmutex_unlock_last st m mu Hirq Hm Hown Hrec).
  pose proof (unlock_scan_none m
                (store_mutex m (released mu) (disable_preemption st)) Hwf Hno)
    as Hscan.
  change (sleeping_tasks_list
            (store_mutex m (released mu) (disable_preemption st)))
    with (sleeping_tasks_list st) in Hscan.
  rewrite Hscan. simpl. rewrite preempt_store. reflexivity.
Qed.

(** C1.  [kmutex_unlock] by the owner (for a recursive mutex: with the
    count at its last level) returns, leaves the preemption counter and
    every other mutex as they were, and
    - when the sleeping list is [pre ++ t :: post] with [t] the first task
      whose wait-object target is [m]: [t] is the new owner (lock_count 1
      for a recursive mutex), [t] is runnable with a cleared wait object
      and off the sleeping list, and no other task changed;
    - when no sleeping task waits on [m]: the mutex is free and the tasks
      and the sleeping list are untouched. *)
Theorem kmutex_unlock_hands_over_to_first_waiter (st : kstate) (m : maddr)
    (mu : kmutex) :
  in_irq_handler st = false ->
  kmutexes st !! m = Some mu ->
  owner_task mu = Some (curr_task st) ->
  (is_recursive mu = true -> lock_count mu = 1) ->
  sleeping_wf st ->
  exists st',
    kmutex_unlock m st = Some st' /\
    disable_preemption_count st' = disable_preemption_count st /\
    (forall m', m' ≠ m -> kmutexes st' !! m' = kmutexes st !! m') /\
    (forall pre t post,
        sleeping_tasks_list st = pre ++ t :: post ->
        (forall x, x ∈ pre -> ~ waits_on m st x) ->
        waits_on m st t ->
        kmutexes st' !! m = Some (handed_to t mu) /\
        tasks st' !! t =
          Some {| state := TASK_STATE_RUNNABLE;
                  wobj := {| wtype := WOBJ_NONE; ptr := None |} |} /\
        (forall t', t' ≠ t -> tasks st' !! t' = tasks st !! t') /\
        sleeping_tasks_list st' = pre ++ post) /\
    ((forall x, x ∈ sleeping_tasks_list st -> ~ waits_on m st x) ->
        kmutexes st' !! m = Some (released mu) /\
        tasks st' = tasks st /\
        sleeping_tasks_list st' = sleeping_tasks_list st).
Proof.
  intros Hirq Hm Hown Hrec [Hnd Hsl].
  (* the state in which the scan starts *)
  assert (Hunl := kmutex_unlock_last st m mu Hirq Hm Hown Hrec).
  set (st0 := store_mutex m (released mu) (disable_preemption st)) in *.
  assert (Hm0 : kmutexes st0 !! m = Some (released mu)).
  { subst st0. simpl. apply lookup_insert_eq. }
  assert (Hskip : forall l : list tid,
            (forall x, x ∈ l -> x ∈ sleeping_tasks_list st) ->
            (forall x, x ∈ l -> ~ waits_on m st x) ->
            forall x, x ∈ l -> exists ti, tasks st0 !! x = Some ti /\
               state ti = TASK_STATE_SLEEPING /\ ptr (wobj ti) ≠ Some m).
  { intros l Hsub Hnw x Hx. destruct (Hsl x (Hsub x Hx)) as (ti & Hti & Hs).
    exists ti. repeat split; [exact Hti|exact Hs|].
    intros Hp. apply (Hnw x Hx). exists ti. split; assumption. }
  destruct (unlock_scan_total m (sleeping_tasks_list st) st0 _ Hm0)
    as [st1 Hst1]; [exact Hsl|].
  exists (enable_preemption st1). rewrite Hunl, Hst1. split; [reflexivity|].
  assert (Hcases :
    (forall pre t post,
        sleeping_tasks_list st = pre ++ t :: post ->
        (forall x, x ∈ pre -> ~ waits_on m st x) ->
        waits_on m st t ->
        tasks st1 =
          <[t := {| state := TASK_STATE_RUNNABLE;
                    wobj := {| wtype := WOBJ_NONE; ptr := None |} |}]>
            (tasks st) /\
        sleeping_tasks_list st1 = pre ++ post /\
        kmutexes st1 = <[m := handed_to t mu]> (kmutexes st0) /\
        disable_preemption_count st1 = disable_preemption_count st0) /\
    ((forall x, x ∈ sleeping_tasks_list st -> ~ waits_on m st x) ->
        st1 = st0)).
  { split.
    - intros pre t post Hl Hpre (ti & Hti & Hp).
      rewrite Hl in Hst1. rewrite unlock_scan_skip in Hst1.
      2:{ apply Hskip; [|exact Hpre]. intros x Hx. rewrite Hl.
          apply elem_of_app. left. exact Hx. }
      destruct (Hsl t) as (ti' & Hti' & Hs).
      { rewrite Hl. apply elem_of_app. right. left. }
      assert (ti' = ti) by congruence. subst ti'.
      destruct (unlock_scan_hit m t post st0 ti _ Hti Hs Hp Hm0)
        as (st2 & H2 & Ht & Hsl2 & Hk & Hd).
      rewrite H2 in Hst1. injection Hst1 as <-.
      repeat split.
      + exact Ht.
      + rewrite Hsl2. subst st0. simpl. rewrite Hl.
        apply filter_ne_middle. rewrite <- Hl. exact Hnd.
      + rewrite Hk. f_equal.
        change (is_recursive (released mu)) with (is_recursive mu).
        unfold handed_to, released, with_lock_count, with_owner. simpl.
        destruct (is_recursive mu); reflexivity.
      + exact Hd.
    - intros Hnone.
      rewrite <- (app_nil_r (sleeping_tasks_list st)) in Hst1.
      rewrite unlock_scan_skip in Hst1.
      + simpl in Hst1. congruence.
      + apply Hskip; [auto|exact Hnone]. }
  destruct Hcases as [Hhit Hnone].
  destruct (unlock_scan_frame _ _ _ _ Hst1) as [Hd1 Hk1].
  split; [simpl; rewrite Hd1; subst st0; simpl; lia|].
  split.
  { intros m' Hne. simpl. rewrite (Hk1 m' Hne). subst st0. simpl.
    apply lookup_insert_ne. congruence. }
  split.
  - intros pre t post Hl Hpre Hw.
    destruct (Hhit pre t post Hl Hpre Hw) as (Ht & Hs & Hk & _).
    simpl. rewrite Ht, Hs, Hk. subst st0. simpl.
    rewrite insert_insert_eq, !lookup_insert_eq.
    split; [reflexivity|]. split; [reflexivity|]. split; [|reflexivity].
    intros t' Hne. apply lookup_insert_ne. congruence.
  - intros Hno. rewrite (Hnone Hno). subst st0. simpl.
    rewrite lookup_insert_eq. repeat split.
Qed.

Lemma s2_state_wf fl lc : sleeping_wf (s2_state fl lc).
Proof.
  split.
  - exact (bool_decide_unpack (NoDup [4; 2; 3]%nat) I).
  - intros t Ht. simpl in Ht.
    apply elem_of_cons in Ht as [->|Ht]; [eexists; split; reflexivity|].
    apply elem_of_cons in Ht as [->|Ht]; [eexists; split; reflexivity|].
    apply elem_of_cons in Ht as [->|Ht]; [eexists; split; reflexivity|].
    apply elem_of_nil in Ht. destruct Ht.
Qed.

Lemma kmutex_unlock_hands_over_witness :
  exists st',
    kmutex_unlock 7%nat (s2_state 1 1) = Some st' /\
    kmutexes st' !! 7%nat =
      Some {| id := 5; flags := 1; lock_count := 1; owner_task := Some 2%nat |} /\
    sleeping_tasks_list st' = [4; 3]%nat.
Proof.
  destruct (kmutex_unlock_hands_over_to_first_waiter (s2_state 1 1) 7%nat
              {| id := 5; flags := 1; lock_count := 1; owner_task := Some 1%nat |})
    as (st' & Hun & _ & _ & Hhit & _).
  - reflexivity.
  - reflexivity.
  - reflexivity.
  - intros _. reflexivity.
  - apply s2_state_wf.
  - exists st'. split; [exact Hun|].
    destruct (Hhit [4%nat] 2%nat [3%nat]) as (Hk & _ & _ & Hs).
    + reflexivity.
    + intros x Hx (ti & Hti & Hp). apply list_elem_of_singleton in Hx. subst x.
      vm_compute in Hti. injection Hti as <-. discriminate.
    + eexists. split; reflexivity.
    + split; [exact Hk|exact Hs].
Defined.

(** ** Recursive locking *)

Lemma same_sched_wf st st' : same_sched st st' -> sleeping_wf st -> sleeping_wf st'.
Proof.
  intros (Ht & Hs & _) [Hnd Hsl]. unfold sleeping_wf.
  rewrite Hs, Ht. split; assumption.
Qed.

Lemma same_sched_no_waiter m st st' :
  same_sched st st' ->
  (forall x, x ∈ sleeping_tasks_list st -> ~ waits_on m st x) ->
  forall x, x ∈ sleeping_tasks_list st' -> ~ waits_on m st' x.
Proof.
  intros (Ht & Hs & _) Hno x Hx. unfold waits_on. rewrite Ht.
  rewrite Hs in Hx. exact (Hno x Hx).
Qed.

Lemma with_lock_count_twice a b mu :
  with_lock_count a (with_lock_count b mu) = with_lock_count a mu.
Proof. reflexivity. Qed.

Lemma lock_times_owned m (n : nat) : forall st mu,
  in_irq_handler st = false ->
  kmutexes st !! m = Some mu ->
  is_recursive mu = true ->
  owner_task mu = Some (curr_task st) ->
  0 < lock_count mu ->
  lock_count mu + Z.of_nat n < 2 ^ 32 ->
  exists st',
    lock_times n m st = Some st' /\ same_sched st st' /\
    kmutexes st' !! m = Some (with_lock_count (lock_count mu + Z.of_nat n) mu).
Proof.
  induction n as [|n IH]; intros st mu Hirq Hm Hr Ho Hlc Hb.
  - exists st. split; [reflexivity|]. split; [apply same_sched_refl|].
    rewrite Hm. f_equal. destruct mu. unfold with_lock_count. simpl.
    f_equal. lia.
  - simpl. rewrite (kmutex_lock_again st m mu Hirq Hm Hr Ho Hlc). simpl.
    rewrite wrap32_small by lia.
    set (mu1 := with_lock_count (lock_count mu + 1) mu).
    destruct (IH (store_mutex m mu1 st) mu1) as (st' & Hl & Hss & Hk).
    + exact Hirq.
    + simpl. apply lookup_insert_eq.
    + exact Hr.
    + exact Ho.
    + simpl. lia.
    + simpl. lia.
    + exists st'. split; [exact Hl|].
      split; [eapply same_sched_trans; [apply same_sched_store|exact Hss]|].
      rewrite Hk. subst mu1. rewrite with_lock_count_twice. simpl.
      do 2 f_equal. lia.
Qed.

Lemma unlock_times_nested m (k : nat) : forall st mu,
  in_irq_handler st = false ->
  kmutexes st !! m = Some mu ->
  is_recursive mu = true ->
  owner_task mu = Some (curr_task st) ->
  Z.of_nat k < lock_count mu < 2 ^ 32 ->
  exists st',
    unlock_times k m st = Some st' /\ same_sched st st' /\
    kmutexes st' !! m = Some (with_lock_count (lock_count mu - Z.of_nat k) mu).
Proof.
  induction k as [|k IH]; intros st mu Hirq Hm Hr Ho Hb.
  - exists st. split; [reflexivity|]. split; [apply same_sched_refl|].
    rewrite Hm. f_equal. destruct mu. unfold with_lock_count. simpl.
    f_equal. lia.
  - simpl. rewrite (kmutex_unlock_nested st m mu Hirq Hm Hr Ho) by lia. simpl.
    set (mu1 := with_lock_count (lock_count mu - 1) mu).
    destruct (IH (store_mutex m mu1 st) mu1) as (st' & Hl & Hss & Hk).
    + exact Hirq.
    + simpl. apply lookup_insert_eq.
    + exact Hr.
    + exact Ho.
    + simpl. lia.
    + exists st'. split; [exact Hl|].
      split; [eapply same_sched_trans; [apply same_sched_store|exact Hss]|].
      rewrite Hk. subst mu1. rewrite with_lock_count_twice. simpl.
      do 2 f_equal. lia.
Qed.

Lemma unlock_times_snoc m (k : nat) : forall st,
  unlock_times (S k) m st = st' ← unlock_times k m st; kmutex_unlock m st'.
Proof.
  induction k as [|k IH]; intros st.
  - cbn [unlock_times mbind option_bind].
    destruct (kmutex_unlock m st); reflexivity.
  - change (unlock_times (S (S k)) m st)
      with (st' ← kmutex_unlock m st; unlock_times (S k) m st').
    change (unlock_times (S k) m st)
      with (st' ← kmutex_unlock m st; unlock_times k m st').
    destruct (kmutex_unlock m st) as [st1|]; [|reflexivity].
    cbn [mbind option_bind]. apply IH.
Qed.

(** C8.  On a mutex initialised with the RECURSIVE flag, with no task
    sleeping on it, [N] calls of [kmutex_lock] by the current task
    (1 <= N < 2^32, the counter being 32 bits wide) all return and leave
    it owner with [lock_count = N]; [k <= N] calls of [kmutex_unlock]
    then all return and leave [lock_count = N - k], the task still owner
    when [k < N] and the mutex free when [k = N]; the mutex is free
    exactly when the counter is back to zero. *)
Theorem recursive_lock_unlock_count (st : kstate) (m : maddr) (fl : Z)
    (N k : nat) :
  in_irq_handler st = false ->
  c_true (Z.land fl KMUTEX_FL_RECURSIVE) = true ->
  sleeping_wf st ->
  (forall x, x ∈ sleeping_tasks_list st -> ~ waits_on m st x) ->
  (1 <= N)%nat ->
  Z.of_nat N < 2 ^ 32 ->
  (k <= N)%nat ->
  exists st1 st2 mu1 mu2,
    lock_times N m (kmutex_init m fl st) = Some st1 /\
    kmutexes st1 !! m = Some mu1 /\
    owner_task mu1 = Some (curr_task st) /\
    lock_count mu1 = Z.of_nat N /\
    unlock_times k m st1 = Some st2 /\
    kmutexes st2 !! m = Some mu2 /\
    lock_count mu2 = Z.of_nat N - Z.of_nat k /\
    ((k < N)%nat -> owner_task mu2 = Some (curr_task st)) /\
    (k = N -> owner_task mu2 = None) /\
    (owner_task mu2 = None <-> lock_count mu2 = 0).
Proof.
  intros Hirq Hfl Hwf Hno HN HN32 Hk.
  set (st0 := kmutex_init m fl st).
  set (mu0 := {| id := new_mutex_id st; flags := fl; lock_count := 0;
                 owner_task := None |}).
  assert (Hm0 : kmutexes st0 !! m = Some mu0) by apply lookup_insert_eq.
  assert (Hr0 : is_recursive mu0 = true) by exact Hfl.
  assert (Hss0 : same_sched st st0) by (repeat split).
  destruct N as [|n]; [lia|].
  (* the first lock takes the free mutex, the others nest *)
  set (mu1 := with_lock_count 1 (with_owner (Some (curr_task st)) mu0)).
  set (sta := store_mutex m mu1 st0).
  assert (Hfirst : kmutex_lock m st0 = Some (Acquired, sta)).
  { rewrite (kmutex_lock_free st0 m mu0 Hirq Hm0 eq_refl). rewrite Hr0.
    reflexivity. }
  destruct (lock_times_owned m n sta mu1) as (st1 & Hl & Hss1 & Hk1);
    [exact Hirq|apply lookup_insert_eq|exact Hfl|reflexivity|simpl; lia
    |simpl; lia|].
  simpl in Hk1.
  set (muN := with_lock_count (1 + Z.of_nat n) mu1) in Hk1.
  assert (Hsst : same_sched st st1).
  { eapply same_sched_trans; [exact Hss0|].
    eapply same_sched_trans; [apply (same_sched_store m mu1)|exact Hss1]. }
  assert (Hcur1 : curr_task st1 = curr_task st) by apply Hsst.
  assert (Hirq1 : in_irq_handler st1 = false).
  { destruct Hsst as (_ & _ & _ & -> & _). exact Hirq. }
  assert (HoN : owner_task muN = Some (curr_task st1)).
  { rewrite Hcur1. reflexivity. }
  assert (Hlocks : lock_times (S n) m st0 = Some st1).
  { simpl. rewrite Hfirst. exact Hl. }
  destruct (decide (k < S n)%nat) as [Hlt|Hge].
  - destruct (unlock_times_nested m k st1 muN Hirq1 Hk1 Hfl HoN)
      as (st2 & Hu & _ & Hk2); [simpl; lia|].
    exists st1, st2, muN, (with_lock_count (lock_count muN - Z.of_nat k) muN).
    split; [exact Hlocks|]. split; [exact Hk1|]. split; [reflexivity|].
    split; [simpl; lia|]. split; [exact Hu|]. split; [exact Hk2|].
    split; [simpl; lia|]. split; [reflexivity|]. split; [lia|].
    simpl. split; [discriminate|lia].
  - assert (k = S n) by lia. subst k.
    destruct (unlock_times_nested m n st1 muN Hirq1 Hk1 Hfl HoN)
      as (st2 & Hu & Hss2 & Hk2); [simpl; lia|].
    set (mu2 := with_lock_count (lock_count muN - Z.of_nat n) muN) in Hk2.
    assert (Hlast : kmutex_unlock m st2 = Some (store_mutex m (released mu2) st2)).
    { apply kmutex_unlock_release.
      - destruct Hss2 as (_ & _ & _ & -> & _). exact Hirq1.
      - exact Hk2.
      - destruct Hss2 as (_ & _ & -> & _). exact HoN.
      - intros _. simpl. lia.
      - eapply same_sched_wf; [|exact Hwf].
        eapply same_sched_trans; [exact Hsst|exact Hss2].
      - eapply same_sched_no_waiter; [|exact Hno].
        eapply same_sched_trans; [exact Hsst|exact Hss2]. }
    exists st1, (store_mutex m (released mu2) st2), muN, (released mu2).
    split; [exact Hlocks|]. split; [exact Hk1|]. split; [reflexivity|].
    split; [simpl; lia|].
    split; [rewrite unlock_times_snoc, Hu; exact Hlast|].
    split; [apply lookup_insert_eq|].
    assert (Hrel : lock_count (released mu2) = 0).
    { unfold released.
      change (is_recursive mu2) with (c_true (Z.land fl KMUTEX_FL_RECURSIVE)).
      rewrite Hfl. reflexivity. }
    split; [rewrite Hrel; lia|]. split; [lia|]. split; [reflexivity|].
    split; [intros _; exact Hrel|reflexivity].
Qed.

Lemma recursive_lock_unlock_count_witness :
  exists st1 st2 mu1 mu2,
    lock_times 3 8%nat (kmutex_init 8%nat 1 (s2_state 0 0)) = Some st1 /\
    kmutexes st1 !! 8%nat = Some mu1 /\
    owner_task mu1 = Some 1%nat /\
    lock_count mu1 = 3 /\
    unlock_times 2 8%nat st1 = Some st2 /\
    kmutexes st2 !! 8%nat = Some mu2 /\
    lock_count mu2 = 3 - 2 /\
    ((2 < 3)%nat -> owner_task mu2 = Some 1%nat) /\
    (2%nat = 3%nat -> owner_task mu2 = None) /\
    (owner_task mu2 = None <-> lock_count mu2 = 0).
Proof.
  apply (recursive_lock_unlock_count (s2_state 0 0) 8%nat 1 3 2).
  - reflexivity.
  - reflexivity.
  - apply s2_state_wf.
  - intros x Hx (ti & Hti & Hp). simpl in Hx.
    repeat (apply elem_of_cons in Hx as [->|Hx];
            [vm_compute in Hti; injection Hti as <-; discriminate|]).
    apply elem_of_nil in Hx. destruct Hx.
  - lia.
  - reflexivity.
  - lia.
Defined.

(** ** [kmutex_trylock] *)

(** What a call of [kmutex_trylock] computes, case by case. *)
Lemma kmutex_trylock_run (st : kstate) (m : maddr) (mu : kmutex) :
  in_irq_handler st = false ->
  kmutexes st !! m = Some mu ->
  (owner_task mu = None -> lock_count mu = 0) ->
  0 <= lock_count mu < 2 ^ 32 - 1 ->
  exists b st',
    kmutex_trylock m st = Some (b, st') /\
    same_sched st st' /\
    (b = true <->
       owner_task mu = None \/
       (is_recursive mu = true /\ owner_task mu = Some (curr_task st))) /\
    (owner_task mu = None ->
       st' = store_mutex m
               {| id := id mu; flags := flags mu;
                  lock_count := if is_recursive mu then 1 else lock_count mu;
                  owner_task := Some (curr_task st) |} st) /\
    (is_recursive mu = true -> owner_task mu = Some (curr_task st) ->
       st' = store_mutex m
               {| id := id mu; flags := flags mu;
                  lock_count := lock_count mu + 1;
                  owner_task := Some (curr_task st) |} st) /\
    (b = false -> st' = st).
Proof.
  intros Hirq Hm Hinv Hb.
  unfold kmutex_trylock, check_not_in_irq_handler. rewrite Hirq. simpl.
  rewrite Hm. simpl.
  destruct (owner_task mu) as [o|] eqn:Ho.
  - unfold kmutex_is_curr_task_holding_lock. simpl. rewrite Ho.
    destruct (is_recursive mu) eqn:Hr; simpl.
    + destruct (decide (Some o = Some (curr_task st))) as [He|Hne].
      * rewrite bool_decide_eq_true_2 by exact He.
        rewrite preempt_store, wrap32_small by lia.
        eexists _, _. split; [reflexivity|].
        split; [apply same_sched_store|].
        split; [split; [intros _; right; split; [reflexivity|exact He]|reflexivity]|].
        split; [discriminate|].
        split; [|discriminate].
        intros _ _. unfold with_lock_count. rewrite Ho, He. reflexivity.
      * rewrite bool_decide_eq_false_2 by exact Hne.
        rewrite preempt_roundtrip.
        eexists _, _. split; [reflexivity|].
        split; [apply same_sched_refl|].
        split; [split; [discriminate|intros [H|[_ H]]; congruence]|].
        split; [discriminate|]. split; [|reflexivity].
        intros _ H. congruence.
    + rewrite preempt_roundtrip.
      eexists _, _. split; [reflexivity|].
      split; [apply same_sched_refl|].
      split; [split; [discriminate|intros [H|[H _]]; congruence]|].
      split; [discriminate|]. split; [|reflexivity].
      intros H. discriminate.
  - rewrite is_recursive_with_owner, preempt_store.
    eexists _, _. split; [reflexivity|].
    split; [apply same_sched_store|].
    split; [split; [intros _; left; reflexivity|reflexivity]|].
    split; [|split; [intros _ H; discriminate|discriminate]].
    intros _. destruct (is_recursive mu); [|reflexivity].
    unfold with_lock_count, with_owner. simpl.
    rewrite (Hinv eq_refl). reflexivity.
Qed.

(** C9.  [kmutex_trylock] always returns, with the tasks, the sleeping
    list, the current task and the preemption counter as they were (it
    never sleeps).  It returns true iff the mutex was free or it is
    recursive and already held by the caller.  A free mutex gets the
    caller as owner, with [lock_count] 1 when recursive; a recursive
    mutex held by the caller gets [lock_count + 1]; in every other case
    the result is false and the state is unchanged.  In each case the
    mutex found at [m] afterwards is the one just described, and the
    mutexes at other addresses are as they were.  The mutex obeys the
    data-model invariant "no owner implies [lock_count = 0]" and its
    32-bit counter is not at its maximum. *)
Theorem kmutex_trylock_spec (st : kstate) (m : maddr) (mu : kmutex) :
  in_irq_handler st = false ->
  kmutexes st !! m = Some mu ->
  (owner_task mu = None -> lock_count mu = 0) ->
  0 <= lock_count mu < 2 ^ 32 - 1 ->
  exists b st',
    kmutex_trylock m st = Some (b, st') /\
    same_sched st st' /\
    (b = true <->
       owner_task mu = None \/
       (is_recursive mu = true /\ owner_task mu = Some (curr_task st))) /\
    (owner_task mu = None ->
       st' = store_mutex m
               {| id := id mu; flags := flags mu;
                  lock_count := if is_recursive mu then 1 else lock_count mu;
                  owner_task := Some (curr_task st) |} st) /\
    (is_recursive mu = true -> owner_task mu = Some (curr_task st) ->
       st' = store_mutex m
               {| id := id mu; flags := flags mu;
                  lock_count := lock_count mu + 1;
                  owner_task := Some (curr_task st) |} st) /\
    (b = false -> st' = st) /\
    (owner_task mu = None ->
       kmutexes st' !! m =
         Some {| id := id mu; flags := flags mu;
                 lock_count := if is_recursive mu then 1 else lock_count mu;
                 owner_task := Some (curr_task st) |}) /\
    (is_recursive mu = true -> owner_task mu = Some (curr_task st) ->
       kmutexes st' !! m =
         Some {| id := id mu; flags := flags mu;
                 lock_count := lock_count mu + 1;
                 owner_task := Some (curr_task st) |}) /\
    (b = false -> kmutexes st' !! m = Some mu) /\
    (forall m', m' ≠ m -> kmutexes st' !! m' = kmutexes st !! m') /\
    new_mutex_id st' = new_mutex_id st.
Proof.
  intros Hirq Hm Hinv Hb.
  destruct (kmutex_trylock_run st m mu Hirq Hm Hinv Hb)
    as (b & st' & Hrun & Hsched & Hiff & Hfree & Hrec & Hfalse).
  exists b, st'.
  split; [exact Hrun|]. split; [exact Hsched|]. split; [exact Hiff|].
  split; [exact Hfree|]. split; [exact Hrec|]. split; [exact Hfalse|].
  split.
  { intros Ho. rewrite (Hfree Ho). apply lookup_insert_eq. }
  split.
  { intros Hr Ho. rewrite (Hrec Hr Ho). apply lookup_insert_eq. }
  split.
  { intros Hbf. rewrite (Hfalse Hbf). exact Hm. }
  assert (Hcases : st' = st \/ exists mu', st' = store_mutex m mu' st).
  { destruct b.
    - right. destruct (proj1 Hiff eq_refl) as [Ho|[Hr Ho]].
      + eexists. exact (Hfree Ho).
      + eexists. exact (Hrec Hr Ho).
    - left. apply Hfalse. reflexivity. }
  destruct Hcases as [->|[mu' ->]].
  - split; reflexivity.
  - split; [|reflexivity].
    intros m' Hne. apply lookup_insert_ne. congruence.
Qed.

(** Task 1 holds the recursive mutex with count 3 and calls [try_lock]. *)
Lemma kmutex_trylock_spec_witness :
  exists b st',
    kmutex_trylock 7%nat (s2_state 1 3) = Some (b, st') /\
    same_sched (s2_state 1 3) st' /\
    (b = true <->
       Some 1%nat = None \/ (true = true /\ Some 1%nat = Some 1%nat)) /\
    (Some 1%nat = None ->
       st' = store_mutex 7%nat
               {| id := 5; flags := 1; lock_count := 1;
                  owner_task := Some 1%nat |} (s2_state 1 3)) /\
    (true = true -> Some 1%nat = Some 1%nat ->
       st' = store_mutex 7%nat
               {| id := 5; flags := 1; lock_count := 3 + 1;
                  owner_task := Some 1%nat |} (s2_state 1 3)) /\
    (b = false -> st' = s2_state 1 3) /\
    (Some 1%nat = None ->
       kmutexes st' !! 7%nat =
         Some {| id := 5; flags := 1; lock_count := 1;
                 owner_task := Some 1%nat |}) /\
    (true = true -> Some 1%nat = Some 1%nat ->
       kmutexes st' !! 7%nat =
         Some {| id := 5; flags := 1; lock_count := 3 + 1;
                 owner_task := Some 1%nat |}) /\
    (b = false ->
       kmutexes st' !! 7%nat =
         Some {| id := 5; flags := 1; lock_count := 3;
                 owner_task := Some 1%nat |}) /\
    (forall m', m' ≠ 7%nat ->
       kmutexes st' !! m' = kmutexes (s2_state 1 3) !! m') /\
    new_mutex_id st' = new_mutex_id (s2_state 1 3).
Proof.
  apply (kmutex_trylock_spec (s2_state 1 3) 7%nat
           {| id := 5; flags := 1; lock_count := 3; owner_task := Some 1%nat |}).
  - reflexivity.
  - reflexivity.
  - discriminate.
  - simpl. lia.
Defined.

(** ** Linking a task into the sleeping list *)

Lemma insert_at_perm n t (l : list tid) : insert_at n t l ≡ₚ t :: l.
Proof.
  unfold insert_at. rewrite <- Permutation_middle, take_drop. reflexivity.
Qed.

Lemma elem_of_insert_at n t (l : list tid) x :
  x ∈ insert_at n t l <-> x = t \/ x ∈ l.
Proof. rewrite insert_at_perm. apply elem_of_cons. Qed.

Lemma NoDup_insert_at n t (l : list tid) :
  NoDup (insert_at n t l) <-> (t ∉ l) /\ NoDup l.
Proof. rewrite insert_at_perm. apply NoDup_cons. Qed.

(** ** Contention *)

(** [kmutex_lock] on a mutex another task holds parks the caller. *)
Lemma kmutex_lock_parks st m mu o ti :
  in_irq_handler st = false ->
  kmutexes st !! m = Some mu ->
  owner_task mu = Some o ->
  o ≠ curr_task st ->
  (is_recursive mu = true -> 0 < lock_count mu) ->
  tasks st !! curr_task st = Some ti ->
  state ti ≠ TASK_STATE_SLEEPING ->
  kmutex_lock m st =
    Some (Blocked,
          set_sleeping (fun l => insert_at (sleep_slot st (curr_task st) l)
                                    (curr_task st) l)
            (set_tasks (fun ts => <[curr_task st := parked_on m]> ts) st)).
Proof.
  intros Hirq Hm Ho Hne Hlc Hti Hst.
  unfold kmutex_lock, check_not_in_irq_handler. rewrite Hirq. simpl.
  rewrite Hm. simpl. rewrite Ho.
  unfold kmutex_is_curr_task_holding_lock. simpl. rewrite Ho.
  rewrite bool_decide_eq_false_2 by congruence.
  assert (Hfin : forall st1 : kstate,
            st1 = set_sleeping (fun l => insert_at (sleep_slot st (curr_task st) l)
                                    (curr_task st) l)
                    (set_tasks (fun ts => <[curr_task st := parked_on m]> ts) st) ->
            Some (Blocked, st1) =
            Some (Blocked,
                  set_sleeping (fun l => insert_at (sleep_slot st (curr_task st) l)
                                    (curr_task st) l)
                    (set_tasks (fun ts => <[curr_task st := parked_on m]> ts) st)))
    by (intros st1 ->; reflexivity).
  destruct (is_recursive mu) eqn:Hr.
  - replace (0 <? lock_count mu) with true
      by (symmetry; apply Z.ltb_lt, Hlc; reflexivity).
    simpl. unfold wait_obj_set. simpl. rewrite Hti. simpl.
    unfold task_change_state. simpl. rewrite lookup_insert_eq. simpl.
    rewrite decide_False by exact Hst. simpl. apply Hfin.
    destruct st.
    unfold enable_preemption, disable_preemption, set_sleeping, set_tasks,
      set_preempt, parked_on.
    simpl. rewrite insert_insert_eq. f_equal. lia.
  - simpl. unfold wait_obj_set. simpl. rewrite Hti. simpl.
    unfold task_change_state. simpl. rewrite lookup_insert_eq. simpl.
    rewrite decide_False by exact Hst. simpl. apply Hfin.
    destruct st.
    unfold enable_preemption, disable_preemption, set_sleeping, set_tasks,
      set_preempt, parked_on.
    simpl. rewrite insert_insert_eq. f_equal. lia.
Qed.

(** X1.  A task that calls [kmutex_lock] on a mutex held by another
    task does not get it: the call ends in the yield, with the caller in
    state SLEEPING, its wait object set to (KMUTEX, m), the caller on
    the sleeping list (wherever the scheduler links it) together with
    exactly the tasks that were on it, the list still well formed, and
    the mutex, the other tasks and the preemption counter as they
    were. *)
Theorem kmutex_lock_contended_sleeps (st : kstate) (m : maddr) (mu : kmutex)
    (o : tid) (ti : task_info) :
  in_irq_handler st = false ->
  kmutexes st !! m = Some mu ->
  owner_task mu = Some o ->
  o ≠ curr_task st ->
  (is_recursive mu = true -> 0 < lock_count mu) ->
  tasks st !! curr_task st = Some ti ->
  state ti ≠ TASK_STATE_SLEEPING ->
  exists st',
    kmutex_lock m st = Some (Blocked, st') /\
    tasks st' !! curr_task st = Some (parked_on m) /\
    (forall t, t ≠ curr_task st -> tasks st' !! t = tasks st !! t) /\
    curr_task st ∈ sleeping_tasks_list st' /\
    (forall t, t ≠ curr_task st ->
       t ∈ sleeping_tasks_list st' <-> t ∈ sleeping_tasks_list st) /\
    (sleeping_wf st -> sleeping_wf st') /\
    kmutexes st' = kmutexes st /\
    disable_preemption_count st' = disable_preemption_count st.
Proof.
  intros Hirq Hm Ho Hne Hlc Hti Hst. eexists. split.
  - apply (kmutex_lock_parks st m mu o ti); assumption.
  - cbn [tasks sleeping_tasks_list kmutexes disable_preemption_count
         set_sleeping set_tasks].
    split; [apply lookup_insert_eq|].
    split; [intros t Ht; apply lookup_insert_ne; congruence|].
    split; [apply elem_of_insert_at; left; reflexivity|].
    split.
    { intros t Ht. rewrite elem_of_insert_at. split; [|tauto].
      intros [H|H]; [contradiction|exact H]. }
    split; [|split; reflexivity].
    intros [Hnd Hsl].
    assert (Hc : curr_task st ∉ sleeping_tasks_list st).
    { intros Hin. destruct (Hsl _ Hin) as (ti' & Hti' & Hs). congruence. }
    split.
    + cbn [sleeping_tasks_list set_sleeping set_tasks].
      apply NoDup_insert_at. split; assumption.
    + cbn [tasks sleeping_tasks_list set_sleeping set_tasks].
      intros t Ht. apply elem_of_insert_at in Ht as [->|Ht].
      * rewrite lookup_insert_eq. eexists. split; reflexivity.
      * rewrite lookup_insert_ne by (intros E; apply Hc; rewrite E; exact Ht).
        apply Hsl, Ht.
Qed.

Lemma kmutex_lock_contended_sleeps_witness :
  exists st',
    kmutex_lock 7%nat (s2_start 0 0) = Some (Blocked, st') /\
    tasks st' !! 2%nat = Some (parked_on 7%nat) /\
    2%nat ∈ sleeping_tasks_list st' /\
    (4%nat ∈ sleeping_tasks_list st' <-> 4%nat ∈ [4%nat]).
Proof.
  destruct (kmutex_lock_contended_sleeps (s2_start 0 0) 7%nat
              {| id := 5; flags := 0; lock_count := 0; owner_task := Some 1%nat |}
              1%nat runner)
    as (st' & Hl & Ht & _ & Hin & Hs & _).
  - reflexivity.
  - reflexivity.
  - reflexivity.
  - discriminate.
  - discriminate.
  - reflexivity.
  - discriminate.
  - exists st'. split; [exact Hl|]. split; [exact Ht|]. split; [exact Hin|].
    apply (Hs 4%nat). discriminate.
Defined.

Lemma not_waits_on m st x ti :
  tasks st !! x = Some ti -> ptr (wobj ti) ≠ Some m -> ~ waits_on m st x.
Proof. intros Hti Hp (ti' & Hti' & Hp'). congruence. Qed.

(** The scan either finds nobody and changes nothing, or picks the
    first task of the list that waits on [m]. *)
Lemma unlock_scan_first m l : forall st st1 mu,
  unlock_scan m l st = Some st1 ->
  kmutexes st !! m = Some mu ->
  (st1 = st /\ forall x, x ∈ l -> ~ waits_on m st x) \/
  (exists pre t post,
      l = pre ++ t :: post /\
      (forall x, x ∈ pre -> ~ waits_on m st x) /\
      waits_on m st t /\
      tasks st1 = <[t := woken]> (tasks st) /\
      sleeping_tasks_list st1 =
        filter (fun x => x ≠ t) (sleeping_tasks_list st) /\
      kmutexes st1 =
        <[m := if is_recursive mu
               then with_lock_count (wrap32 (lock_count mu + 1))
                      (with_owner (Some t) mu)
               else with_owner (Some t) mu]> (kmutexes st)).
Proof.
  induction l as [|a l IH]; intros st st1 mu H Hm.
  - injection H as <-. left. split; [reflexivity|].
    intros x Hx. apply elem_of_nil in Hx. destruct Hx.
  - destruct (tasks st !! a) as [ti|] eqn:Hti;
      [|simpl in H; rewrite Hti in H; discriminate].
    destruct (decide (state ti = TASK_STATE_SLEEPING)) as [Hs|Hs].
    2:{ simpl in H. rewrite Hti in H. simpl in H.
        rewrite bool_decide_eq_false_2 in H by exact Hs. discriminate. }
    destruct (decide (ptr (wobj ti) = Some m)) as [Hp|Hp].
    + destruct (unlock_scan_hit m a l st ti mu Hti Hs Hp Hm)
        as (st2 & H2 & Ht2 & Hl2 & Hk & _).
      rewrite H2 in H. injection H as <-. right.
      exists [], a, l. split; [reflexivity|].
      split; [intros x Hx; apply elem_of_nil in Hx; destruct Hx|].
      split; [exists ti; split; assumption|].
      split; [exact Ht2|]. split; [exact Hl2|exact Hk].
    + simpl in H. rewrite Hti in H. simpl in H.
      rewrite bool_decide_eq_true_2 in H by exact Hs. simpl in H.
      rewrite bool_decide_eq_false_2 in H by exact Hp.
      destruct (IH st st1 mu H Hm)
        as [[-> Hno] | (pre & t & post & Hl & Hpre & Hrest)].
      * left. split; [reflexivity|]. intros x Hx.
        apply elem_of_cons in Hx as [->|Hx]; [|apply Hno, Hx].
        apply (not_waits_on m st a ti Hti Hp).
      * right. exists (a :: pre), t, post.
        split; [rewrite Hl; reflexivity|]. split; [|exact Hrest].
        intros x Hx. apply elem_of_cons in Hx as [->|Hx]; [|apply Hpre, Hx].
        apply (not_waits_on m st a ti Hti Hp).
Qed.

(** X2.  Of two tasks that block on a mutex, one gets it.  Task [a]
    holds [m] (a recursive mutex: once) and no sleeping task waits on
    it; task [b] calls [kmutex_lock] and blocks, then task [c] does;
    when [a] calls [kmutex_unlock], the mutex goes to the one of [b]
    and [c] that comes first in the sleeping list (the order in which
    the scheduler keeps them; it need not be [b]): this task [w] is the
    new owner, runnable, with a cleared wait object and off the list,
    and the assertions it makes after its yield hold; the other one,
    [l], still sleeps on [m] and is still on the list, as are the tasks
    that were on it before. *)
Theorem kmutex_handoff_to_one_blocker (st : kstate) (m : maddr)
    (mu : kmutex) (a b c : tid) (tb tc : task_info) :
  in_irq_handler st = false ->
  kmutexes st !! m = Some mu ->
  owner_task mu = Some a ->
  (is_recursive mu = true -> lock_count mu = 1) ->
  sleeping_wf st ->
  (forall x, x ∈ sleeping_tasks_list st -> ~ waits_on m st x) ->
  a ≠ b -> a ≠ c -> b ≠ c ->
  tasks st !! b = Some tb -> state tb ≠ TASK_STATE_SLEEPING ->
  tasks st !! c = Some tc -> state tc ≠ TASK_STATE_SLEEPING ->
  exists st1 st2 st3 w l,
    kmutex_lock m (switch_to b st) = Some (Blocked, st1) /\
    kmutex_lock m (switch_to c st1) = Some (Blocked, st2) /\
    kmutex_unlock m (switch_to a st2) = Some st3 /\
    ((w = b /\ l = c) \/ (w = c /\ l = b)) /\
    (exists pre post,
        sleeping_tasks_list st2 = pre ++ w :: post /\ l ∉ pre) /\
    kmutexes st3 !! m = Some (handed_to w mu) /\
    tasks st3 !! w = Some woken /\
    tasks st3 !! l = Some (parked_on m) /\
    (w ∉ sleeping_tasks_list st3) /\
    l ∈ sleeping_tasks_list st3 /\
    (forall x, x ∈ sleeping_tasks_list st -> x ∈ sleeping_tasks_list st3) /\
    kmutex_lock_wakeup m (switch_to w st3) = Some (switch_to w st3).
Proof.
  intros Hirq Hm Ho Hrec [Hnd Hsl] Hno Hab Hac Hbc Htb Hsb Htc Hsc.
  assert (Hlc : is_recursive mu = true -> 0 < lock_count mu).
  { intros Hr. rewrite (Hrec Hr). lia. }
  assert (Hbl : b ∉ sleeping_tasks_list st).
  { intros Hin. destruct (Hsl b Hin) as (ti & Hti & Hs). congruence. }
  assert (Hcl : c ∉ sleeping_tasks_list st).
  { intros Hin. destruct (Hsl c Hin) as (ti & Hti & Hs). congruence. }
  set (l0 := sleeping_tasks_list st) in *.
  (* b blocks *)
  pose proof (kmutex_lock_parks (switch_to b st) m mu a tb Hirq Hm Ho Hab Hlc Htb Hsb)
    as H1.
  cbn [curr_task switch_to sleep_slot] in H1.
  set (st1 := set_sleeping (fun l => insert_at (sleep_slot st b l) b l)
                (set_tasks (fun ts => <[b := parked_on m]> ts) (switch_to b st)))
    in H1.
  (* c blocks *)
  assert (Htc1 : tasks (switch_to c st1) !! c = Some tc).
  { simpl. rewrite lookup_insert_ne by congruence. exact Htc. }
  pose proof (kmutex_lock_parks (switch_to c st1) m mu a tc Hirq Hm Ho Hac Hlc
                Htc1 Hsc) as H2.
  cbn [curr_task switch_to] in H2.
  set (st2 := set_sleeping
                (fun l => insert_at (sleep_slot (switch_to c st1) c l) c l)
                (set_tasks (fun ts => <[c := parked_on m]> ts) (switch_to c st1)))
    in H2.
  assert (Hin2 : forall x, x ∈ sleeping_tasks_list st2 <->
                           x = c \/ x = b \/ x ∈ l0).
  { intros x. subst st2 st1. cbn [sleeping_tasks_list set_sleeping set_tasks
                                   switch_to].
    rewrite !elem_of_insert_at. reflexivity. }
  assert (Hnd2 : NoDup (sleeping_tasks_list st2)).
  { subst st2 st1. cbn [sleeping_tasks_list set_sleeping set_tasks switch_to].
    apply NoDup_insert_at. split.
    - rewrite elem_of_insert_at. intros [H|H]; [congruence|contradiction].
    - apply NoDup_insert_at. split; assumption. }
  assert (Ht2b : tasks st2 !! b = Some (parked_on m)).
  { subst st2 st1. cbn [tasks set_sleeping set_tasks switch_to].
    rewrite lookup_insert_ne by congruence. apply lookup_insert_eq. }
  assert (Ht2c : tasks st2 !! c = Some (parked_on m)).
  { subst st2 st1. cbn [tasks set_sleeping set_tasks switch_to].
    apply lookup_insert_eq. }
  assert (Ht2o : forall x, x ≠ b -> x ≠ c -> tasks st2 !! x = tasks st !! x).
  { intros x Hxb Hxc. subst st2 st1.
    cbn [tasks set_sleeping set_tasks switch_to].
    rewrite !lookup_insert_ne by congruence. reflexivity. }
  (* a unlocks *)
  pose proof (kmutex_unlock_last (switch_to a st2) m mu Hirq Hm Ho Hrec) as H3.
  set (st0 := store_mutex m (released mu) (disable_preemption (switch_to a st2)))
    in H3.
  change (sleeping_tasks_list (switch_to a st2)) with (sleeping_tasks_list st2)
    in H3.
  assert (Hm0 : kmutexes st0 !! m = Some (released mu))
    by apply lookup_insert_eq.
  assert (Hsl2 : forall x, x ∈ sleeping_tasks_list st2 ->
            exists ti, tasks st0 !! x = Some ti /\
                       state ti = TASK_STATE_SLEEPING).
  { intros x Hx. change (tasks st0) with (tasks st2).
    apply Hin2 in Hx as [->|[->|Hx]].
    - exists (parked_on m). split; [exact Ht2c|reflexivity].
    - exists (parked_on m). split; [exact Ht2b|reflexivity].
    - rewrite Ht2o by (intros ->; contradiction). apply Hsl, Hx. }
  destruct (unlock_scan_total m (sleeping_tasks_list st2) st0 (released mu)
              Hm0 Hsl2) as [st3 Hscan].
  rewrite Hscan in H3. cbn [mbind option_bind] in H3.
  assert (Hwb : waits_on m st0 b)
    by (exists (parked_on m); split; [exact Ht2b|reflexivity]).
  assert (Hwc : waits_on m st0 c)
    by (exists (parked_on m); split; [exact Ht2c|reflexivity]).
  destruct (unlock_scan_first _ _ _ _ _ Hscan Hm0)
    as [[_ Hnone] | (pre & w & post & Hl & Hpre & Hw & Ht3 & Hs3 & Hk3)].
  { exfalso. apply (Hnone b); [apply Hin2; tauto|exact Hwb]. }
  change (sleeping_tasks_list st0) with (sleeping_tasks_list st2) in Hs3.
  change (tasks st0) with (tasks st2) in Ht3.
  assert (Hwin : w ∈ sleeping_tasks_list st2).
  { rewrite Hl. apply elem_of_app. right. apply elem_of_cons. left. reflexivity. }
  assert (Hwbc : w = b \/ w = c).
  { apply Hin2 in Hwin as [->|[->|Hx]]; [tauto|tauto|].
    exfalso. apply (Hno w Hx).
    destruct Hw as (ti & Hti & Hp). exists ti. split; [|exact Hp].
    change (tasks st0) with (tasks st2) in Hti.
    rewrite Ht2o in Hti by (intros ->; contradiction). exact Hti. }
  assert (Hk : kmutexes (enable_preemption st3) !! m = Some (handed_to w mu)).
  { simpl. rewrite Hk3, lookup_insert_eq. f_equal.
    change (is_recursive (released mu)) with (is_recursive mu).
    unfold handed_to, released, with_lock_count, with_owner. simpl.
    destruct (is_recursive mu); reflexivity. }
  assert (Hwake : kmutex_lock_wakeup m (switch_to w (enable_preemption st3))
                  = Some (switch_to w (enable_preemption st3))).
  { unfold kmutex_lock_wakeup.
    change (kmutexes (switch_to w (enable_preemption st3)))
      with (kmutexes (enable_preemption st3)).
    rewrite Hk. cbn [mbind option_bind].
    unfold kmutex_is_curr_task_holding_lock.
    cbn [owner_task handed_to curr_task switch_to].
    rewrite bool_decide_eq_true_2 by reflexivity. cbn [negb].
    change (is_recursive (handed_to w mu)) with (is_recursive mu).
    destruct (is_recursive mu) eqn:Hr; [|reflexivity].
    unfold handed_to. rewrite Hr. reflexivity. }
  assert (Hrest : forall l : tid,
            (w = b /\ l = c) \/ (w = c /\ l = b) ->
            l ≠ w /\ waits_on m st0 l /\ tasks st2 !! l = Some (parked_on m)).
  { intros l [[-> ->]|[-> ->]].
    - split; [congruence|]. split; [exact Hwc|exact Ht2c].
    - split; [congruence|]. split; [exact Hwb|exact Ht2b]. }
  assert (Hgoal : forall l : tid,
            (w = b /\ l = c) \/ (w = c /\ l = b) ->
            exists st1 st2 st3 w l,
              kmutex_lock m (switch_to b st) = Some (Blocked, st1) /\
              kmutex_lock m (switch_to c st1) = Some (Blocked, st2) /\
              kmutex_unlock m (switch_to a st2) = Some st3 /\
              ((w = b /\ l = c) \/ (w = c /\ l = b)) /\
              (exists pre post,
                  sleeping_tasks_list st2 = pre ++ w :: post /\ l ∉ pre) /\
              kmutexes st3 !! m = Some (handed_to w mu) /\
              tasks st3 !! w = Some woken /\
              tasks st3 !! l = Some (parked_on m) /\
              (w ∉ sleeping_tasks_list st3) /\
              l ∈ sleeping_tasks_list st3 /\
              (forall x, x ∈ l0 -> x ∈ sleeping_tasks_list st3) /\
              kmutex_lock_wakeup m (switch_to w st3) = Some (switch_to w st3)).
  { intros l Hwl. destruct (Hrest l Hwl) as (Hlw & Hlwait & Hlt).
    exists st1, st2, (enable_preemption st3), w, l.
    split; [exact H1|]. split; [exact H2|]. split; [exact H3|].
    split; [exact Hwl|].
    split.
    { exists pre, post. split; [exact Hl|]. intros Hin. exact (Hpre l Hin Hlwait). }
    split; [exact Hk|].
    split; [simpl; rewrite Ht3; apply lookup_insert_eq|].
    split.
    { simpl. rewrite Ht3, lookup_insert_ne by congruence. exact Hlt. }
    split.
    { simpl. rewrite Hs3. intros Hin. apply list_elem_of_filter in Hin as [Hin _].
      apply Hin. reflexivity. }
    split.
    { simpl. rewrite Hs3. apply list_elem_of_filter. split; [exact Hlw|].
      apply Hin2. destruct Hwl as [[_ ->]|[_ ->]]; tauto. }
    split; [|exact Hwake].
    intros x Hx. simpl. rewrite Hs3. apply list_elem_of_filter. split.
    - intros ->. destruct Hwbc as [->| ->]; contradiction.
    - apply Hin2. tauto. }
  destruct Hwbc as [Hwb'|Hwc'].
  - apply (Hgoal c). left. split; [exact Hwb'|reflexivity].
  - apply (Hgoal b). right. split; [exact Hwc'|reflexivity].
Qed.

(** With the scheduler of [s2_start], which links a new sleeper in front
    of the others, task 2 blocks first, then task 3, and task 3 gets the
    mutex. *)
Lemma kmutex_handoff_to_one_blocker_witness :
  exists st1 st2 st3,
    kmutex_lock 7%nat (switch_to 2%nat (s2_start 1 1)) = Some (Blocked, st1) /\
    kmutex_lock 7%nat (switch_to 3%nat st1) = Some (Blocked, st2) /\
    kmutex_unlock 7%nat (switch_to 1%nat st2) = Some st3 /\
    sleeping_tasks_list st2 = [3; 2; 4]%nat /\
    kmutexes st3 !! 7%nat =
      Some {| id := 5; flags := 1; lock_count := 1; owner_task := Some 3%nat |} /\
    tasks st3 !! 2%nat = Some (parked_on 7%nat).
Proof.
  destruct (kmutex_handoff_to_one_blocker (s2_start 1 1) 7%nat
              {| id := 5; flags := 1; lock_count := 1; owner_task := Some 1%nat |}
              1%nat 2%nat 3%nat runner runner)
    as (st1 & st2 & st3 & w & l & H1 & H2 & H3 & Hwl & (pre & post & Hl & Hpre)
        & Hk & _ & Htl & _).
  - reflexivity.
  - reflexivity.
  - reflexivity.
  - intros _. reflexivity.
  - split; [exact (bool_decide_unpack (NoDup [4]%nat) I)|].
    intros t Ht. apply list_elem_of_singleton in Ht as ->.
    eexists. split; reflexivity.
  - intros x Hx (ti & Hti & Hp). apply list_elem_of_singleton in Hx. subst x.
    vm_compute in Hti. injection Hti as <-. discriminate.
  - discriminate.
  - discriminate.
  - discriminate.
  - reflexivity.
  - discriminate.
  - reflexivity.
  - discriminate.
  - assert (Hl2 : sleeping_tasks_list st2 = [3; 2; 4]%nat).
    { rewrite (kmutex_lock_parks (switch_to 2%nat (s2_start 1 1)) 7%nat
                 {| id := 5; flags := 1; lock_count := 1;
                    owner_task := Some 1%nat |} 1%nat runner) in H1;
        [|reflexivity|reflexivity|reflexivity|discriminate|intros _; reflexivity
         |reflexivity|discriminate].
      injection H1 as <-.
      rewrite (kmutex_lock_parks _ 7%nat
                 {| id := 5; flags := 1; lock_count := 1;
                    owner_task := Some 1%nat |} 1%nat runner) in H2;
        [|reflexivity|reflexivity|reflexivity|discriminate|intros _; reflexivity
         |reflexivity|discriminate].
      injection H2 as <-. reflexivity. }
    exists st1, st2, st3.
    split; [exact H1|]. split; [exact H2|]. split; [exact H3|].
    split; [exact Hl2|].
    destruct Hwl as [[-> ->]|[-> ->]].
    + exfalso. rewrite Hl2 in Hl. destruct pre as [|p pre].
      * discriminate Hl.
      * injection Hl as <- _. apply Hpre. apply elem_of_cons. left. reflexivity.
    + split; [exact Hk|exact Htl].
Defined.

(** ** The invariant of a mutex *)

Lemma wait_obj_set_kmutexes t k p st st' :
  wait_obj_set t k p st = Some st' -> kmutexes st' = kmutexes st.
Proof.
  unfold wait_obj_set. destruct (tasks st !! t); simpl; [|discriminate].
  intros H. injection H as <-. reflexivity.
Qed.

Lemma task_change_state_kmutexes t ns st st' :
  task_change_state t ns st = Some st' -> kmutexes st' = kmutexes st.
Proof.
  unfold task_change_state. destruct (tasks st !! t); simpl; [|discriminate].
  intros H. injection H as <-.
  destruct (decide (ns = TASK_STATE_SLEEPING));
    destruct (decide (state t0 = TASK_STATE_SLEEPING)); reflexivity.
Qed.

(** After the scan the mutex is as it was or belongs to a waiter. *)
Lemma unlock_scan_mutex m l st st1 mu0 :
  unlock_scan m l st = Some st1 ->
  kmutexes st !! m = Some mu0 ->
  kmutexes st1 !! m = Some mu0 \/
  exists t,
    kmutexes st1 !! m =
      Some (if is_recursive mu0
            then with_lock_count (wrap32 (lock_count mu0 + 1))
                   (with_owner (Some t) mu0)
            else with_owner (Some t) mu0).
Proof.
  intros H Hm. induction l as [|a l IH].
  - injection H as <-. left. exact Hm.
  - destruct (tasks st !! a) as [ti|] eqn:Hti;
      [|simpl in H; rewrite Hti in H; discriminate].
    destruct (decide (state ti = TASK_STATE_SLEEPING)) as [Hs|Hs].
    2:{ simpl in H. rewrite Hti in H. simpl in H.
        rewrite bool_decide_eq_false_2 in H by exact Hs. discriminate. }
    destruct (decide (ptr (wobj ti) = Some m)) as [Hp|Hp].
    + destruct (unlock_scan_hit m a l st ti mu0 Hti Hs Hp Hm)
        as (st2 & H2 & _ & _ & Hk & _).
      rewrite H2 in H. injection H as <-. right. exists a.
      rewrite Hk. apply lookup_insert_eq.
    + simpl in H. rewrite Hti in H. simpl in H.
      rewrite bool_decide_eq_true_2 in H by exact Hs. simpl in H.
      rewrite bool_decide_eq_false_2 in H by exact Hp.
      apply IH, H.
Qed.

Lemma mutex_ok_taken (mu : kmutex) (t : tid) :
  mutex_ok mu -> owner_task mu = None ->
  mutex_ok (if is_recursive mu
            then with_lock_count (wrap32 (lock_count mu + 1))
                   (with_owner (Some t) mu)
            else with_owner (Some t) mu).
Proof.
  intros [Hr Hinv] Ho. destruct (is_recursive mu) eqn:Er.
  - assert (lock_count mu = 0) as Hz by (apply Hinv, Ho).
    unfold mutex_ok. change (is_recursive _) with (is_recursive mu).
    rewrite Er. simpl. rewrite Hz. split; [vm_compute; split; congruence|].
    split; [discriminate|]. vm_compute. discriminate.
  - unfold mutex_ok. change (is_recursive _) with (is_recursive mu).
    rewrite Er. simpl. split; assumption.
Qed.

Lemma mutex_ok_nested (mu : kmutex) (o : tid) :
  mutex_ok mu -> is_recursive mu = true -> owner_task mu = Some o ->
  lock_count mu < 2 ^ 32 - 1 ->
  mutex_ok (with_lock_count (wrap32 (lock_count mu + 1)) mu).
Proof.
  intros [Hr Hinv] Er Ho Hmax. unfold mutex_ok.
  change (is_recursive _) with (is_recursive mu). rewrite Er. simpl.
  rewrite wrap32_small by lia. rewrite Ho.
  split; [lia|]. split; [discriminate|lia].
Qed.

(** On the path of [kmutex_lock] that parks the caller, [H] says the
    call returned [st']: turn it into "the mutexes are as in [st]". *)
Ltac sleep_path H st :=
  match type of H with
  | context [wait_obj_set ?a ?b ?c ?d] =>
      let E1 := fresh "E" in
      let s1 := fresh "s" in
      destruct (wait_obj_set a b c d) as [s1|] eqn:E1; [|discriminate];
      simpl in H;
      match type of H with
      | context [task_change_state ?x ?y s1] =>
          let E2 := fresh "E" in
          let s2 := fresh "s" in
          destruct (task_change_state x y s1) as [s2|] eqn:E2; [|discriminate];
          simpl in H; injection H as <- <-;
          apply task_change_state_kmutexes in E2;
          apply wait_obj_set_kmutexes in E1;
          assert (H : kmutexes (enable_preemption s2) = kmutexes st)
            by (simpl; rewrite E2, E1; reflexivity)
      end
  end.

(** X3.  The invariant of a mutex (a non-recursive mutex has count 0; a
    recursive one has no owner exactly when its count is 0; the count
    fits 32 bits) holds of the mutex that [kmutex_init] writes, whatever
    the flags and whatever was at the address before; and a mutex that
    satisfies it, with its counter not at the maximum, satisfies it
    after every call of [kmutex_lock], [kmutex_trylock] and
    [kmutex_unlock] that returns; none of the three changes the id or
    the flags. *)
Theorem mutex_ok_preserved (st : kstate) (m : maddr) :
  (forall fl, exists mu0,
      kmutexes (kmutex_init m fl st) !! m = Some mu0 /\ mutex_ok mu0 /\
      owner_task mu0 = None /\ lock_count mu0 = 0 /\ flags mu0 = fl) /\
  (forall mu,
      kmutexes st !! m = Some mu ->
      mutex_ok mu ->
      lock_count mu < 2 ^ 32 - 1 ->
      (forall o st', kmutex_lock m st = Some (o, st') ->
         exists mu', kmutexes st' !! m = Some mu' /\ mutex_ok mu' /\
                     id mu' = id mu /\ flags mu' = flags mu) /\
      (forall b st', kmutex_trylock m st = Some (b, st') ->
         exists mu', kmutexes st' !! m = Some mu' /\ mutex_ok mu' /\
                     id mu' = id mu /\ flags mu' = flags mu) /\
      (forall st', kmutex_unlock m st = Some st' ->
         exists mu', kmutexes st' !! m = Some mu' /\ mutex_ok mu' /\
                     id mu' = id mu /\ flags mu' = flags mu)).
Proof.
  split.
  { intros fl. eexists. split; [apply lookup_insert_eq|].
    split; [|split; [reflexivity|split; reflexivity]].
    unfold mutex_ok. simpl. split; [lia|].
    match goal with
    | |- context [is_recursive ?x] => destruct (is_recursive x)
    end; [|reflexivity].
    split; intros _; reflexivity. }
  intros mu Hm Hok Hmax. pose proof Hok as [Hrange Hinv].
  split; [|split].
  - intros o st' H. unfold kmutex_lock, check_not_in_irq_handler in H.
    destruct (in_irq_handler st); [discriminate|]. simpl in H.
    rewrite Hm in H. simpl in H.
    destruct (owner_task mu) as [ow|] eqn:Ho.
    + destruct (is_recursive mu) eqn:Er.
      * destruct (0 <? lock_count mu); simpl in H; [|discriminate].
        destruct (kmutex_is_curr_task_holding_lock mu (disable_preemption st)).
        -- injection H as <- <-. eexists. split; [apply lookup_insert_eq|].
           split; [apply (mutex_ok_nested mu ow); assumption|]. split; reflexivity.
        -- sleep_path H st. exists mu. rewrite H.
           split; [exact Hm|]. split; [exact Hok|]. split; reflexivity.
      * destruct (kmutex_is_curr_task_holding_lock mu (disable_preemption st));
          [discriminate|].
        sleep_path H st. exists mu. rewrite H.
           split; [exact Hm|]. split; [exact Hok|]. split; reflexivity.
    + injection H as <- <-. eexists. split; [apply lookup_insert_eq|].
      rewrite is_recursive_with_owner.
      split; [apply mutex_ok_taken; assumption|].
      destruct (is_recursive mu); split; reflexivity.
  - intros b st' H. unfold kmutex_trylock, check_not_in_irq_handler in H.
    destruct (in_irq_handler st); [discriminate|]. simpl in H.
    rewrite Hm in H. simpl in H.
    destruct (owner_task mu) as [ow|] eqn:Ho.
    + destruct (is_recursive mu
                && kmutex_is_curr_task_holding_lock mu (disable_preemption st))
        eqn:Eb.
      * apply andb_true_iff in Eb as [Er _].
        injection H as <- <-. eexists. split; [apply lookup_insert_eq|].
        split; [apply (mutex_ok_nested mu ow); assumption|]. split; reflexivity.
      * injection H as <- <-. exists mu. rewrite preempt_roundtrip.
        split; [exact Hm|]. split; [exact Hok|]. split; reflexivity.
    + injection H as <- <-. eexists. split; [apply lookup_insert_eq|].
      rewrite is_recursive_with_owner.
      split; [apply mutex_ok_taken; assumption|].
      destruct (is_recursive mu); split; reflexivity.
  - intros st' H. unfold kmutex_unlock, check_not_in_irq_handler in H.
    destruct (in_irq_handler st); [discriminate|]. simpl in H.
    rewrite Hm in H. simpl in H.
    destruct (kmutex_is_curr_task_holding_lock mu (disable_preemption st))
      eqn:Ehold; simpl in H; [|discriminate].
    apply bool_decide_eq_true in Ehold. simpl in Ehold.
    assert (Hrel : forall mu0 : kmutex,
        id mu0 = id mu -> flags mu0 = flags mu -> owner_task mu0 = None ->
        mutex_ok mu0 ->
        (unlock_scan m (sleeping_tasks_list st)
           (store_mutex m mu0 (disable_preemption st))
           ≫= fun st1 => Some (enable_preemption st1)) = Some st' ->
        exists mu', kmutexes st' !! m = Some mu' /\ mutex_ok mu' /\
                    id mu' = id mu /\ flags mu' = flags mu).
    { intros mu0 Hid Hfl Ho0 Hok0 Hrun. revert Hrun.
      destruct (unlock_scan m (sleeping_tasks_list st)
                  (store_mutex m mu0 (disable_preemption st)))
        as [st1|] eqn:Escan; intros Hrun; [|discriminate].
      simpl in Hrun. injection Hrun as <-.
      destruct (unlock_scan_mutex _ _ _ _ mu0 Escan) as [Hk|[t Hk]].
      - apply lookup_insert_eq.
      - exists mu0. simpl. rewrite Hk.
        split; [reflexivity|]. split; [exact Hok0|]. split; assumption.
      - eexists. simpl. split; [exact Hk|].
        split; [apply mutex_ok_taken; assumption|].
        destruct (is_recursive mu0); simpl; split; assumption. }
    destruct (is_recursive mu) eqn:Er.
    + destruct (0 <? lock_count mu) eqn:Epos; simpl in H; [|discriminate].
      apply Z.ltb_lt in Epos. rewrite wrap32_small in H by lia.
      destruct (0 <? lock_count mu - 1) eqn:Emore.
      * apply Z.ltb_lt in Emore. injection H as <-.
        eexists. split; [apply lookup_insert_eq|].
        split; [|split; reflexivity].
        unfold mutex_ok. change (is_recursive _) with (is_recursive mu).
        rewrite Er. simpl. rewrite Ehold.
        split; [lia|]. split; [discriminate|lia].
      * apply Z.ltb_ge in Emore.
        apply (Hrel (with_owner None (with_lock_count (lock_count mu - 1) mu)));
          [reflexivity|reflexivity|reflexivity| |exact H].
        unfold mutex_ok. change (is_recursive _) with (is_recursive mu).
        rewrite Er. simpl. split; [lia|]. split; [lia|reflexivity].
    + apply (Hrel (with_owner None mu)); [reflexivity..| |exact H].
      unfold mutex_ok. change (is_recursive _) with (is_recursive mu).
      rewrite Er. simpl. split; assumption.
Qed.

Lemma mutex_ok_preserved_witness :
  (exists mu0,
      kmutexes (kmutex_init 9%nat 1 (s2_state 1 3)) !! 9%nat = Some mu0 /\
      mutex_ok mu0 /\ owner_task mu0 = None) /\
  (exists st' mu',
      kmutex_unlock 7%nat (s2_state 1 3) = Some st' /\
      kmutexes st' !! 7%nat = Some mu' /\ mutex_ok mu' /\
      id mu' = 5 /\ flags mu' = 1).
Proof.
  destruct (mutex_ok_preserved (s2_state 1 3) 9%nat) as [Hinit _].
  destruct (mutex_ok_preserved (s2_state 1 3) 7%nat) as [_ Hkeep].
  split.
  - destruct (Hinit 1) as (mu0 & Hm & Hok & Ho & _).
    exists mu0. split; [exact Hm|]. split; [exact Hok|exact Ho].
  - destruct (kmutex_unlock 7%nat (s2_state 1 3)) as [st'|] eqn:E.
    + destruct (Hkeep {| id := 5; flags := 1; lock_count := 3;
                         owner_task := Some 1%nat |}) as (_ & _ & H).
      * reflexivity.
      * split; [simpl; lia|]. simpl. split; discriminate.
      * simpl. lia.
      * destruct (H st' eq_refl) as (mu' & Hm & Hok & Hid & Hfl).
        exists st', mu'. split; [reflexivity|]. split; [exact Hm|].
        split; [exact Hok|]. split; assumption.
    + vm_compute in E. discriminate E.
Defined.

(** ** Taking and giving back a free mutex *)

Lemma store_mutex_same m mu st :
  kmutexes st !! m = Some mu -> store_mutex m mu st = st.
Proof.
  intros H. destruct st. unfold store_mutex, set_kmutexes. simpl in *.
  f_equal. apply insert_id, H.
Qed.

Lemma store_mutex_twice m mu1 mu2 st :
  store_mutex m mu2 (store_mutex m mu1 st) = store_mutex m mu2 st.
Proof.
  unfold store_mutex, set_kmutexes. simpl. f_equal. apply insert_insert_eq.
Qed.

(** X4.  On a free mutex that nobody waits for, [kmutex_lock] returns
    with the caller as owner, [kmutex_trylock] does exactly the same, and
    a following [kmutex_unlock] gives back the state from before the
    lock: the pair leaves no trace in the kernel state. *)
Theorem kmutex_lock_unlock_roundtrip (st : kstate) (m : maddr) (mu : kmutex) :
  in_irq_handler st = false ->
  kmutexes st !! m = Some mu ->
  mutex_ok mu ->
  owner_task mu = None ->
  sleeping_wf st ->
  (forall x, x ∈ sleeping_tasks_list st -> ~ waits_on m st x) ->
  exists st1 mu1,
    kmutex_lock m st = Some (Acquired, st1) /\
    kmutex_trylock m st = Some (true, st1) /\
    kmutexes st1 !! m = Some mu1 /\
    owner_task mu1 = Some (curr_task st) /\
    kmutex_unlock m st1 = Some st.
Proof.
  intros Hirq Hm [Hrange Hinv] Ho Hwf Hno.
  set (mu1 := if is_recursive mu
              then with_lock_count (wrap32 (lock_count mu + 1))
                     (with_owner (Some (curr_task st)) mu)
              else with_owner (Some (curr_task st)) mu).
  exists (store_mutex m mu1 st), mu1.
  split; [apply kmutex_lock_free; assumption|].
  split.
  { unfold kmutex_trylock, check_not_in_irq_handler. rewrite Hirq. simpl.
    rewrite Hm. simpl. rewrite Ho.
    rewrite is_recursive_with_owner, preempt_store. reflexivity. }
  split; [apply lookup_insert_eq|].
  split; [subst mu1; destruct (is_recursive mu); reflexivity|].
  assert (Hr1 : is_recursive mu1 = is_recursive mu).
  { subst mu1. destruct (is_recursive mu) eqn:E; exact E. }
  rewrite (kmutex_unlock_release (store_mutex m mu1 st) m mu1).
  - rewrite store_mutex_twice. f_equal. apply store_mutex_same.
    rewrite Hm. f_equal. unfold released. rewrite Hr1.
    destruct mu as [i f lc o]. simpl in *. subst o.
    subst mu1. destruct (is_recursive _) eqn:E.
    + assert (lc = 0) as -> by (apply Hinv; reflexivity). reflexivity.
    + reflexivity.
  - exact Hirq.
  - apply lookup_insert_eq.
  - subst mu1. destruct (is_recursive mu); reflexivity.
  - intros Hr. rewrite Hr1 in Hr. subst mu1. rewrite Hr in *. simpl.
    assert (lock_count mu = 0) as -> by (apply Hinv, Ho). reflexivity.
  - exact Hwf.
  - exact Hno.
Qed.

Lemma kmutex_lock_unlock_roundtrip_witness :
  exists st1 mu1,
    kmutex_lock 8%nat (kmutex_init 8%nat 1 (s2_state 0 0))
      = Some (Acquired, st1) /\
    kmutex_trylock 8%nat (kmutex_init 8%nat 1 (s2_state 0 0))
      = Some (true, st1) /\
    kmutexes st1 !! 8%nat = Some mu1 /\
    owner_task mu1 = Some 1%nat /\
    kmutex_unlock 8%nat st1 = Some (kmutex_init 8%nat 1 (s2_state 0 0)).
Proof.
  apply (kmutex_lock_unlock_roundtrip (kmutex_init 8%nat 1 (s2_state 0 0)) 8%nat
           {| id := 6; flags := 1; lock_count := 0; owner_task := None |}).
  - reflexivity.
  - reflexivity.
  - split; [simpl; lia|]. simpl. split; reflexivity.
  - reflexivity.
  - apply (s2_state_wf 0 0).
  - intros x Hx (ti & Hti & Hp). simpl in Hx.
    repeat (apply elem_of_cons in Hx as [->|Hx];
            [vm_compute in Hti; injection Hti as <-; discriminate|]).
    apply elem_of_nil in Hx. destruct Hx.
Defined.

(** ** Misuse *)

(** X18.  The assertions of the mutex code catch its misuse: a call of
    [kmutex_lock], [kmutex_trylock] or [kmutex_unlock] from an IRQ
    handler panics; [kmutex_unlock] by a task that does not hold the
    mutex panics; and a task that locks a non-recursive mutex it holds
    already panics instead of sleeping on itself, while
    [kmutex_trylock] in that situation returns false and changes
    neither the mutex, nor a task, nor the sleeping list, nor the
    preemption counter. *)
Theorem kmutex_misuse (st : kstate) (m : maddr) (mu : kmutex) :
  kmutexes st !! m = Some mu ->
  (in_irq_handler st = true ->
   kmutex_lock m st = None /\ kmutex_trylock m st = None /\
   kmutex_unlock m st = None) /\
  (owner_task mu <> Some (curr_task st) -> kmutex_unlock m st = None) /\
  (in_irq_handler st = false ->
   is_recursive mu = false ->
   owner_task mu = Some (curr_task st) ->
   kmutex_lock m st = None /\ kmutex_trylock m st = Some (false, st)).
Proof.
  intros Hm. split; [|split].
  - intros Hirq. unfold kmutex_lock, kmutex_trylock, kmutex_unlock,
      check_not_in_irq_handler. rewrite Hirq. repeat split.
  - intros Hno. unfold kmutex_unlock, check_not_in_irq_handler.
    destruct (in_irq_handler st); [reflexivity|].
    cbn [mbind option_bind].
    change (kmutexes (disable_preemption st)) with (kmutexes st).
    rewrite Hm. cbn [mbind option_bind].
    unfold kmutex_is_curr_task_holding_lock.
    change (curr_task (disable_preemption st)) with (curr_task st).
    rewrite bool_decide_eq_false_2 by exact Hno. reflexivity.
  - intros Hirq Hnr Ho. unfold kmutex_lock, kmutex_trylock,
      check_not_in_irq_handler. rewrite Hirq.
    cbn [mbind option_bind].
    change (kmutexes (disable_preemption st)) with (kmutexes st).
    rewrite Hm. cbn [mbind option_bind]. rewrite Ho, Hnr.
    unfold kmutex_is_curr_task_holding_lock.
    change (curr_task (disable_preemption st)) with (curr_task st).
    rewrite Ho, bool_decide_eq_true_2 by reflexivity.
    split; [reflexivity|]. cbn [andb]. f_equal. f_equal.
    apply preempt_roundtrip.
Qed.

Lemma kmutex_misuse_witness :
  kmutex_lock 7%nat (s2_state 0 0) = None /\
  kmutex_trylock 7%nat (s2_state 0 0) = Some (false, s2_state 0 0).
Proof.
  apply (kmutex_misuse (s2_state 0 0) 7%nat
           {| id := 5; flags := 0; lock_count := 0;
              owner_task := Some 1%nat |});
    reflexivity.
Defined.

(** ** Identifiers *)

(** X19.  [kmutex_init] gives out fresh identifiers.  While the counter
    [new_mutex_id] is positive and below 2^32 - 1, two mutexes
    initialised one after the other get different ids, both different
    from 0, the id [kmutex_destroy] leaves behind; each starts free,
    with count 0 and the flags asked for, and the second initialisation
    does not disturb the first mutex. *)
Theorem kmutex_init_fresh_ids (st : kstate) (m1 m2 : maddr) (fl1 fl2 : Z) :
  0 < new_mutex_id st < 2 ^ 32 - 1 ->
  m1 <> m2 ->
  let st2 := kmutex_init m2 fl2 (kmutex_init m1 fl1 st) in
  exists mu1 mu2,
    kmutexes st2 !! m1 = Some mu1 /\
    kmutexes st2 !! m2 = Some mu2 /\
    id mu1 <> id mu2 /\ id mu1 <> 0 /\ id mu2 <> 0 /\
    flags mu1 = fl1 /\ flags mu2 = fl2 /\
    owner_task mu1 = None /\ owner_task mu2 = None /\
    lock_count mu1 = 0 /\ lock_count mu2 = 0 /\
    (exists mu0, kmutexes (kmutex_destroy m1 st2) !! m1 = Some mu0 /\
                 id mu0 = 0) /\
    kmutexes (kmutex_destroy m1 st2) !! m2 = Some mu2.
Proof.
  intros Hid Hne st2. subst st2. unfold kmutex_init, kmutex_destroy, store_mutex.
  cbn [kmutexes set_kmutexes set_new_mutex_id new_mutex_id].
  rewrite (wrap32_small (new_mutex_id st + 1)) by lia.
  eexists _, _.
  split; [rewrite lookup_insert_ne by congruence; apply lookup_insert_eq|].
  split; [apply lookup_insert_eq|].
  cbn [id flags owner_task lock_count].
  split; [lia|]. split; [lia|]. split; [lia|].
  repeat (split; [reflexivity|]).
  split.
  - eexists. split; [apply lookup_insert_eq|reflexivity].
  - rewrite lookup_insert_ne by congruence. apply lookup_insert_eq.
Qed.

Lemma kmutex_init_fresh_ids_witness :
  exists mu1 mu2,
    kmutexes (kmutex_init 9%nat 0 (kmutex_init 8%nat 1 (s2_state 0 0))) !! 8%nat
      = Some mu1 /\
    kmutexes (kmutex_init 9%nat 0 (kmutex_init 8%nat 1 (s2_state 0 0))) !! 9%nat
      = Some mu2 /\
    id mu1 <> id mu2 /\ id mu1 <> 0 /\ id mu2 <> 0 /\
    flags mu1 = 1 /\ flags mu2 = 0 /\
    owner_task mu1 = None /\ owner_task mu2 = None /\
    lock_count mu1 = 0 /\ lock_count mu2 = 0 /\
    (exists mu0,
        kmutexes (kmutex_destroy 8%nat
                    (kmutex_init 9%nat 0 (kmutex_init 8%nat 1 (s2_state 0 0))))
          !! 8%nat = Some mu0 /\
        id mu0 = 0) /\
    kmutexes (kmutex_destroy 8%nat
                (kmutex_init 9%nat 0 (kmutex_init 8%nat 1 (s2_state 0 0))))
      !! 9%nat = Some mu2.
Proof.
  apply (kmutex_init_fresh_ids (s2_state 0 0) 8%nat 9%nat 1 0).
  - simpl. lia.
  - discriminate.
Defined.

(** ** No lost wake-up *)


(** The scan either finds nobody and changes nothing, or picks the
    first waiter of the list. *)
Lemma unlock_scan_cases m l : forall st st1 mu,
  unlock_scan m l st = Some st1 ->
  kmutexes st !! m = Some mu ->
  (st1 = st /\ forall x, x ∈ l -> ~ waits_on m st x) \/
  (exists pre t post ti,
      l = pre ++ t :: post /\
      (forall x, x ∈ pre -> ~ waits_on m st x) /\
      tasks st !! t = Some ti /\ ptr (wobj ti) = Some m /\
      tasks st1 = <[t := woken]> (tasks st) /\
      sleeping_tasks_list st1 =
        filter (fun x => x ≠ t) (sleeping_tasks_list st) /\
      (exists mu', kmutexes st1 = <[m := mu']> (kmutexes st) /\
                   owner_task mu' = Some t)).
Proof.
  induction l as [|a l IH]; intros st st1 mu H Hm.
  - injection H as <-. left. split; [reflexivity|].
    intros x Hx. apply elem_of_nil in Hx. destruct Hx.
  - destruct (tasks st !! a) as [ti|] eqn:Hti;
      [|simpl in H; rewrite Hti in H; discriminate].
    destruct (decide (state ti = TASK_STATE_SLEEPING)) as [Hs|Hs].
    2:{ simpl in H. rewrite Hti in H. simpl in H.
        rewrite bool_decide_eq_false_2 in H by exact Hs. discriminate. }
    destruct (decide (ptr (wobj ti) = Some m)) as [Hp|Hp].
    + destruct (unlock_scan_hit m a l st ti mu Hti Hs Hp Hm)
        as (st2 & H2 & Ht2 & Hl2 & Hk & _).
      rewrite H2 in H. injection H as <-. right.
      exists [], a, l, ti. split; [reflexivity|].
      split; [intros x Hx; apply elem_of_nil in Hx; destruct Hx|].
      split; [exact Hti|]. split; [exact Hp|]. split; [exact Ht2|].
      split; [exact Hl2|].
      eexists. split; [exact Hk|]. destruct (is_recursive mu); reflexivity.
    + simpl in H. rewrite Hti in H. simpl in H.
      rewrite bool_decide_eq_true_2 in H by exact Hs. simpl in H.
      rewrite bool_decide_eq_false_2 in H by exact Hp.
      destruct (IH st st1 mu H Hm) as [[-> Hno] | (pre & t & post & ti' & Hl & Hpre & Hrest)].
      * left. split; [reflexivity|]. intros x Hx.
        apply elem_of_cons in Hx as [->|Hx]; [|apply Hno, Hx].
        apply (not_waits_on m st a ti Hti Hp).
      * right. exists (a :: pre), t, post, ti'. split; [rewrite Hl; reflexivity|].
        split; [|exact Hrest].
        intros x Hx. apply elem_of_cons in Hx as [->|Hx]; [|apply Hpre, Hx].
        apply (not_waits_on m st a ti Hti Hp).
Qed.

Lemma waits_on_tasks m st st' t :
  tasks st' = tasks st -> waits_on m st' t <-> waits_on m st t.
Proof. intros H. unfold waits_on. rewrite H. reflexivity. Qed.

(** A step that leaves the tasks and the sleeping list alone keeps the
    property if it keeps the owner of [m], or if nobody waits on [m]. *)
Lemma served_frame m st st' :
  waiters_served m st ->
  tasks st' = tasks st ->
  sleeping_tasks_list st' = sleeping_tasks_list st ->
  ((forall x, ~ waits_on m st x) \/
   forall mu o, kmutexes st !! m = Some mu -> owner_task mu = Some o ->
     exists mu', kmutexes st' !! m = Some mu' /\ owner_task mu' = Some o) ->
  waiters_served m st'.
Proof.
  intros (Hwf & Hin & Hown) Ht Hl Hkeep.
  split; [|split].
  - unfold sleeping_wf. rewrite Hl, Ht. exact Hwf.
  - intros t Hw. rewrite Hl. apply Hin. apply (waits_on_tasks m st st' t Ht), Hw.
  - intros [t Hw]. apply (waits_on_tasks m st st' t Ht) in Hw.
    destruct Hkeep as [Hnone|Hkeep]; [destruct (Hnone t Hw)|].
    destruct (Hown (ex_intro _ t Hw)) as (mu & o & Hm & Ho & Hno).
    destruct (Hkeep mu o Hm Ho) as (mu' & Hm' & Ho').
    exists mu', o. split; [exact Hm'|]. split; [exact Ho'|].
    intros Hwo. apply Hno. apply (waits_on_tasks m st st' o Ht), Hwo.
Qed.

(** The running task goes to sleep on [m2], whose owner is another task. *)
Lemma served_park m m2 st st' mu2 ow n :
  waiters_served m st ->
  curr_awake st ->
  kmutexes st !! m2 = Some mu2 ->
  owner_task mu2 = Some ow ->
  ow ≠ curr_task st ->
  tasks st' = <[curr_task st := parked_on m2]> (tasks st) ->
  sleeping_tasks_list st' =
    insert_at n (curr_task st) (sleeping_tasks_list st) ->
  kmutexes st' = kmutexes st ->
  waiters_served m st'.
Proof.
  intros (Hwf & Hin & Hown) (tc & Htc & Hawake) Hm2 Ho2 Hne Ht Hl Hk.
  destruct Hwf as [Hnd Hsl].
  assert (Hc : curr_task st ∉ sleeping_tasks_list st).
  { intros Hc. destruct (Hsl _ Hc) as (ti & Hti & Hs). congruence. }
  assert (Hother : forall x, x ≠ curr_task st -> tasks st' !! x = tasks st !! x).
  { intros x Hx. rewrite Ht. apply lookup_insert_ne. congruence. }
  assert (Hw' : forall x, waits_on m st' x ->
            (x = curr_task st /\ m2 = m) \/ (x ≠ curr_task st /\ waits_on m st x)).
  { intros x (ti & Hti & Hp). destruct (decide (x = curr_task st)) as [->|Hx].
    - left. split; [reflexivity|]. rewrite Ht, lookup_insert_eq in Hti.
      injection Hti as <-. simpl in Hp. congruence.
    - right. split; [exact Hx|]. rewrite (Hother x Hx) in Hti.
      exists ti. split; assumption. }
  split; [split|split].
  - rewrite Hl. apply NoDup_insert_at. split; assumption.
  - intros t Hin'. rewrite Hl in Hin'.
    apply elem_of_insert_at in Hin' as [->|Hin'].
    + rewrite Ht, lookup_insert_eq. eexists. split; reflexivity.
    + assert (t ≠ curr_task st) by (intros ->; exact (Hc Hin')).
      rewrite (Hother t) by assumption. apply Hsl, Hin'.
  - intros t Hw. rewrite Hl. apply elem_of_insert_at.
    destruct (Hw' t Hw) as [[-> _]|[_ Hw0]].
    + left. reflexivity.
    + right. apply Hin, Hw0.
  - intros [t Hw]. rewrite Hk.
    destruct (decide (m2 = m)) as [->|Hm].
    + exists mu2, ow. split; [exact Hm2|]. split; [exact Ho2|].
      intros Hwo. destruct (Hw' ow Hwo) as [[Heq _]|[_ Hwo0]]; [congruence|].
      destruct (Hown (ex_intro _ ow Hwo0)) as (mu & o & Hmm & Ho & Hno).
      assert (o = ow) by congruence. subst o. exact (Hno Hwo0).
    + destruct (Hw' t Hw) as [[_ Heq]|[_ Hw0]]; [congruence|].
      destruct (Hown (ex_intro _ t Hw0)) as (mu & o & Hmm & Ho & Hno).
      exists mu, o. split; [exact Hmm|]. split; [exact Ho|].
      intros Hwo. destruct (Hw' o Hwo) as [[_ Heq]|[_ Hwo0]]; [congruence|].
      exact (Hno Hwo0).
Qed.

(** The mutex [m2] goes to [t], a task of the sleeping list that waited
    on it, which is woken. *)
Lemma served_handover m m2 st st' t ti mu' :
  waiters_served m st ->
  tasks st !! t = Some ti ->
  ptr (wobj ti) = Some m2 ->
  tasks st' = <[t := woken]> (tasks st) ->
  sleeping_tasks_list st' = filter (fun x => x ≠ t) (sleeping_tasks_list st) ->
  kmutexes st' = <[m2 := mu']> (kmutexes st) ->
  owner_task mu' = Some t ->
  waiters_served m st'.
Proof.
  intros (Hwf & Hin & Hown) Hti Hp Ht Hl Hk Ho'.
  destruct Hwf as [Hnd Hsl].
  assert (Hother : forall x, x ≠ t -> tasks st' !! x = tasks st !! x).
  { intros x Hx. rewrite Ht. apply lookup_insert_ne. congruence. }
  assert (Hnot : ~ waits_on m st' t).
  { intros (ti' & Hti' & Hp'). rewrite Ht, lookup_insert_eq in Hti'.
    injection Hti' as <-. discriminate Hp'. }
  assert (Hw' : forall x, waits_on m st' x -> x ≠ t /\ waits_on m st x).
  { intros x Hw. destruct (decide (x = t)) as [->|Hx]; [destruct (Hnot Hw)|].
    split; [exact Hx|]. destruct Hw as (tx & Htx & Hpx).
    rewrite (Hother x Hx) in Htx. exists tx. split; assumption. }
  split; [split|split].
  - rewrite Hl. apply NoDup_filter, Hnd.
  - intros x Hx. rewrite Hl in Hx. apply list_elem_of_filter in Hx as [Hx Hx'].
    rewrite (Hother x Hx). apply Hsl, Hx'.
  - intros x Hw. destruct (Hw' x Hw) as [Hx Hw0].
    rewrite Hl. apply list_elem_of_filter. split; [exact Hx|apply Hin, Hw0].
  - intros [x Hw]. destruct (Hw' x Hw) as [Hx Hw0]. rewrite Hk.
    destruct (decide (m2 = m)) as [->|Hm].
    + exists mu', t. split; [apply lookup_insert_eq|]. split; [exact Ho'|exact Hnot].
    + destruct (Hown (ex_intro _ x Hw0)) as (mu & o & Hmm & Ho & Hno).
      exists mu, o. split; [rewrite lookup_insert_ne by exact Hm; exact Hmm|].
      split; [exact Ho|].
      intros Hwo. destruct (Hw' o Hwo) as [_ Hwo0]. exact (Hno Hwo0).
Qed.

(** X24.  No wake-up gets lost.  The property "the sleeping list is
    well formed, every task that waits on [m] is on the sleeping list,
    and while a task waits on [m] the mutex has an owner that does not
    wait on [m] itself" is kept by every call of [kmutex_lock],
    [kmutex_trylock] and [kmutex_unlock] that returns, made by a task
    that is awake, on [m] or on any other mutex [m2]. *)
Theorem waiters_served_preserved (st : kstate) (m m2 : maddr) :
  waiters_served m st ->
  curr_awake st ->
  (forall o st', kmutex_lock m2 st = Some (o, st') -> waiters_served m st') /\
  (forall b st', kmutex_trylock m2 st = Some (b, st') -> waiters_served m st') /\
  (forall st', kmutex_unlock m2 st = Some st' -> waiters_served m st').
Proof.
  intros Hinv Hawake.
  (* storing a mutex with the same owner, or one that had no owner *)
  assert (Hstore : forall mu mu',
            kmutexes st !! m2 = Some mu ->
            (owner_task mu = None \/ owner_task mu' = owner_task mu) ->
            forall st', tasks st' = tasks st ->
              sleeping_tasks_list st' = sleeping_tasks_list st ->
              kmutexes st' = <[m2 := mu']> (kmutexes st) ->
              waiters_served m st').
  { intros mu mu' Hm2 Hown st' Ht Hl Hk.
    apply (served_frame m st st' Hinv Ht Hl). right.
    intros mu0 o Hm0 Ho0. rewrite Hk.
    destruct (decide (m2 = m)) as [->|Hne].
    - exists mu'. split; [apply lookup_insert_eq|].
      assert (mu0 = mu) by congruence. subst mu0.
      destruct Hown as [Hn|He]; congruence.
    - exists mu0. split; [|exact Ho0].
      rewrite lookup_insert_ne by exact Hne. exact Hm0. }
  split; [|split].
  - intros o st' H.
    destruct (in_irq_handler st) eqn:Hirq.
    { unfold kmutex_lock, check_not_in_irq_handler in H.
      rewrite Hirq in H. discriminate. }
    destruct (kmutexes st !! m2) as [mu|] eqn:Hm2.
    2:{ unfold kmutex_lock, check_not_in_irq_handler in H.
        rewrite Hirq in H. simpl in H. rewrite Hm2 in H. discriminate. }
    destruct (owner_task mu) as [ow|] eqn:Ho.
    2:{ rewrite (kmutex_lock_free st m2 mu Hirq Hm2 Ho) in H.
        injection H as <- <-.
        eapply (Hstore mu); [reflexivity| |reflexivity..]; left; exact Ho. }
    destruct Hawake as (tc & Htc & Hst).
    destruct (is_recursive mu) eqn:Er.
    + destruct (decide (0 < lock_count mu)) as [Hlc|Hlc].
      2:{ unfold kmutex_lock, check_not_in_irq_handler in H.
          rewrite Hirq in H. simpl in H. rewrite Hm2 in H. simpl in H.
          rewrite Ho, Er in H.
          replace (0 <? lock_count mu) with false in H
            by (symmetry; apply Z.ltb_ge; lia).
          discriminate. }
      destruct (decide (ow = curr_task st)) as [->|Hne].
      * rewrite (kmutex_lock_again st m2 mu Hirq Hm2 Er Ho Hlc) in H.
        injection H as <- <-.
        eapply (Hstore mu); [reflexivity| |reflexivity..]; right; reflexivity.
      * rewrite (kmutex_lock_parks st m2 mu ow tc Hirq Hm2 Ho Hne
                   (fun _ => Hlc) Htc Hst) in H.
        injection H as <- <-.
        eapply (served_park m m2 st _ mu ow _ Hinv); try reflexivity;
          try assumption.
        exists tc. split; assumption.
    + destruct (decide (ow = curr_task st)) as [->|Hne].
      * unfold kmutex_lock, check_not_in_irq_handler in H.
        rewrite Hirq in H. simpl in H. rewrite Hm2 in H. simpl in H.
        rewrite Ho, Er in H. unfold kmutex_is_curr_task_holding_lock in H.
        simpl in H. rewrite Ho in H.
        rewrite bool_decide_eq_true_2 in H by reflexivity. discriminate.
      * rewrite (kmutex_lock_parks st m2 mu ow tc Hirq Hm2 Ho Hne) in H;
          [|intros Hr; congruence|exact Htc|exact Hst].
        injection H as <- <-.
        eapply (served_park m m2 st _ mu ow _ Hinv); try reflexivity;
          try assumption.
        exists tc. split; assumption.
  - intros b st' H. unfold kmutex_trylock, check_not_in_irq_handler in H.
    destruct (in_irq_handler st); [discriminate|]. simpl in H.
    destruct (kmutexes st !! m2) as [mu|] eqn:Hm2; [|discriminate].
    simpl in H.
    destruct (owner_task mu) as [ow|] eqn:Ho.
    + destruct (is_recursive mu
                && kmutex_is_curr_task_holding_lock mu (disable_preemption st)).
      * injection H as <- <-.
        eapply (Hstore mu); [reflexivity| |reflexivity..]; right; reflexivity.
      * injection H as <- <-. rewrite preempt_roundtrip. exact Hinv.
    + injection H as <- <-.
      eapply (Hstore mu); [reflexivity| |reflexivity..]; left; exact Ho.
  - intros st' H. unfold kmutex_unlock, check_not_in_irq_handler in H.
    destruct (in_irq_handler st); [discriminate|]. simpl in H.
    destruct (kmutexes st !! m2) as [mu|] eqn:Hm2; [|discriminate].
    simpl in H.
    destruct (kmutex_is_curr_task_holding_lock mu (disable_preemption st))
      eqn:Ehold; simpl in H; [|discriminate].
    assert (Hrel : forall mu0 : kmutex,
        (unlock_scan m2 (sleeping_tasks_list st)
           (store_mutex m2 (with_owner None mu0) (disable_preemption st))
           ≫= fun st1 => Some (enable_preemption st1)) = Some st' ->
        waiters_served m st').
    { intros mu0 Hrun. revert Hrun.
      destruct (unlock_scan m2 (sleeping_tasks_list st)
                  (store_mutex m2 (with_owner None mu0) (disable_preemption st)))
        as [st1|] eqn:Escan; intros Hrun; [|discriminate].
      simpl in Hrun. injection Hrun as <-.
      destruct (unlock_scan_cases _ _ _ _ (with_owner None mu0) Escan)
        as [[-> Hno] | (pre & t & post & ti & Hl & Hpre & Hti & Hp & Ht1 & Hl1
                        & mu' & Hk1 & Ho1)].
      - apply lookup_insert_eq.
      - apply (served_frame m st _ Hinv); [reflexivity|reflexivity|].
        destruct (decide (m2 = m)) as [->|Hne].
        + left. intros x Hw. destruct Hinv as (_ & Hin & _).
          apply (Hno x (Hin x Hw)). exact Hw.
        + right. intros mu1 o Hm1 Ho1'. exists mu1. split; [|exact Ho1'].
          simpl. rewrite lookup_insert_ne by exact Hne. exact Hm1.
      - apply (served_handover m m2 st _ t ti mu' Hinv).
        + exact Hti.
        + exact Hp.
        + exact Ht1.
        + exact Hl1.
        + simpl. rewrite Hk1. simpl. apply insert_insert_eq.
        + exact Ho1. }
    destruct (is_recursive mu) eqn:Er.
    + destruct (0 <? lock_count mu); simpl in H; [|discriminate].
      destruct (0 <? wrap32 (lock_count mu - 1)).
      * injection H as <-.
        eapply (Hstore mu); [reflexivity| |reflexivity..]; right; reflexivity.
      * apply (Hrel _ H).
    + apply (Hrel _ H).
Qed.

Lemma s2_state_tasks fl lc t ti :
  tasks (s2_state fl lc) !! t = Some ti ->
  (t = 1%nat /\ ti = runner) \/ (t = 2%nat /\ ti = sleeper 7%nat) \/
  (t = 3%nat /\ ti = sleeper 7%nat) \/ (t = 4%nat /\ ti = sleeper 9%nat).
Proof.
  unfold s2_state. cbn [tasks]. intros H.
  apply lookup_insert_Some in H as [[<- <-]|[_ H]]; [tauto|].
  apply lookup_insert_Some in H as [[<- <-]|[_ H]]; [tauto|].
  apply lookup_insert_Some in H as [[<- <-]|[_ H]]; [tauto|].
  apply lookup_insert_Some in H as [[<- <-]|[_ H]]; [tauto|].
  rewrite lookup_empty in H. discriminate.
Qed.

Lemma s2_state_served fl lc : waiters_served 7%nat (s2_state fl lc).
Proof.
  split; [apply s2_state_wf|]. split.
  - intros t (ti & Hti & Hp).
    destruct (s2_state_tasks fl lc t ti Hti)
      as [[-> ->] | [[-> ->] | [[-> ->] | [-> ->]]]];
      try discriminate Hp; cbn [sleeping_tasks_list s2_state].
    + apply elem_of_cons. right. apply elem_of_cons. left. reflexivity.
    + apply elem_of_cons. right. apply elem_of_cons. right.
      apply elem_of_cons. left. reflexivity.
  - intros _. eexists _, 1%nat. split; [reflexivity|]. split; [reflexivity|].
    intros (ti & Hti & Hp).
    destruct (s2_state_tasks fl lc 1%nat ti Hti)
      as [[_ ->] | [[? _] | [[? _] | [? _]]]]; discriminate.
Qed.

(** Scenario S2: task 1 gives up the mutex at address 7, on which tasks
    2 and 3 sleep. *)
Lemma waiters_served_preserved_witness :
  exists st',
    kmutex_unlock 7%nat (s2_state 0 0) = Some st' /\
    waiters_served 7%nat st'.
Proof.
  destruct (kmutex_unlock 7%nat (s2_state 0 0)) as [st'|] eqn:E.
  - exists st'. split; [reflexivity|].
    destruct (waiters_served_preserved (s2_state 0 0) 7%nat 7%nat)
      as (_ & _ & H).
    + apply s2_state_served.
    + exists runner. split; [reflexivity|discriminate].
    + apply (H st' E).
  - vm_compute in E. discriminate E.
Defined.

End KmutexSpec.

(* ===================================================================== *)
(** * Properties of the IRQ dispatcher *)
(* ===================================================================== *)

Module IrqSpec.
Import Irq.
Local Open Scope Z_scope.

(** ** Bits *)

Lemma land_bit_clear v n :
  0 <= n -> Z.testbit v n = false -> Z.land v (Z.shiftl 1 n) = 0.
Proof.
  intros Hn Hb. apply Z.bits_inj'. intros i Hi.
  rewrite Z.land_spec, Z.bits_0, Z.shiftl_spec by exact Hi.
  destruct (decide (i = n)) as [->|Hne].
  - rewrite Hb. reflexivity.
  - destruct (Z.testbit 1 (i - n)) eqn:E; [|apply andb_false_r].
    exfalso. apply Hne.
    destruct (Z.lt_ge_cases (i - n) 0) as [Hlt|Hge].
    + rewrite Z.testbit_neg_r in E by exact Hlt. discriminate.
    + assert (i - n = 0); [|lia].
      destruct (Z.eq_dec (i - n) 0) as [H0|H0]; [exact H0|].
      rewrite (Z.bits_above_log2 1 (i - n)) in E; [discriminate|lia|].
      simpl. lia.
Qed.

Lemma wrap8_testbit v n : 0 <= n < 8 -> Z.testbit (wrap8 v) n = Z.testbit v n.
Proof. intros H. unfold wrap8. apply Z.mod_pow2_bits_low. lia. Qed.

Lemma wrap8_testbit_high v n : 8 <= n -> Z.testbit (wrap8 v) n = false.
Proof. intros H. unfold wrap8. apply Z.mod_pow2_bits_high. lia. Qed.

(** Bit [n] of the 16-bit value [pic_get_isr] builds from the two ISRs. *)
Lemma isr_pair_testbit lo hi n :
  0 <= n < 16 ->
  Z.testbit (Z.lor (wrap8 lo) (wrap16 (Z.shiftl (wrap8 hi) 8))) n =
  if n <? 8 then Z.testbit lo n else Z.testbit hi (n - 8).
Proof.
  intros Hn. rewrite Z.lor_spec. unfold wrap16.
  rewrite Z.mod_pow2_bits_low by lia.
  rewrite Z.shiftl_spec by lia.
  destruct (n <? 8) eqn:E.
  - apply Z.ltb_lt in E. rewrite wrap8_testbit by lia.
    rewrite (Z.testbit_neg_r (wrap8 hi)) by lia. apply orb_false_r.
  - apply Z.ltb_ge in E. rewrite wrap8_testbit_high by lia.
    rewrite wrap8_testbit by lia. reflexivity.
Qed.

(** ** Running the monad *)

Lemma bind_run {A B} (c : M A) (k : A -> M B) st :
  (c ≫= k) st = match c st with Some (a, st') => k a st' | None => None end.
Proof. reflexivity. Qed.

Lemma outb_command1 val st :
  outb PIC1_COMMAND val st =
  Some (tt, set_pic1 (pic_command (wrap8 val))
              (log (EvOutb PIC1_COMMAND (wrap8 val)) st)).
Proof. reflexivity. Qed.

Lemma outb_command2 val st :
  outb PIC2_COMMAND val st =
  Some (tt, set_pic2 (pic_command (wrap8 val))
              (log (EvOutb PIC2_COMMAND (wrap8 val)) st)).
Proof. reflexivity. Qed.

Lemma inb_command1 st :
  inb PIC1_COMMAND st =
  Some (pic_read true (pic1 st),
        log (EvInb PIC1_COMMAND (pic_read true (pic1 st))) st).
Proof. reflexivity. Qed.

Lemma inb_command2 st :
  inb PIC2_COMMAND st =
  Some (pic_read true (pic2 st),
        log (EvInb PIC2_COMMAND (pic_read true (pic2 st))) st).
Proof. reflexivity. Qed.

Lemma pic_get_isr_run st :
  pic_get_isr st =
  Some (Z.lor (wrap8 (isr (pic1 st))) (wrap16 (Z.shiftl (wrap8 (isr (pic2 st))) 8)),
        after_isr_read st).
Proof.
  unfold pic_get_isr, __pic_get_irq_reg.
  rewrite bind_run, outb_command1, bind_run, outb_command2.
  rewrite bind_run, inb_command1, bind_run, inb_command2.
  reflexivity.
Qed.

(** C2.  On entry of [handle_irq] for line 7 or 15 with the in-service
    bit of that line clear, the function returns after the four port
    accesses that read the ISR, followed for line 15 by one EOI byte to
    the master command port: [spur_irq_count] is incremented, no handler
    is called, no mask register is written (the masks, the handler table
    and the unhandled counters are as before), no EOI goes to the slave,
    and the master gets no EOI for line 7 and exactly one for line 15. *)
Theorem handle_irq_spurious (track : bool) (call_handler : Z -> regs -> M Z)
    (r : regs) (st : kstate) :
  let irq := int_num r - 32 in
  irq = 7 \/ irq = 15 ->
  in_service st irq = false ->
  exists st' evs,
    handle_irq track call_handler r st = Some (tt, st') /\
    trace st' = trace st ++ evs /\
    evs = [EvOutb PIC1_COMMAND PIC_READ_ISR; EvOutb PIC2_COMMAND PIC_READ_ISR;
           EvInb PIC1_COMMAND (wrap8 (isr (pic1 st)));
           EvInb PIC2_COMMAND (wrap8 (isr (pic2 st)))]
          ++ (if irq =? 15 then [EvOutb PIC1_COMMAND PIC_EOI] else []) /\
    spur_irq_count st' = wrap32 (spur_irq_count st + 1) /\
    handler_calls evs = [] /\
    mask_writes evs = [] /\
    imr (pic1 st') = imr (pic1 st) /\
    imr (pic2 st') = imr (pic2 st) /\
    irq_handlers st' = irq_handlers st /\
    unhandled_irq_count st' = unhandled_irq_count st /\
    eoi_count PIC2_COMMAND evs = 0%nat /\
    eoi_count PIC1_COMMAND evs = (if irq =? 15 then 1%nat else 0%nat).
Proof.
  intros irq Hirq Hclear.
  assert (Hspur : c_true (Z.land (Z.lor (wrap8 (isr (pic1 st)))
                                    (wrap16 (Z.shiftl (wrap8 (isr (pic2 st))) 8)))
                            (Z.shiftl 1 irq)) = false).
  { unfold c_true. rewrite land_bit_clear; [reflexivity|lia|].
    rewrite isr_pair_testbit by lia. exact Hclear. }
  unfold handle_irq. fold irq.
  destruct Hirq as [H7|H15].
  - rewrite H7 in *. change ((7 =? 7) || (7 =? 15)) with true. cbv iota.
    rewrite bind_run, bind_run, pic_get_isr_run.
    unfold ret at 1. rewrite Hspur. cbv iota beta.
    change (negb false) with true. cbv iota.
    eexists _, _. split; [reflexivity|].
    split; [simpl; rewrite <- !app_assoc; reflexivity|].
    repeat split.
  - rewrite H15 in *. change ((15 =? 7) || (15 =? 15)) with true. cbv iota.
    rewrite bind_run, bind_run, pic_get_isr_run.
    unfold ret at 1. rewrite Hspur. cbv iota beta.
    change (negb false) with true. cbv iota.
    eexists _, _. split; [reflexivity|].
    split; [simpl; rewrite <- !app_assoc; reflexivity|].
    repeat split.
Qed.

(** Scenario S4: vector 47 with ISR bit 15 clear. *)
Lemma handle_irq_spurious_witness :
  exists st' evs,
    handle_irq true (fun _ _ => ret 0) {| int_num := 47 |} boot_state
      = Some (tt, st') /\
    trace st' = evs /\
    spur_irq_count st' = 1 /\
    eoi_count PIC2_COMMAND evs = 0%nat /\
    eoi_count PIC1_COMMAND evs = 1%nat.
Proof.
  destruct (handle_irq_spurious true (fun _ _ => ret 0) {| int_num := 47 |}
              boot_state)
    as (st' & evs & Hrun & Htr & _ & Hsp & _ & _ & _ & _ & _ & _ & H2 & H1).
  - right. reflexivity.
  - reflexivity.
  - exists st', evs. repeat split; assumption.
Defined.

(** ** Installing and uninstalling handlers *)

Lemma wrap8_line irq : 0 <= irq < 16 -> wrap8 irq = irq.
Proof. intros H. unfold wrap8. apply Z.mod_small. lia. Qed.

Lemma testbit_shiftl_1 n j :
  0 <= n -> 0 <= j -> Z.testbit (Z.shiftl 1 n) j = bool_decide (j = n).
Proof.
  intros Hn Hj. rewrite Z.shiftl_spec by exact Hj.
  destruct (decide (j = n)) as [->|Hne].
  - rewrite Z.sub_diag, bool_decide_eq_true_2 by reflexivity. reflexivity.
  - rewrite bool_decide_eq_false_2 by exact Hne.
    destruct (Z.lt_ge_cases (j - n) 0) as [Hlt|Hge].
    + apply Z.testbit_neg_r. exact Hlt.
    + apply (Z.bits_above_log2 1 (j - n)); [lia|]. simpl. lia.
Qed.

(** The byte [irq_clear_mask] writes back: bit [n] cleared, the other
    bits of the mask register kept. *)
Lemma clear_mask_byte v n j :
  0 <= n < 8 -> 0 <= j < 8 ->
  Z.testbit (wrap8 (Z.land (wrap8 v) (Z.lnot (Z.shiftl 1 n)))) j =
  Z.testbit v j && negb (bool_decide (j = n)).
Proof.
  intros Hn Hj. rewrite wrap8_testbit by exact Hj.
  rewrite Z.land_spec, wrap8_testbit by exact Hj.
  rewrite Z.lnot_spec, testbit_shiftl_1 by lia. reflexivity.
Qed.

Lemma irq_clear_mask_run irq st :
  0 <= irq < 16 ->
  exists st',
    irq_clear_mask irq st = Some (tt, st') /\
    irq_handlers st' = irq_handlers st /\
    forall j, 0 <= j < 16 ->
      line_masked st' j = line_masked st j && negb (bool_decide (j = irq)).
Proof.
  intros Hirq. unfold irq_clear_mask.
  replace ((0 <=? irq) && (irq <=? 32)) with true
    by (symmetry; apply andb_true_iff; split; apply Z.leb_le; lia).
  rewrite bind_run. cbn [ASSERT]. unfold ret at 1.
  destruct (irq <? 8) eqn:E.
  - apply Z.ltb_lt in E. eexists. split; [reflexivity|]. split; [reflexivity|].
    intros j Hj. unfold line_masked. cbn [pic1 pic2 set_pic1 log pic_data imr].
    destruct (j <? 8) eqn:Ej.
    + apply Z.ltb_lt in Ej. unfold pic_read. apply clear_mask_byte; lia.
    + apply Z.ltb_ge in Ej. rewrite bool_decide_eq_false_2 by lia.
      rewrite andb_true_r. reflexivity.
  - apply Z.ltb_ge in E. eexists. split; [reflexivity|]. split; [reflexivity|].
    intros j Hj. unfold line_masked. cbn [pic1 pic2 set_pic2 log pic_data imr].
    destruct (j <? 8) eqn:Ej.
    + apply Z.ltb_lt in Ej. rewrite bool_decide_eq_false_2 by lia.
      rewrite andb_true_r. reflexivity.
    + apply Z.ltb_ge in Ej.
      transitivity (Z.testbit (imr (pic2 st)) (j - 8)
                    && negb (bool_decide (j - 8 = irq - 8))).
      * apply clear_mask_byte; lia.
      * f_equal. f_equal. apply bool_decide_ext. lia.
Qed.

Lemma store_handler_run irq h st :
  0 <= irq < 16 ->
  length (irq_handlers st) = 16%nat ->
  exists st',
    store_handler irq h st = Some (tt, st') /\
    length (irq_handlers st') = 16%nat /\
    pic1 st' = pic1 st /\ pic2 st' = pic2 st /\
    forall j, 0 <= j < 16 ->
      handler_of st' j = if bool_decide (j = irq) then h else handler_of st j.
Proof.
  intros Hirq Hlen. unfold store_handler.
  replace ((0 <=? irq) && (irq <? 16)) with true
    by (symmetry; apply andb_true_iff; split; [apply Z.leb_le|apply Z.ltb_lt]; lia).
  eexists. split; [reflexivity|].
  cbn [irq_handlers set_irq_handlers pic1 pic2].
  split; [rewrite length_insert; exact Hlen|].
  split; [reflexivity|]. split; [reflexivity|].
  intros j Hj. unfold handler_of. cbn [irq_handlers set_irq_handlers].
  destruct (decide (j = irq)) as [->|Hne].
  - rewrite bool_decide_eq_true_2 by reflexivity.
    rewrite list_lookup_insert_eq by lia. reflexivity.
  - rewrite bool_decide_eq_false_2 by exact Hne.
    rewrite list_lookup_insert_ne by lia. reflexivity.
Qed.

(** What one call of the interface does to the mask and the slot of
    every line. *)
Lemma run_call_effect c st :
  call_ok c ->
  length (irq_handlers st) = 16%nat ->
  exists st',
    run_call c st = Some (tt, st') /\
    length (irq_handlers st') = 16%nat /\
    forall j, 0 <= j < 16 ->
      line_masked st' j =
        match c with
        | Install irq _ => line_masked st j && negb (bool_decide (j = irq))
        | Uninstall _ => line_masked st j
        end /\
      handler_of st' j =
        if bool_decide (j = call_line c)
        then match c with Install _ h => h | Uninstall _ => 0 end
        else handler_of st j.
Proof.
  intros Hok Hlen. destruct c as [irq h|irq]; simpl in Hok.
  - destruct Hok as [Hirq Hh].
    destruct (store_handler_run irq h st Hirq Hlen)
      as (st1 & Hs & Hlen1 & Hp1 & Hp2 & Hh1).
    destruct (irq_clear_mask_run irq st1 Hirq) as (st2 & Hc & Hh2 & Hm2).
    exists st2. split.
    { unfold run_call, irq_install_handler. rewrite wrap8_line by exact Hirq.
      rewrite bind_run, Hs. exact Hc. }
    split; [rewrite Hh2; exact Hlen1|].
    intros j Hj. split.
    + rewrite (Hm2 j Hj). unfold line_masked. rewrite Hp1, Hp2. reflexivity.
    + unfold handler_of at 1. rewrite Hh2. apply (Hh1 j Hj).
  - destruct (store_handler_run irq 0 st Hok Hlen)
      as (st1 & Hs & Hlen1 & Hp1 & Hp2 & Hh1).
    exists st1. split.
    { unfold run_call, irq_uninstall_handler. rewrite wrap8_line by exact Hok.
      exact Hs. }
    split; [exact Hlen1|].
    intros j Hj. split.
    + unfold line_masked. rewrite Hp1, Hp2. reflexivity.
    + apply (Hh1 j Hj).
Qed.

Lemma run_calls_snoc cs c : forall st,
  run_calls (cs ++ [c]) st =
  match run_calls cs st with
  | Some (_, st') => run_call c st'
  | None => None
  end.
Proof.
  induction cs as [|a cs IH]; intros st.
  - simpl. rewrite bind_run. destruct (run_call c st) as [[[] st']|]; reflexivity.
  - simpl. rewrite !bind_run. destruct (run_call a st) as [[[] st']|]; [|reflexivity].
    apply IH.
Qed.

Lemma last_call_on_snoc irq cs c :
  last_call_on irq (cs ++ [c]) =
  if decide (call_line c = irq) then Some c else last_call_on irq cs.
Proof.
  unfold last_call_on. rewrite filter_app.
  destruct (decide (call_line c = irq)) as [He|Hne].
  - rewrite filter_cons_True by exact He. simpl. apply last_snoc.
  - rewrite filter_cons_False by exact Hne. simpl. rewrite app_nil_r.
    reflexivity.
Qed.

(** C4, as the code has it.  From the fully-masked state, any sequence of
    [irq_install_handler] (non-null handler) and [irq_uninstall_handler]
    calls on lines 0..15 runs to the end, and then, for every line:
    an unmasked line has a non-null handler or the last call that named
    it was [irq_uninstall_handler] (which clears the slot and leaves the
    mask alone); a line with a non-null handler is unmasked; a line no
    call named is still masked. *)
Theorem unmasked_line_installed_or_uninstalled (cs : list irq_call)
    (st : kstate) :
  fully_masked st ->
  Forall call_ok cs ->
  exists st',
    run_calls cs st = Some (tt, st') /\
    forall irq, 0 <= irq < 16 ->
      (line_masked st' irq = false ->
         handler_of st' irq ≠ 0 \/
         last_call_on irq cs = Some (Uninstall irq)) /\
      (handler_of st' irq ≠ 0 -> line_masked st' irq = false) /\
      (last_call_on irq cs = None -> line_masked st' irq = true).
Proof.
  intros (Hm1 & Hm2 & Hh) Hok.
  cut (exists st',
    run_calls cs st = Some (tt, st') /\
    length (irq_handlers st') = 16%nat /\
    forall irq, 0 <= irq < 16 ->
      (line_masked st' irq = false ->
         handler_of st' irq ≠ 0 \/
         last_call_on irq cs = Some (Uninstall irq)) /\
      (handler_of st' irq ≠ 0 -> line_masked st' irq = false) /\
      (last_call_on irq cs = None -> line_masked st' irq = true)).
  { intros (st' & H1 & _ & H2). exists st'. split; assumption. }
  induction cs as [|c cs IH] using rev_ind.
  - exists st. split; [reflexivity|]. split; [rewrite Hh; reflexivity|].
    intros irq Hirq.
    assert (Hmask : line_masked st irq = true).
    { unfold line_masked. rewrite Hm1, Hm2.
      destruct (irq <? 8) eqn:E.
      - apply Z.ltb_lt in E.
        assert (irq = 0 \/ irq = 1 \/ irq = 2 \/ irq = 3 \/ irq = 4 \/
                irq = 5 \/ irq = 6 \/ irq = 7) as Hc by lia.
        repeat (destruct Hc as [->|Hc]; [reflexivity|]). subst. reflexivity.
      - apply Z.ltb_ge in E.
        assert (irq = 8 \/ irq = 9 \/ irq = 10 \/ irq = 11 \/ irq = 12 \/
                irq = 13 \/ irq = 14 \/ irq = 15) as Hc by lia.
        repeat (destruct Hc as [->|Hc]; [reflexivity|]). subst. reflexivity. }
    split; [rewrite Hmask; discriminate|].
    split; [|intros _; exact Hmask].
    intros Hne. exfalso. apply Hne. unfold handler_of. rewrite Hh.
    rewrite lookup_replicate_2 by lia. reflexivity.
  - apply Forall_app in Hok as [Hcs Hc]. apply Forall_cons in Hc as [Hc _].
    destruct (IH Hcs) as (st1 & Hrun & Hlen & Hinv).
    destruct (run_call_effect c st1 Hc Hlen) as (st2 & Hrc & Hlen2 & Heff).
    exists st2. split; [rewrite run_calls_snoc, Hrun; exact Hrc|].
    split; [exact Hlen2|].
    intros irq Hirq. destruct (Heff irq Hirq) as [Hmk Hhd].
    destruct (Hinv irq Hirq) as (I1 & I2 & I3).
    rewrite last_call_on_snoc, Hmk, Hhd.
    destruct c as [l h|l]; simpl in Hc |- *.
    + destruct (decide (irq = l)) as [->|Hne].
      * rewrite bool_decide_eq_true_2 by reflexivity.
        rewrite decide_True by reflexivity. rewrite andb_false_r.
        split; [intros _; left; apply Hc|]. split; [reflexivity|discriminate].
      * rewrite bool_decide_eq_false_2 by exact Hne.
        rewrite decide_False by congruence. rewrite andb_true_r.
        split; [exact I1|]. split; [exact I2|exact I3].
    + destruct (decide (irq = l)) as [->|Hne].
      * rewrite bool_decide_eq_true_2 by reflexivity.
        rewrite decide_True by reflexivity.
        split; [intros _; right; reflexivity|].
        split; [intros H; exfalso; apply H; reflexivity|discriminate].
      * rewrite bool_decide_eq_false_2 by exact Hne.
        rewrite decide_False by congruence.
        split; [exact I1|]. split; [exact I2|exact I3].
Qed.

Lemma install_then_uninstall_ok : Forall call_ok install_then_uninstall.
Proof.
  unfold install_then_uninstall.
  repeat constructor; simpl; try lia; discriminate.
Qed.

Lemma boot_state_fully_masked : fully_masked boot_state.
Proof. repeat split. Qed.

Lemma unmasked_line_installed_or_uninstalled_witness :
  exists st',
    run_calls install_then_uninstall boot_state = Some (tt, st') /\
    forall irq, 0 <= irq < 16 ->
      (line_masked st' irq = false ->
         handler_of st' irq ≠ 0 \/
         last_call_on irq install_then_uninstall = Some (Uninstall irq)) /\
      (handler_of st' irq ≠ 0 -> line_masked st' irq = false) /\
      (last_call_on irq install_then_uninstall = None ->
         line_masked st' irq = true).
Proof.
  apply (unmasked_line_installed_or_uninstalled install_then_uninstall boot_state).
  - apply boot_state_fully_masked.
  - apply install_then_uninstall_ok.
Defined.

(** C4 as stated fails: after [irq_install_handler(3, h)] and
    [irq_uninstall_handler(3)] line 3 is unmasked and its slot is NULL. *)
Lemma uninstall_leaves_unmasked_line_without_handler :
  ~ (forall cs st',
       Forall call_ok cs ->
       run_calls cs boot_state = Some (tt, st') ->
       unmasked_implies_handler st').
Proof.
  intros H.
  destruct (run_calls install_then_uninstall boot_state) as [[[] st']|] eqn:Hrun;
    [|vm_compute in Hrun; discriminate].
  specialize (H install_then_uninstall st' install_then_uninstall_ok Hrun 3).
  vm_compute in Hrun. injection Hrun as <-.
  apply H; [lia|reflexivity|reflexivity].
Qed.

(** ** Masking and unmasking a line *)

Lemma set_mask_byte v n j :
  0 <= n -> 0 <= j < 8 ->
  Z.testbit (wrap8 (wrap8 (Z.lor (wrap8 v) (Z.shiftl 1 n)))) j =
  Z.testbit v j || bool_decide (j = n).
Proof.
  intros Hn Hj. rewrite !wrap8_testbit by exact Hj.
  rewrite Z.lor_spec, wrap8_testbit by exact Hj.
  rewrite testbit_shiftl_1 by lia. reflexivity.
Qed.

Lemma clear_mask_byte' v n j :
  0 <= n -> 0 <= j < 8 ->
  Z.testbit (wrap8 (Z.land (wrap8 v) (Z.lnot (Z.shiftl 1 n)))) j =
  Z.testbit v j && negb (bool_decide (j = n)).
Proof.
  intros Hn Hj. rewrite wrap8_testbit by exact Hj.
  rewrite Z.land_spec, wrap8_testbit by exact Hj.
  rewrite Z.lnot_spec, testbit_shiftl_1 by lia. reflexivity.
Qed.

Lemma assert_irq_range irq :
  0 <= irq <= 32 -> (0 <=? irq) && (irq <=? 32) = true.
Proof. intros H. apply andb_true_iff. split; apply Z.leb_le; lia. Qed.

Lemma irq_set_mask_run irq st :
  0 <= irq <= 32 ->
  exists st',
    irq_set_mask irq st = Some (tt, st') /\
    irq_handlers st' = irq_handlers st /\
    forall j, 0 <= j < 16 ->
      line_masked st' j = line_masked st j || bool_decide (j = irq).
Proof.
  intros Hirq. unfold irq_set_mask. rewrite assert_irq_range by exact Hirq.
  rewrite bind_run. cbn [ASSERT]. unfold ret at 1.
  destruct (irq <? 8) eqn:E.
  - apply Z.ltb_lt in E. eexists. split; [reflexivity|]. split; [reflexivity|].
    intros j Hj. unfold line_masked. cbn [pic1 pic2 set_pic1 log pic_data imr].
    destruct (j <? 8) eqn:Ej.
    + apply Z.ltb_lt in Ej. apply set_mask_byte; lia.
    + apply Z.ltb_ge in Ej. rewrite bool_decide_eq_false_2 by lia.
      rewrite orb_false_r. reflexivity.
  - apply Z.ltb_ge in E. eexists. split; [reflexivity|]. split; [reflexivity|].
    intros j Hj. unfold line_masked. cbn [pic1 pic2 set_pic2 log pic_data imr].
    destruct (j <? 8) eqn:Ej.
    + apply Z.ltb_lt in Ej. rewrite bool_decide_eq_false_2 by lia.
      rewrite orb_false_r. reflexivity.
    + apply Z.ltb_ge in Ej.
      transitivity (Z.testbit (imr (pic2 st)) (j - 8)
                    || bool_decide (j - 8 = irq - 8)).
      * apply set_mask_byte; lia.
      * f_equal. apply bool_decide_ext. lia.
Qed.

Lemma irq_clear_mask_run32 irq st :
  0 <= irq <= 32 ->
  exists st',
    irq_clear_mask irq st = Some (tt, st') /\
    irq_handlers st' = irq_handlers st /\
    forall j, 0 <= j < 16 ->
      line_masked st' j = line_masked st j && negb (bool_decide (j = irq)).
Proof.
  intros Hirq. unfold irq_clear_mask. rewrite assert_irq_range by exact Hirq.
  rewrite bind_run. cbn [ASSERT]. unfold ret at 1.
  destruct (irq <? 8) eqn:E.
  - apply Z.ltb_lt in E. eexists. split; [reflexivity|]. split; [reflexivity|].
    intros j Hj. unfold line_masked. cbn [pic1 pic2 set_pic1 log pic_data imr].
    destruct (j <? 8) eqn:Ej.
    + apply Z.ltb_lt in Ej. apply clear_mask_byte'; lia.
    + apply Z.ltb_ge in Ej. rewrite bool_decide_eq_false_2 by lia.
      rewrite andb_true_r. reflexivity.
  - apply Z.ltb_ge in E. eexists. split; [reflexivity|]. split; [reflexivity|].
    intros j Hj. unfold line_masked. cbn [pic1 pic2 set_pic2 log pic_data imr].
    destruct (j <? 8) eqn:Ej.
    + apply Z.ltb_lt in Ej. rewrite bool_decide_eq_false_2 by lia.
      rewrite andb_true_r. reflexivity.
    + apply Z.ltb_ge in Ej.
      transitivity (Z.testbit (imr (pic2 st)) (j - 8)
                    && negb (bool_decide (j - 8 = irq - 8))).
      * apply clear_mask_byte'; lia.
      * f_equal. f_equal. apply bool_decide_ext. lia.
Qed.

(** X5.  [irq_set_mask(irq)] and [irq_clear_mask(irq)] return for
    [0 <= irq <= 32] and panic on their assertion otherwise.  They set,
    respectively clear, the mask bit of line [irq] and leave the other
    lines and the handler table alone; for [16 <= irq <= 32], which the
    assertion lets through, no line changes at all. *)
Theorem irq_mask_ops (irq : Z) (st : kstate) :
  (0 <= irq <= 32 ->
   exists s1 s2,
     irq_set_mask irq st = Some (tt, s1) /\
     irq_clear_mask irq st = Some (tt, s2) /\
     irq_handlers s1 = irq_handlers st /\
     irq_handlers s2 = irq_handlers st /\
     forall j, 0 <= j < 16 ->
       line_masked s1 j = (if bool_decide (j = irq) then true
                           else line_masked st j) /\
       line_masked s2 j = (if bool_decide (j = irq) then false
                           else line_masked st j)) /\
  (irq < 0 \/ 32 < irq ->
   irq_set_mask irq st = None /\ irq_clear_mask irq st = None).
Proof.
  split.
  - intros Hirq.
    destruct (irq_set_mask_run irq st Hirq) as (s1 & H1 & Hh1 & Hm1).
    destruct (irq_clear_mask_run32 irq st Hirq) as (s2 & H2 & Hh2 & Hm2).
    exists s1, s2. repeat (split; [assumption|]).
    intros j Hj. rewrite (Hm1 j Hj), (Hm2 j Hj).
    destruct (bool_decide (j = irq)); simpl.
    + rewrite orb_true_r, andb_false_r. split; reflexivity.
    + rewrite orb_false_r, andb_true_r. split; reflexivity.
  - intros Hout. unfold irq_set_mask, irq_clear_mask.
    replace ((0 <=? irq) && (irq <=? 32)) with false.
    + split; reflexivity.
    + symmetry. apply andb_false_iff.
      destruct Hout; [left; apply Z.leb_gt|right; apply Z.leb_gt]; lia.
Qed.

Lemma irq_mask_ops_witness :
  exists s1 s2,
    irq_set_mask 20 boot_state = Some (tt, s1) /\
    irq_clear_mask 20 boot_state = Some (tt, s2) /\
    irq_handlers s1 = irq_handlers boot_state /\
    irq_handlers s2 = irq_handlers boot_state /\
    forall j, 0 <= j < 16 ->
      line_masked s1 j = (if bool_decide (j = 20) then true
                          else line_masked boot_state j) /\
      line_masked s2 j = (if bool_decide (j = 20) then false
                          else line_masked boot_state j).
Proof.
  apply (proj1 (irq_mask_ops 20 boot_state)). lia.
Defined.

(** ** Boot *)

Lemma outb_data1 val st :
  outb PIC1_DATA val st =
  Some (tt, set_pic1 (pic_data (wrap8 val)) (log (EvOutb PIC1_DATA (wrap8 val)) st)).
Proof. reflexivity. Qed.

Lemma outb_data2 val st :
  outb PIC2_DATA val st =
  Some (tt, set_pic2 (pic_data (wrap8 val)) (log (EvOutb PIC2_DATA (wrap8 val)) st)).
Proof. reflexivity. Qed.

Lemma inb_data1 st :
  inb PIC1_DATA st =
  Some (pic_read false (pic1 st),
        log (EvInb PIC1_DATA (pic_read false (pic1 st))) st).
Proof. reflexivity. Qed.

Lemma inb_data2 st :
  inb PIC2_DATA st =
  Some (pic_read false (pic2 st),
        log (EvInb PIC2_DATA (pic_read false (pic2 st))) st).
Proof. reflexivity. Qed.

Lemma wrap8_wrap8 v : wrap8 (wrap8 v) = wrap8 v.
Proof. unfold wrap8. apply Z.mod_mod. lia. Qed.

(** X6.  [PIC_remap] issues ICW1 to both command ports, then the two
    offsets, the cascade wiring (4 and 2) and ICW4 to the data ports,
    and ends by writing back to each data port the mask it read from it
    at entry: every line is masked after the call exactly when it was
    before, and nothing but the PICs and the trace changes. *)
Theorem PIC_remap_restores_masks (offset1 offset2 : Z) (st : kstate) :
  exists st',
    PIC_remap offset1 offset2 st = Some (tt, st') /\
    trace st' = trace st ++
      [EvInb PIC1_DATA (wrap8 (imr (pic1 st)));
       EvInb PIC2_DATA (wrap8 (imr (pic2 st)));
       EvOutb PIC1_COMMAND 0x11; EvOutb PIC2_COMMAND 0x11;
       EvOutb PIC1_DATA (wrap8 offset1); EvOutb PIC2_DATA (wrap8 offset2);
       EvOutb PIC1_DATA 4; EvOutb PIC2_DATA 2;
       EvOutb PIC1_DATA 1; EvOutb PIC2_DATA 1;
       EvOutb PIC1_DATA (wrap8 (imr (pic1 st)));
       EvOutb PIC2_DATA (wrap8 (imr (pic2 st)))] /\
    (forall j, 0 <= j < 16 -> line_masked st' j = line_masked st j) /\
    irq_handlers st' = irq_handlers st /\
    unhandled_irq_count st' = unhandled_irq_count st /\
    spur_irq_count st' = spur_irq_count st /\
    disable_preemption_count st' = disable_preemption_count st /\
    nested_interrupts st' = nested_interrupts st /\
    interrupts_enabled st' = interrupts_enabled st.
Proof.
  unfold PIC_remap.
  rewrite bind_run, inb_data1, bind_run, inb_data2.
  rewrite bind_run, outb_command1, bind_run, outb_command2.
  rewrite bind_run, outb_data1, bind_run, outb_data2.
  rewrite bind_run, outb_data1, bind_run, outb_data2.
  rewrite bind_run, outb_data1, bind_run, outb_data2.
  rewrite bind_run, outb_data1, outb_data2.
  eexists. split; [reflexivity|].
  cbn [trace log set_pic1 set_pic2 pic1 pic2 irq_handlers unhandled_irq_count
       spur_irq_count disable_preemption_count nested_interrupts
       interrupts_enabled].
  unfold pic_read. rewrite !wrap8_wrap8.
  split; [rewrite <- !app_assoc; reflexivity|].
  split; [|repeat split].
  intros j Hj. unfold line_masked.
  cbn [pic1 pic2 set_pic1 set_pic2 log pic_data imr].
  destruct (j <? 8) eqn:E; [apply Z.ltb_lt in E|apply Z.ltb_ge in E];
    apply wrap8_testbit; lia.
Qed.

Lemma byte_all_ones v :
  0 <= v < 256 -> (forall j, 0 <= j < 8 -> Z.testbit v j = true) -> v = 0xFF.
Proof.
  intros Hv Hb. apply Z.bits_inj'. intros n Hn.
  destruct (Z.lt_ge_cases n 8) as [Hlt|Hge].
  - rewrite Hb by lia.
    assert (Hc : n = 0 \/ n = 1 \/ n = 2 \/ n = 3 \/ n = 4 \/ n = 5 \/
                 n = 6 \/ n = 7) by lia.
    destruct Hc as [-> | [-> | [-> | [-> | [-> | [-> | [-> | ->]]]]]]];
      reflexivity.
  - rewrite <- (Z.mod_small v (2 ^ 8)) by lia.
    rewrite <- (Z.mod_small 255 (2 ^ 8)) by lia.
    rewrite !Z.mod_pow2_bits_high by lia. reflexivity.
Qed.

Lemma wrap8_range v : 0 <= wrap8 v < 256.
Proof. unfold wrap8. apply Z.mod_pos_bound. lia. Qed.

Lemma irq_set_mask_bytes irq st st' :
  irq_set_mask irq st = Some (tt, st') -> byte_masks st -> byte_masks st'.
Proof.
  unfold irq_set_mask, byte_masks.
  destruct ((0 <=? irq) && (irq <=? 32)); [|discriminate].
  cbn [ASSERT]. rewrite bind_run. unfold ret at 1.
  destruct (irq <? 8); intros [= <-] [H1 H2]; cbn [pic1 pic2 set_pic1 set_pic2 log pic_data imr];
    split; try assumption; apply wrap8_range.
Qed.

Lemma mask_lines_run n : forall i st,
  0 <= i -> i + Z.of_nat n <= 33 -> byte_masks st ->
  exists st',
    mask_lines n i st = Some (tt, st') /\
    byte_masks st' /\
    irq_handlers st' = irq_handlers st /\
    forall j, 0 <= j < 16 ->
      line_masked st' j =
      line_masked st j || bool_decide (i <= j < i + Z.of_nat n).
Proof.
  induction n as [|n IH]; intros i st Hi Hn Hb.
  - exists st. split; [reflexivity|]. split; [exact Hb|].
    split; [reflexivity|].
    intros j Hj. rewrite bool_decide_eq_false_2 by lia.
    rewrite orb_false_r. reflexivity.
  - destruct (irq_set_mask_run i st) as (s1 & H1 & Hh1 & Hm1); [lia|].
    destruct (IH (i + 1) s1) as (st' & H2 & Hb2 & Hh2 & Hm2); [lia|lia| |].
    { eapply irq_set_mask_bytes; eassumption. }
    exists st'. split.
    { cbn [mask_lines]. rewrite bind_run, H1. exact H2. }
    split; [exact Hb2|]. split; [congruence|].
    intros j Hj. rewrite (Hm2 j Hj), (Hm1 j Hj), <- orb_assoc. f_equal.
    destruct (decide (j = i)) as [->|Hne].
    + rewrite bool_decide_eq_true_2 by reflexivity.
      rewrite (bool_decide_eq_true_2 (i <= i < i + Z.of_nat (S n))) by lia.
      reflexivity.
    + rewrite (bool_decide_eq_false_2 (j = i)) by exact Hne.
      cbn [orb]. apply bool_decide_ext. lia.
Qed.

Lemma PIC_remap_run offset1 offset2 st :
  exists st',
    PIC_remap offset1 offset2 st = Some (tt, st') /\
    imr (pic1 st') = wrap8 (imr (pic1 st)) /\
    imr (pic2 st') = wrap8 (imr (pic2 st)) /\
    irq_handlers st' = irq_handlers st.
Proof.
  unfold PIC_remap.
  rewrite bind_run, inb_data1, bind_run, inb_data2.
  rewrite bind_run, outb_command1, bind_run, outb_command2.
  rewrite bind_run, outb_data1, bind_run, outb_data2.
  rewrite bind_run, outb_data1, bind_run, outb_data2.
  rewrite bind_run, outb_data1, bind_run, outb_data2.
  rewrite bind_run, outb_data1, outb_data2.
  eexists. split; [reflexivity|].
  cbn [pic1 pic2 set_pic1 set_pic2 log pic_data imr irq_handlers].
  unfold pic_read. rewrite !wrap8_wrap8. repeat split.
Qed.

(** X7.  [setup_irq_handling] returns from any state and leaves every
    one of the 16 lines masked, both mask registers holding 0xFF,
    without touching the handler table: started with an empty table it
    establishes [fully_masked]. *)
Theorem setup_irq_handling_masks_all (st : kstate) :
  exists st',
    setup_irq_handling st = Some (tt, st') /\
    (forall j, 0 <= j < 16 -> line_masked st' j = true) /\
    imr (pic1 st') = 0xFF /\
    imr (pic2 st') = 0xFF /\
    irq_handlers st' = irq_handlers st.
Proof.
  destruct (PIC_remap_run 32 40 st) as (s1 & H1 & Hi1 & Hi2 & Hh1).
  destruct (mask_lines_run 16 0 s1) as (st' & H2 & Hb & Hh2 & Hm);
    [lia|simpl; lia| |].
  { split; [rewrite Hi1|rewrite Hi2]; apply wrap8_range. }
  assert (Hall : forall j, 0 <= j < 16 -> line_masked st' j = true).
  { intros j Hj. rewrite (Hm j Hj).
    rewrite bool_decide_eq_true_2 by (simpl; lia). apply orb_true_r. }
  exists st'. split.
  { unfold setup_irq_handling. rewrite bind_run, H1. exact H2. }
  split; [exact Hall|].
  destruct Hb as [Hb1 Hb2].
  split; [|split; [|congruence]].
  - apply byte_all_ones; [exact Hb1|]. intros j Hj.
    specialize (Hall j ltac:(lia)). unfold line_masked in Hall.
    replace (j <? 8) with true in Hall by (symmetry; apply Z.ltb_lt; lia).
    exact Hall.
  - apply byte_all_ones; [exact Hb2|]. intros j Hj.
    specialize (Hall (j + 8) ltac:(lia)). unfold line_masked in Hall.
    replace (j + 8 <? 8) with false in Hall by (symmetry; apply Z.ltb_ge; lia).
    replace (j + 8 - 8) with j in Hall by lia.
    exact Hall.
Qed.

(** ** Serving an interrupt *)

Lemma modify_run f st : modify f st = Some (tt, f st).
Proof. reflexivity. Qed.

Lemma get_run st : get st = Some (st, st).
Proof. reflexivity. Qed.

Lemma ret_run {A} (a : A) st : ret a st = Some (a, st).
Proof. reflexivity. Qed.

Ltac mstep :=
  repeat first [rewrite bind_run | rewrite modify_run | rewrite get_run
               | rewrite ret_run].

Ltac proj_simpl :=
  cbn [pic1 pic2 trace irq_handlers unhandled_irq_count spur_irq_count
       disable_preemption_count nested_interrupts interrupts_enabled
       set_pic1 set_pic2 log set_irq_handlers set_unhandled set_spur
       set_preempt set_nested set_interrupts imr pic_data].

Lemma imr_pic_command v p : imr (pic_command v p) = imr p.
Proof.
  unfold pic_command.
  destruct (v =? PIC_EOI); [reflexivity|].
  destruct (v =? PIC_READ_IRR); [reflexivity|].
  destruct (v =? PIC_READ_ISR); reflexivity.
Qed.

(** The mask bit of line [j] after line [irq] was masked or unmasked
    through the data port of its PIC. *)
Ltac mask_bits irq j :=
  unfold pic_read;
  destruct (j <? 8) eqn:?Ej; [apply Z.ltb_lt in Ej|apply Z.ltb_ge in Ej];
  rewrite ?andb_true_r, ?andb_false_r;
  try rewrite set_mask_byte by lia;
  try rewrite clear_mask_byte' by lia;
  try (destruct (decide (j - 8 = irq - 8));
       [rewrite (bool_decide_eq_true_2 (j - 8 = irq - 8)) by assumption
       |rewrite (bool_decide_eq_false_2 (j - 8 = irq - 8)) by assumption]);
  (destruct (decide (j = irq));
   [rewrite ?(bool_decide_eq_true_2 (j = irq)) by assumption
   |rewrite ?(bool_decide_eq_false_2 (j = irq)) by assumption]);
  try lia;
  cbn [negb andb orb];
  rewrite ?orb_true_r, ?orb_false_r, ?andb_true_r, ?andb_false_r;
  try reflexivity.

Lemma serve_split track ch r irq st :
  handle_irq_serve track ch r irq st =
  (irq_prologue track r irq;;
   hr ← irq_dispatch ch r irq;
   irq_epilogue track irq hr) st.
Proof.
  unfold handle_irq_serve, irq_prologue, disable_preemption,
    push_nested_interrupt, enable_interrupts_forced.
  mstep.
  destruct (handle_irq_set_mask track irq st) as [[[] s1]|]; [|reflexivity].
  mstep.
  match goal with |- context [ASSERT ?b] => destruct b end;
    [|reflexivity].
  cbn [ASSERT]. mstep.
  match goal with |- context [pic_send_eoi irq ?s] =>
    destruct (pic_send_eoi irq s) as [[[] s2]|] end; [|reflexivity].
  mstep. reflexivity.
Qed.

Lemma prologue_run track r irq st :
  0 <= irq < 16 ->
  interrupts_enabled st = false ->
  exists st_p evs,
    irq_prologue track r irq st = Some (tt, st_p) /\
    trace st_p = trace st ++ evs /\
    handler_calls evs = [] /\
    sched_events evs = [] /\
    eoi_count PIC1_COMMAND evs = 1%nat /\
    eoi_count PIC2_COMMAND evs = (if 8 <=? irq then 1%nat else 0%nat) /\
    interrupts_enabled st_p = true /\
    disable_preemption_count st_p = disable_preemption_count st + 1 /\
    nested_interrupts st_p = int_num r :: nested_interrupts st /\
    irq_handlers st_p = irq_handlers st /\
    unhandled_irq_count st_p = unhandled_irq_count st /\
    forall j, 0 <= j < 16 ->
      line_masked st_p j =
      (if bool_decide (j = irq) && negb (nests track irq) then true
       else line_masked st j).
Proof.
  intros Hirq Hie.
  unfold irq_prologue, handle_irq_set_mask, pic_send_eoi, irq_set_mask,
    disable_preemption, push_nested_interrupt, enable_interrupts_forced, nests.
  assert (Hr1 : (0 <=? irq) && (irq <=? 32) = true)
    by (apply assert_irq_range; lia).
  assert (Hr2 : (0 <=? irq) && (irq <=? 256) = true)
    by (apply andb_true_iff; split; apply Z.leb_le; lia).
  rewrite Hr1, Hr2. cbn [ASSERT].
  destruct (irq <? 8) eqn:E8; [apply Z.ltb_lt in E8|apply Z.ltb_ge in E8].
  - replace (8 <=? irq) with false by (symmetry; apply Z.leb_gt; lia).
    destruct track, (irq =? 0) eqn:E0; cbn [negb andb];
      (eexists _, _; split;
       [mstep; rewrite ?inb_data1; mstep; rewrite ?outb_data1; mstep;
        proj_simpl; rewrite Hie; cbn [negb ASSERT]; mstep;
        rewrite outb_command1; mstep; reflexivity|]);
      (split; [proj_simpl; rewrite <- ?app_assoc; try reflexivity|]).
    all: repeat (split; [reflexivity|]).
    all: intros j Hj; unfold line_masked; proj_simpl;
      rewrite ?imr_pic_command; proj_simpl.
    all: mask_bits irq j.
  - replace (8 <=? irq) with true by (symmetry; apply Z.leb_le; lia).
    replace (irq =? 0) with false by (symmetry; apply Z.eqb_neq; lia).
    destruct track; cbn [negb andb];
      (eexists _, _; split;
       [mstep; rewrite ?inb_data2; mstep; rewrite ?outb_data2; mstep;
        proj_simpl; rewrite Hie; cbn [negb ASSERT]; mstep;
        rewrite outb_command2; mstep; rewrite outb_command1; mstep;
        reflexivity|]);
      (split; [proj_simpl; rewrite <- ?app_assoc; try reflexivity|]).
    all: repeat (split; [reflexivity|]).
    all: intros j Hj; unfold line_masked; proj_simpl;
      rewrite ?imr_pic_command; proj_simpl.
    all: mask_bits irq j.
Qed.

Lemma epilogue_run track irq hr s :
  0 <= irq < 16 ->
  exists st' evs,
    irq_epilogue track irq hr s = Some (tt, st') /\
    trace st' = trace s ++ evs /\
    handler_calls evs = [] /\
    sched_events evs = bottom_half hr (disable_preemption_count s - 1) /\
    eoi_count PIC1_COMMAND evs = 0%nat /\
    eoi_count PIC2_COMMAND evs = 0%nat /\
    interrupts_enabled st' = interrupts_enabled s /\
    disable_preemption_count st' = disable_preemption_count s - 1 /\
    nested_interrupts st' = drop 1 (nested_interrupts s) /\
    irq_handlers st' = irq_handlers s /\
    unhandled_irq_count st' = unhandled_irq_count s /\
    forall j, 0 <= j < 16 ->
      line_masked st' j =
      (if bool_decide (j = irq) && negb (nests track irq) then false
       else line_masked s j).
Proof.
  intros Hirq.
  unfold irq_epilogue, handle_irq_clear_mask, irq_clear_mask,
    disable_preemption, enable_preemption, pop_nested_interrupt, nests,
    bottom_half.
  assert (Hr1 : (0 <=? irq) && (irq <=? 32) = true)
    by (apply assert_irq_range; lia).
  rewrite Hr1. cbn [ASSERT].
  assert (Hdpc : (1 <? disable_preemption_count s - 1 + 1) =
                 negb (disable_preemption_count s - 1 <=? 0)).
  { destruct (disable_preemption_count s - 1 <=? 0) eqn:E.
    - apply Z.leb_le in E. apply Z.ltb_ge. lia.
    - apply Z.leb_gt in E. apply Z.ltb_lt. lia. }
  destruct (irq <? 8) eqn:E8; [apply Z.ltb_lt in E8|apply Z.ltb_ge in E8].
  - destruct track, (irq =? 0) eqn:E0, (hr =? 0) eqn:Eh,
      (disable_preemption_count s - 1 <=? 0) eqn:Ed; cbn [negb andb];
      (eexists _, _; split;
       [mstep; rewrite ?inb_data1; mstep; rewrite ?outb_data1; mstep;
        proj_simpl; try rewrite Hdpc; cbn [negb]; mstep; reflexivity|]);
      (split; [proj_simpl; rewrite <- ?app_assoc; try reflexivity|]).
    all: try (symmetry; apply app_nil_r).
    all: repeat (split; [reflexivity|]).
    all: try (split; [proj_simpl; lia|]).
    all: repeat (split; [reflexivity|]).
    all: intros j Hj; unfold line_masked; proj_simpl.
    all: mask_bits irq j.
  - replace (irq =? 0) with false by (symmetry; apply Z.eqb_neq; lia).
    destruct track, (hr =? 0) eqn:Eh,
      (disable_preemption_count s - 1 <=? 0) eqn:Ed; cbn [negb andb];
      (eexists _, _; split;
       [mstep; rewrite ?inb_data2; mstep; rewrite ?outb_data2; mstep;
        proj_simpl; try rewrite Hdpc; cbn [negb]; mstep; reflexivity|]);
      (split; [proj_simpl; rewrite <- ?app_assoc; try reflexivity|]).
    all: try (symmetry; apply app_nil_r).
    all: repeat (split; [reflexivity|]).
    all: try (split; [proj_simpl; lia|]).
    all: repeat (split; [reflexivity|]).
    all: intros j Hj; unfold line_masked; proj_simpl.
    all: mask_bits irq j.
Qed.

Lemma spurious_check_pass track ch r st :
  let irq := int_num r - 32 in
  0 <= irq < 16 ->
  (irq = 7 \/ irq = 15 -> in_service st irq = true) ->
  handle_irq track ch r st =
  handle_irq_serve track ch r irq (after_spurious_check irq st).
Proof.
  intros irq Hirq Hserv. unfold handle_irq, after_spurious_check. fold irq.
  destruct ((irq =? 7) || (irq =? 15)) eqn:E.
  - assert (H715 : irq = 7 \/ irq = 15).
    { apply orb_true_iff in E. destruct E as [E|E]; apply Z.eqb_eq in E; tauto. }
    mstep. rewrite pic_get_isr_run. mstep.
    assert (Hbit : c_true (Z.land (Z.lor (wrap8 (isr (pic1 st)))
                                     (wrap16 (Z.shiftl (wrap8 (isr (pic2 st))) 8)))
                             (Z.shiftl 1 irq)) = true).
    { unfold c_true. apply negb_true_iff, Z.eqb_neq. intros H0.
      assert (Hb : Z.testbit (Z.land (Z.lor (wrap8 (isr (pic1 st)))
                    (wrap16 (Z.shiftl (wrap8 (isr (pic2 st))) 8)))
                    (Z.shiftl 1 irq)) irq = true).
      { rewrite Z.land_spec, isr_pair_testbit by lia.
        rewrite testbit_shiftl_1 by lia.
        rewrite bool_decide_eq_true_2 by reflexivity.
        rewrite andb_true_r. exact (Hserv H715). }
      rewrite H0, Z.bits_0 in Hb. discriminate. }
    rewrite Hbit. reflexivity.
  - mstep. reflexivity.
Qed.

Lemma after_spurious_check_frame irq st :
  trace (after_spurious_check irq st) =
    trace st ++ spurious_check_events irq st /\
  interrupts_enabled (after_spurious_check irq st) = interrupts_enabled st /\
  disable_preemption_count (after_spurious_check irq st) =
    disable_preemption_count st /\
  nested_interrupts (after_spurious_check irq st) = nested_interrupts st /\
  irq_handlers (after_spurious_check irq st) = irq_handlers st /\
  unhandled_irq_count (after_spurious_check irq st) =
    unhandled_irq_count st /\
  forall j, line_masked (after_spurious_check irq st) j = line_masked st j.
Proof.
  unfold after_spurious_check, spurious_check_events.
  destruct ((irq =? 7) || (irq =? 15)).
  - split; [simpl; rewrite <- !app_assoc; reflexivity|].
    repeat split.
  - split; [symmetry; apply app_nil_r|]. repeat split.
Qed.

Lemma dispatch_handler ch r irq h st :
  0 <= irq < 16 ->
  irq_handlers st !! Z.to_nat irq = Some h -> h <> 0 ->
  irq_dispatch ch r irq st = ch h r (log (EvCallHandler h) st).
Proof.
  intros Hirq Hh Hne. unfold irq_dispatch. mstep.
  replace ((0 <=? irq) && (irq <? 16)) with true.
  - rewrite Hh. replace (h =? 0) with false by (symmetry; apply Z.eqb_neq; lia).
    cbn [negb]. mstep. reflexivity.
  - symmetry. apply andb_true_iff. split; [apply Z.leb_le|apply Z.ltb_lt]; lia.
Qed.

Lemma dispatch_null ch r irq st :
  0 <= irq < 16 ->
  irq_handlers st !! Z.to_nat irq = Some 0 ->
  irq_dispatch ch r irq st =
  Some (0, set_unhandled (alter (fun c => wrap32 (c + 1)) (Z.to_nat irq)) st).
Proof.
  intros Hirq Hh. unfold irq_dispatch. mstep.
  replace ((0 <=? irq) && (irq <? 16)) with true.
  - rewrite Hh. change (0 =? 0) with true. cbn [negb]. mstep. reflexivity.
  - symmetry. apply andb_true_iff. split; [apply Z.leb_le|apply Z.ltb_lt]; lia.
Qed.

Lemma handler_calls_app l1 l2 :
  handler_calls (l1 ++ l2) = handler_calls l1 ++ handler_calls l2.
Proof. apply List.filter_app. Qed.

Lemma sched_events_app l1 l2 :
  sched_events (l1 ++ l2) = sched_events l1 ++ sched_events l2.
Proof. apply List.filter_app. Qed.

Lemma eoi_count_app port l1 l2 :
  eoi_count port (l1 ++ l2) = (eoi_count port l1 + eoi_count port l2)%nat.
Proof. unfold eoi_count. rewrite filter_app, length_app. reflexivity. Qed.

Lemma spurious_check_events_quiet irq st :
  handler_calls (spurious_check_events irq st) = [] /\
  sched_events (spurious_check_events irq st) = [] /\
  eoi_count PIC1_COMMAND (spurious_check_events irq st) = 0%nat /\
  eoi_count PIC2_COMMAND (spurious_check_events irq st) = 0%nat.
Proof.
  unfold spurious_check_events.
  destruct ((irq =? 7) || (irq =? 15)); repeat split.
Qed.

(** X8.  What a handler finds when [handle_irq] calls it.  For a line
    [irq] of the table that passed the spurious-IRQ check, entered with
    interrupts disabled and with a handler [h] other than NULL
    installed, [handle_irq] goes on as the call of [h] in a state
    [st_h] followed by the rest of the function, where: the EOI has
    already gone out (one to the master, one to the slave for lines 8 to
    15) and no handler has run yet, interrupts are enabled, the
    preemption counter is one higher, the vector is on top of the stack
    of nested interrupts, and line [irq] is masked (except the timer
    line 0 of a kernel that tracks nested interrupts) while the masks of
    the other lines are as at entry. *)
Theorem handle_irq_handler_entry (track : bool)
    (call_handler : Z -> regs -> M Z) (r : regs) (st : kstate) (h : Z) :
  let irq := int_num r - 32 in
  0 <= irq < 16 ->
  (irq = 7 \/ irq = 15 -> in_service st irq = true) ->
  interrupts_enabled st = false ->
  irq_handlers st !! Z.to_nat irq = Some h ->
  h <> 0 ->
  exists st_h evs,
    handle_irq track call_handler r st =
      (hr ← call_handler h r; irq_epilogue track irq hr) st_h /\
    trace st_h = trace st ++ evs ++ [EvCallHandler h] /\
    handler_calls evs = [] /\
    sched_events evs = [] /\
    eoi_count PIC1_COMMAND evs = 1%nat /\
    eoi_count PIC2_COMMAND evs = (if 8 <=? irq then 1%nat else 0%nat) /\
    interrupts_enabled st_h = true /\
    disable_preemption_count st_h = disable_preemption_count st + 1 /\
    nested_interrupts st_h = int_num r :: nested_interrupts st /\
    irq_handlers st_h = irq_handlers st /\
    forall j, 0 <= j < 16 ->
      line_masked st_h j =
      (if bool_decide (j = irq) && negb (nests track irq) then true
       else line_masked st j).
Proof.
  intros irq Hirq Hserv Hie Hh Hne.
  destruct (after_spurious_check_frame irq st)
    as (Ft & Fie & Fd & Fn & Fh & Fu & Fm).
  destruct (spurious_check_events_quiet irq st) as (Qh & Qs & Q1 & Q2).
  destruct (prologue_run track r irq (after_spurious_check irq st) Hirq)
    as (st_p & evs & Hrun & Pt & Ph & Ps & P1 & P2 & Pie & Pd & Pn & Phd & Pu & Pm).
  { rewrite Fie. exact Hie. }
  exists (log (EvCallHandler h) st_p), (spurious_check_events irq st ++ evs).
  split.
  { unfold irq. rewrite spurious_check_pass by assumption. fold irq.
    rewrite serve_split. mstep. rewrite Hrun. mstep.
    rewrite (dispatch_handler call_handler r irq h st_p Hirq);
      [reflexivity| |exact Hne].
    rewrite Phd, Fh. exact Hh. }
  split. { cbn [trace log]. rewrite Pt, Ft, <- !app_assoc. reflexivity. }
  split. { rewrite handler_calls_app, Qh, Ph. reflexivity. }
  split. { rewrite sched_events_app, Qs, Ps. reflexivity. }
  split. { rewrite eoi_count_app, Q1, P1. reflexivity. }
  split. { rewrite eoi_count_app, Q2, P2. reflexivity. }
  split. { exact Pie. }
  split. { cbn [disable_preemption_count log]. rewrite Pd, Fd. reflexivity. }
  split. { cbn [nested_interrupts log]. rewrite Pn, Fn. reflexivity. }
  split. { cbn [irq_handlers log]. rewrite Phd, Fh. reflexivity. }
  intros j Hj. transitivity (line_masked st_p j); [reflexivity|].
  rewrite (Pm j Hj), Fm. reflexivity.
Qed.

Lemma handle_irq_handler_entry_witness :
  exists st_h evs,
    handle_irq false (handler_returning 1) {| int_num := 35 |} s4_handler =
      (hr ← handler_returning 1 0x1000 {| int_num := 35 |};
       irq_epilogue false 3 hr) st_h /\
    trace st_h = trace s4_handler ++ evs ++ [EvCallHandler 0x1000] /\
    handler_calls evs = [] /\
    sched_events evs = [] /\
    eoi_count PIC1_COMMAND evs = 1%nat /\
    eoi_count PIC2_COMMAND evs = 0%nat /\
    interrupts_enabled st_h = true /\
    disable_preemption_count st_h = 1 /\
    nested_interrupts st_h = [35] /\
    irq_handlers st_h = irq_handlers s4_handler /\
    forall j, 0 <= j < 16 ->
      line_masked st_h j =
      (if bool_decide (j = 3) && negb (nests false 3) then true
       else line_masked s4_handler j).
Proof.
  apply (handle_irq_handler_entry false (handler_returning 1)
           {| int_num := 35 |} s4_handler 0x1000).
  - cbn. lia.
  - cbn. intros [H|H]; discriminate H.
  - reflexivity.
  - reflexivity.
  - discriminate.
Defined.

(** X9.  A whole pass through [handle_irq] with a handler that returns
    [hr], leaves the events [hevs] in the trace and restores the
    preemption counter, the stack of nested interrupts, the masks and
    the handler table.  The function returns, and its trace is: what it
    does before the handler, the call of the handler, the handler's own
    events [hevs], what it does after the handler.  Before the handler
    the EOI goes out (one to the master, one more to the slave for
    lines 8 to 15), no handler is called and the scheduler is not
    entered; after the handler no EOI goes out, no handler is called,
    and the scheduler is entered (state saved, then [schedule]) exactly
    when [hr] is not 0 and the preemption counter was at most 0 at
    entry.  The counter and the stack of nested interrupts are back at
    their values at entry; and line [irq] is left unmasked, whatever
    its mask was before (except line 0 of a kernel that tracks nested
    interrupts, which is not touched), the other lines keeping their
    masks. *)
Theorem handle_irq_serves (track : bool)
    (call_handler : Z -> regs -> M Z) (r : regs) (st : kstate) (h hr : Z)
    (hevs : list event) :
  let irq := int_num r - 32 in
  0 <= irq < 16 ->
  (irq = 7 \/ irq = 15 -> in_service st irq = true) ->
  interrupts_enabled st = false ->
  irq_handlers st !! Z.to_nat irq = Some h ->
  h <> 0 ->
  handler_restores call_handler h r hr hevs ->
  exists st' evs_pre evs_post,
    handle_irq track call_handler r st = Some (tt, st') /\
    trace st' =
      trace st ++ evs_pre ++ [EvCallHandler h] ++ hevs ++ evs_post /\
    handler_calls evs_pre = [] /\
    eoi_count PIC1_COMMAND evs_pre = 1%nat /\
    eoi_count PIC2_COMMAND evs_pre = (if 8 <=? irq then 1%nat else 0%nat) /\
    sched_events evs_pre = [] /\
    handler_calls evs_post = [] /\
    eoi_count PIC1_COMMAND evs_post = 0%nat /\
    eoi_count PIC2_COMMAND evs_post = 0%nat /\
    sched_events evs_post = bottom_half hr (disable_preemption_count st) /\
    disable_preemption_count st' = disable_preemption_count st /\
    nested_interrupts st' = nested_interrupts st /\
    irq_handlers st' = irq_handlers st /\
    forall j, 0 <= j < 16 ->
      line_masked st' j =
      (if bool_decide (j = irq) && negb (nests track irq) then false
       else line_masked st j).
Proof.
  intros irq Hirq Hserv Hie Hh Hne Hres.
  destruct (after_spurious_check_frame irq st)
    as (Ft & Fie & Fd & Fn & Fh & Fu & Fm).
  destruct (spurious_check_events_quiet irq st) as (Qh & Qs & Q1 & Q2).
  destruct (prologue_run track r irq (after_spurious_check irq st) Hirq)
    as (st_p & evs & Hrun & Pt & Ph & Ps & P1 & P2 & Pie & Pd & Pn & Phd & Pu & Pm).
  { rewrite Fie. exact Hie. }
  destruct (Hres (log (EvCallHandler h) st_p))
    as (s & Hcall & Ht & Hd & Hn & Hm & Hhd).
  destruct (epilogue_run track irq hr s Hirq)
    as (st' & evs_post & Erun & Et & Eh & Es & E1 & E2 & Eie & Ed & En & Ehd & Eu & Em).
  exists st', (spurious_check_events irq st ++ evs), evs_post.
  split.
  { unfold irq. rewrite spurious_check_pass by assumption. fold irq.
    rewrite serve_split. mstep. rewrite Hrun. mstep.
    rewrite (dispatch_handler call_handler r irq h st_p Hirq);
      [|rewrite Phd, Fh; exact Hh|exact Hne].
    rewrite Hcall. exact Erun. }
  split.
  { rewrite Et, Ht. cbn [trace log]. rewrite Pt, Ft, <- !app_assoc.
    reflexivity. }
  split. { rewrite handler_calls_app, Qh, Ph. reflexivity. }
  split. { rewrite eoi_count_app, Q1, P1. reflexivity. }
  split. { rewrite eoi_count_app, Q2, P2. reflexivity. }
  split. { rewrite sched_events_app, Qs, Ps. reflexivity. }
  split. { exact Eh. }
  split. { exact E1. }
  split. { exact E2. }
  split.
  { rewrite Es, Hd. cbn [disable_preemption_count log]. rewrite Pd, Fd.
    f_equal. lia. }
  split.
  { rewrite Ed, Hd. cbn [disable_preemption_count log]. rewrite Pd, Fd. lia. }
  split.
  { rewrite En, Hn. cbn [nested_interrupts log]. rewrite Pn, Fn.
    reflexivity. }
  split.
  { rewrite Ehd, Hhd. cbn [irq_handlers log]. rewrite Phd, Fh. reflexivity. }
  intros j Hj. rewrite (Em j Hj), Hm.
  change (line_masked (log (EvCallHandler h) st_p) j) with (line_masked st_p j).
  rewrite (Pm j Hj), Fm.
  destruct (bool_decide (j = irq) && negb (nests track irq)); reflexivity.
Qed.

Lemma handler_returning_restores v h r :
  handler_restores (handler_returning v) h r v [].
Proof.
  intros s0. exists s0. split; [reflexivity|].
  split; [symmetry; apply app_nil_r|]. repeat split.
Qed.

Lemma handle_irq_serves_witness :
  exists st' evs_pre evs_post,
    handle_irq false (handler_returning 1) {| int_num := 35 |} s4_handler =
      Some (tt, st') /\
    trace st' =
      trace s4_handler ++ evs_pre ++ [EvCallHandler 0x1000] ++ [] ++ evs_post /\
    handler_calls evs_pre = [] /\
    eoi_count PIC1_COMMAND evs_pre = 1%nat /\
    eoi_count PIC2_COMMAND evs_pre = 0%nat /\
    sched_events evs_pre = [] /\
    handler_calls evs_post = [] /\
    eoi_count PIC1_COMMAND evs_post = 0%nat /\
    eoi_count PIC2_COMMAND evs_post = 0%nat /\
    sched_events evs_post = [EvSaveCurrentTaskState; EvSchedule] /\
    disable_preemption_count st' = 0 /\
    nested_interrupts st' = [] /\
    irq_handlers st' = irq_handlers s4_handler /\
    forall j, 0 <= j < 16 ->
      line_masked st' j =
      (if bool_decide (j = 3) && negb (nests false 3) then false
       else line_masked s4_handler j).
Proof.
  apply (handle_irq_serves false (handler_returning 1)
           {| int_num := 35 |} s4_handler 0x1000 1 []).
  - cbn. lia.
  - cbn. intros [H|H]; discriminate H.
  - reflexivity.
  - reflexivity.
  - discriminate.
  - apply handler_returning_restores.
Defined.

(** X10.  An interrupt on a line without handler.  For a line [irq] of
    the table that passed the spurious-IRQ check, entered with
    interrupts disabled and with NULL in [irq_handlers[irq]],
    [handle_irq] returns after it has sent the EOI (one to the master,
    one to the slave for lines 8 to 15) and added one (modulo 2^32) to
    [unhandled_irq_count[irq]] only: no handler is called, the scheduler
    is not entered, the preemption counter and the stack of nested
    interrupts are as at entry, and line [irq] is left unmasked (except
    line 0 of a kernel that tracks nested interrupts). *)
Theorem handle_irq_unhandled (track : bool)
    (call_handler : Z -> regs -> M Z) (r : regs) (st : kstate) (c : Z) :
  let irq := int_num r - 32 in
  0 <= irq < 16 ->
  (irq = 7 \/ irq = 15 -> in_service st irq = true) ->
  interrupts_enabled st = false ->
  irq_handlers st !! Z.to_nat irq = Some 0 ->
  unhandled_irq_count st !! Z.to_nat irq = Some c ->
  exists st' evs,
    handle_irq track call_handler r st = Some (tt, st') /\
    trace st' = trace st ++ evs /\
    handler_calls evs = [] /\
    sched_events evs = [] /\
    eoi_count PIC1_COMMAND evs = 1%nat /\
    eoi_count PIC2_COMMAND evs = (if 8 <=? irq then 1%nat else 0%nat) /\
    unhandled_irq_count st' =
      <[Z.to_nat irq := wrap32 (c + 1)]> (unhandled_irq_count st) /\
    disable_preemption_count st' = disable_preemption_count st /\
    nested_interrupts st' = nested_interrupts st /\
    irq_handlers st' = irq_handlers st /\
    forall j, 0 <= j < 16 ->
      line_masked st' j =
      (if bool_decide (j = irq) && negb (nests track irq) then false
       else line_masked st j).
Proof.
  intros irq Hirq Hserv Hie Hh Hc.
  destruct (after_spurious_check_frame irq st)
    as (Ft & Fie & Fd & Fn & Fh & Fu & Fm).
  destruct (spurious_check_events_quiet irq st) as (Qh & Qs & Q1 & Q2).
  destruct (prologue_run track r irq (after_spurious_check irq st) Hirq)
    as (st_p & evs & Hrun & Pt & Ph & Ps & P1 & P2 & Pie & Pd & Pn & Phd & Pu & Pm).
  { rewrite Fie. exact Hie. }
  destruct (epilogue_run track irq 0
              (set_unhandled (alter (fun c => wrap32 (c + 1)) (Z.to_nat irq))
                 st_p) Hirq)
    as (st' & evs_post & Erun & Et & Eh & Es & E1 & E2 & Eie & Ed & En & Ehd & Eu & Em).
  exists st', ((spurious_check_events irq st ++ evs) ++ evs_post).
  split.
  { unfold irq. rewrite spurious_check_pass by assumption. fold irq.
    rewrite serve_split. mstep. rewrite Hrun. mstep.
    rewrite (dispatch_null call_handler r irq st_p Hirq);
      [|rewrite Phd, Fh; exact Hh].
    exact Erun. }
  split.
  { rewrite Et. cbn [trace set_unhandled].
    rewrite Pt, Ft, <- !app_assoc. reflexivity. }
  split. { rewrite !handler_calls_app, Qh, Ph, Eh. reflexivity. }
  split. { rewrite !sched_events_app, Qs, Ps, Es. reflexivity. }
  split. { rewrite !eoi_count_app, Q1, P1, E1. reflexivity. }
  split. { rewrite !eoi_count_app, Q2, P2, E2. lia. }
  split.
  { rewrite Eu. cbn [unhandled_irq_count set_unhandled].
    rewrite Pu, Fu. apply list_eq. intros k.
    destruct (decide (k = Z.to_nat irq)) as [->|Hk].
    - rewrite list_lookup_alter_eq, Hc.
      rewrite list_lookup_insert_eq by (eapply lookup_lt_Some; exact Hc).
      reflexivity.
    - rewrite list_lookup_alter_ne, list_lookup_insert_ne by congruence.
      reflexivity. }
  split.
  { rewrite Ed. cbn [disable_preemption_count set_unhandled].
    rewrite Pd, Fd. lia. }
  split.
  { rewrite En. cbn [nested_interrupts set_unhandled].
    rewrite Pn, Fn. reflexivity. }
  split.
  { rewrite Ehd. cbn [irq_handlers set_unhandled].
    rewrite Phd, Fh. reflexivity. }
  intros j Hj. rewrite (Em j Hj).
  change (line_masked (set_unhandled _ st_p) j) with (line_masked st_p j).
  rewrite (Pm j Hj), Fm.
  destruct (bool_decide (j = irq) && negb (nests track irq)); reflexivity.
Qed.

Lemma handle_irq_unhandled_witness :
  exists st' evs,
    handle_irq true (handler_returning 1) {| int_num := 35 |} s4_unhandled =
      Some (tt, st') /\
    trace st' = trace s4_unhandled ++ evs /\
    handler_calls evs = [] /\
    sched_events evs = [] /\
    eoi_count PIC1_COMMAND evs = 1%nat /\
    eoi_count PIC2_COMMAND evs = 0%nat /\
    unhandled_irq_count st' =
      <[3%nat := 1]> (unhandled_irq_count s4_unhandled) /\
    disable_preemption_count st' = 0 /\
    nested_interrupts st' = [] /\
    irq_handlers st' = irq_handlers s4_unhandled /\
    forall j, 0 <= j < 16 ->
      line_masked st' j =
      (if bool_decide (j = 3) && negb (nests true 3) then false
       else line_masked s4_unhandled j).
Proof.
  apply (handle_irq_unhandled true (handler_returning 1)
           {| int_num := 35 |} s4_unhandled 0).
  - cbn. lia.
  - cbn. intros [H|H]; discriminate H.
  - reflexivity.
  - reflexivity.
  - reflexivity.
Defined.

(** ** Installation, then an interrupt *)

Lemma install_run irq h st :
  0 <= irq < 16 ->
  length (irq_handlers st) = 16%nat ->
  exists st1,
    irq_install_handler irq h st = Some (tt, st1) /\
    line_masked st1 irq = false /\
    irq_handlers st1 !! Z.to_nat irq = Some h /\
    in_service st1 irq = in_service st irq /\
    interrupts_enabled st1 = interrupts_enabled st.
Proof.
  intros Hirq Hlen.
  unfold irq_install_handler, store_handler, irq_clear_mask.
  rewrite wrap8_small by lia.
  replace ((0 <=? irq) && (irq <? 16)) with true
    by (symmetry; apply andb_true_iff; split;
        [apply Z.leb_le|apply Z.ltb_lt]; lia).
  rewrite assert_irq_range by lia. cbn [ASSERT].
  destruct (irq <? 8) eqn:E8; [apply Z.ltb_lt in E8|apply Z.ltb_ge in E8].
  - eexists. split.
    { mstep. rewrite inb_data1. mstep. rewrite outb_data1. reflexivity. }
    split.
    { unfold line_masked. replace (irq <? 8) with true
        by (symmetry; apply Z.ltb_lt; lia).
      proj_simpl. unfold pic_read.
      rewrite clear_mask_byte' by lia.
      rewrite bool_decide_eq_true_2 by reflexivity. apply andb_false_r. }
    split.
    { proj_simpl. apply list_lookup_insert_eq. lia. }
    split; reflexivity.
  - eexists. split.
    { mstep. rewrite inb_data2. mstep. rewrite outb_data2. reflexivity. }
    split.
    { unfold line_masked. replace (irq <? 8) with false
        by (symmetry; apply Z.ltb_ge; lia).
      proj_simpl. unfold pic_read.
      rewrite clear_mask_byte' by lia.
      rewrite bool_decide_eq_true_2 by reflexivity. apply andb_false_r. }
    split.
    { proj_simpl. apply list_lookup_insert_eq. lia. }
    split; reflexivity.
Qed.

(** X11.  A handler installed with [irq_install_handler] is the one the
    next interrupt on that line reaches.  From a state with interrupts
    disabled, the installation of [h], not NULL, on a line [irq] of the
    table returns and leaves the line unmasked; [handle_irq] for that
    line (not spurious) then sends the EOI and calls [h], and no other
    handler before it. *)
Theorem installed_handler_is_called (track : bool)
    (call_handler : Z -> regs -> M Z) (r : regs) (st : kstate) (h : Z) :
  let irq := int_num r - 32 in
  0 <= irq < 16 ->
  length (irq_handlers st) = 16%nat ->
  (irq = 7 \/ irq = 15 -> in_service st irq = true) ->
  interrupts_enabled st = false ->
  h <> 0 ->
  exists st1 st_h evs,
    irq_install_handler irq h st = Some (tt, st1) /\
    line_masked st1 irq = false /\
    handle_irq track call_handler r st1 =
      (hr ← call_handler h r; irq_epilogue track irq hr) st_h /\
    trace st_h = trace st1 ++ evs ++ [EvCallHandler h] /\
    handler_calls evs = [] /\
    eoi_count PIC1_COMMAND evs = 1%nat.
Proof.
  intros irq Hirq Hlen Hserv Hie Hne.
  destruct (install_run irq h st Hirq Hlen)
    as (st1 & Hinst & Hm & Hh & His & Hie1).
  destruct (after_spurious_check_frame irq st1)
    as (Ft & Fie & Fd & Fn & Fh & Fu & Fm).
  destruct (spurious_check_events_quiet irq st1) as (Qh & Qs & Q1 & Q2).
  destruct (prologue_run track r irq (after_spurious_check irq st1) Hirq)
    as (st_p & evs & Hrun & Pt & Ph & Ps & P1 & P2 & Pie & Pd & Pn & Phd & Pu & Pm).
  { rewrite Fie, Hie1. exact Hie. }
  exists st1, (log (EvCallHandler h) st_p),
    (spurious_check_events irq st1 ++ evs).
  split; [exact Hinst|]. split; [exact Hm|].
  split.
  { unfold irq. rewrite spurious_check_pass;
      [|exact Hirq|fold irq; rewrite His; exact Hserv].
    fold irq. rewrite serve_split. mstep. rewrite Hrun. mstep.
    rewrite (dispatch_handler call_handler r irq h st_p Hirq);
      [reflexivity| |exact Hne].
    rewrite Phd, Fh. exact Hh. }
  split. { cbn [trace log]. rewrite Pt, Ft, <- !app_assoc. reflexivity. }
  split. { rewrite handler_calls_app, Qh, Ph. reflexivity. }
  rewrite eoi_count_app, Q1, P1. reflexivity.
Qed.

Lemma installed_handler_is_called_witness :
  exists st1 st_h evs,
    irq_install_handler 9 0x2000 boot_state = Some (tt, st1) /\
    line_masked st1 9 = false /\
    handle_irq true (handler_returning 0) {| int_num := 41 |} st1 =
      (hr ← handler_returning 0 0x2000 {| int_num := 41 |};
       irq_epilogue true 9 hr) st_h /\
    trace st_h = trace st1 ++ evs ++ [EvCallHandler 0x2000] /\
    handler_calls evs = [] /\
    eoi_count PIC1_COMMAND evs = 1%nat.
Proof.
  apply (installed_handler_is_called true (handler_returning 0)
           {| int_num := 41 |} boot_state 0x2000).
  - cbn. lia.
  - reflexivity.
  - cbn. intros [H|H]; discriminate H.
  - reflexivity.
  - discriminate.
Defined.

(** ** Reading the registers *)

Lemma imr_pair_testbit lo hi n :
  0 <= n < 16 ->
  Z.testbit (Z.lor (wrap8 lo) (Z.shiftl (wrap8 hi) 8)) n =
  if n <? 8 then Z.testbit lo n else Z.testbit hi (n - 8).
Proof.
  intros Hn. rewrite Z.lor_spec, Z.shiftl_spec by lia.
  destruct (n <? 8) eqn:E.
  - apply Z.ltb_lt in E. rewrite wrap8_testbit by lia.
    rewrite (Z.testbit_neg_r (wrap8 hi)) by lia. apply orb_false_r.
  - apply Z.ltb_ge in E. rewrite wrap8_testbit_high by lia.
    rewrite wrap8_testbit by lia. reflexivity.
Qed.

(** X23.  [pic_get_imr], [pic_get_isr] and [pic_get_irr] return the
    16 lines of the register they are named after, line [j] in bit [j]
    (master in the low byte, slave in the high byte), whatever register
    an earlier OCW3 selected: [pic_get_irr] gives the same value right
    after [pic_get_isr].  None of them changes a mask, an in-service or
    request bit, or the handler table. *)
Theorem pic_registers_read (st : kstate) :
  exists v_imr s1 v_isr s2 v_irr s3 s4,
    pic_get_imr st = Some (v_imr, s1) /\
    pic_get_isr st = Some (v_isr, s2) /\
    pic_get_irr st = Some (v_irr, s3) /\
    pic_get_irr s2 = Some (v_irr, s4) /\
    (forall j, 0 <= j < 16 ->
       Z.testbit v_imr j = line_masked st j /\
       Z.testbit v_isr j = in_service st j /\
       Z.testbit v_irr j = raised st j) /\
    (forall s, s = s1 \/ s = s2 \/ s = s3 \/ s = s4 ->
       irq_handlers s = irq_handlers st /\
       forall j, line_masked s j = line_masked st j /\
                 in_service s j = in_service st j /\
                 raised s j = raised st j).
Proof.
  unfold pic_get_imr, pic_get_isr, pic_get_irr, __pic_get_irq_reg.
  eexists _, _, _, _, _, _, _.
  split.
  { rewrite bind_run, inb_data1, bind_run, inb_data2. reflexivity. }
  split.
  { rewrite bind_run, outb_command1, bind_run, outb_command2.
    rewrite bind_run, inb_command1, bind_run, inb_command2. reflexivity. }
  split.
  { rewrite bind_run, outb_command1, bind_run, outb_command2.
    rewrite bind_run, inb_command1, bind_run, inb_command2. reflexivity. }
  split.
  { rewrite bind_run, outb_command1, bind_run, outb_command2.
    rewrite bind_run, inb_command1, bind_run, inb_command2. reflexivity. }
  split.
  - intros j Hj. unfold line_masked, in_service, raised.
    split; [|split].
    + apply imr_pair_testbit. exact Hj.
    + apply isr_pair_testbit. exact Hj.
    + apply isr_pair_testbit. exact Hj.
  - intros s [-> | [-> | [-> | ->]]]; (split; [reflexivity|]);
      intros j; repeat split.
Qed.

(** ** Removal, then an interrupt *)

Lemma uninstall_run irq st :
  0 <= irq < 16 ->
  length (irq_handlers st) = 16%nat ->
  irq_uninstall_handler irq st =
    Some (tt, set_irq_handlers (fun l => <[Z.to_nat irq := 0]> l) st) /\
  irq_handlers (set_irq_handlers (fun l => <[Z.to_nat irq := 0]> l) st)
    !! Z.to_nat irq = Some 0.
Proof.
  intros Hirq Hlen. unfold irq_uninstall_handler, store_handler.
  rewrite wrap8_small by lia.
  replace ((0 <=? irq) && (irq <? 16)) with true
    by (symmetry; apply andb_true_iff; split;
        [apply Z.leb_le|apply Z.ltb_lt]; lia).
  split; [reflexivity|]. cbn [irq_handlers set_irq_handlers].
  apply list_lookup_insert_eq. lia.
Qed.

(** X25.  [irq_uninstall_handler] takes the handler away but leaves the
    line as it is: after [irq_install_handler(irq, h)] and
    [irq_uninstall_handler(irq)] the line is still unmasked, and an
    interrupt on it (not spurious, interrupts disabled at entry) makes
    [handle_irq] return without calling [h] or any other handler, after
    it has counted the interrupt in [unhandled_irq_count[irq]]. *)
Theorem uninstalled_line_counts_unhandled (track : bool)
    (call_handler : Z -> regs -> M Z) (r : regs) (st : kstate) (h c : Z) :
  let irq := int_num r - 32 in
  0 <= irq < 16 ->
  length (irq_handlers st) = 16%nat ->
  (irq = 7 \/ irq = 15 -> in_service st irq = true) ->
  interrupts_enabled st = false ->
  unhandled_irq_count st !! Z.to_nat irq = Some c ->
  exists st1 st2 st3 evs,
    irq_install_handler irq h st = Some (tt, st1) /\
    irq_uninstall_handler irq st1 = Some (tt, st2) /\
    line_masked st2 irq = false /\
    handle_irq track call_handler r st2 = Some (tt, st3) /\
    trace st3 = trace st2 ++ evs /\
    handler_calls evs = [] /\
    unhandled_irq_count st3 !! Z.to_nat irq = Some (wrap32 (c + 1)).
Proof.
  intros irq Hirq Hlen Hserv Hie Hc.
  destruct (install_run irq h st Hirq Hlen)
    as (st1 & Hinst & Hm & Hh & His & Hie1).
  assert (Hlen1 : length (irq_handlers st1) = 16%nat).
  { revert Hinst. unfold irq_install_handler, store_handler, irq_clear_mask.
    rewrite wrap8_small by lia.
    replace ((0 <=? irq) && (irq <? 16)) with true
      by (symmetry; apply andb_true_iff; split;
          [apply Z.leb_le|apply Z.ltb_lt]; lia).
    rewrite assert_irq_range by lia. cbn [ASSERT].
    destruct (irq <? 8); mstep; rewrite ?inb_data1, ?inb_data2; mstep;
      rewrite ?outb_data1, ?outb_data2; intros [= <-]; proj_simpl;
      rewrite length_insert; exact Hlen. }
  assert (Hu1 : unhandled_irq_count st1 = unhandled_irq_count st).
  { revert Hinst. unfold irq_install_handler, store_handler, irq_clear_mask.
    rewrite wrap8_small by lia.
    replace ((0 <=? irq) && (irq <? 16)) with true
      by (symmetry; apply andb_true_iff; split;
          [apply Z.leb_le|apply Z.ltb_lt]; lia).
    rewrite assert_irq_range by lia. cbn [ASSERT].
    destruct (irq <? 8); mstep; rewrite ?inb_data1, ?inb_data2; mstep;
      rewrite ?outb_data1, ?outb_data2; intros [= <-]; reflexivity. }
  destruct (uninstall_run irq st1 Hirq Hlen1) as [Hun Hh2].
  set (st2 := set_irq_handlers (fun l => <[Z.to_nat irq := 0]> l) st1) in *.
  destruct (after_spurious_check_frame irq st2)
    as (Ft & Fie & Fd & Fn & Fh & Fu & Fm).
  destruct (spurious_check_events_quiet irq st2) as (Qh & Qs & Q1 & Q2).
  destruct (prologue_run track r irq (after_spurious_check irq st2) Hirq)
    as (st_p & evs & Hrun & Pt & Ph & Ps & P1 & P2 & Pie & Pd & Pn & Phd & Pu & Pm).
  { rewrite Fie. exact (eq_trans Hie1 Hie). }
  destruct (epilogue_run track irq 0
              (set_unhandled (alter (fun c => wrap32 (c + 1)) (Z.to_nat irq))
                 st_p) Hirq)
    as (st3 & evs_post & Erun & Et & Eh & Es & E1 & E2 & Eie & Ed & En & Ehd & Eu & Em).
  exists st1, st2, st3, ((spurious_check_events irq st2 ++ evs) ++ evs_post).
  split; [exact Hinst|]. split; [exact Hun|]. split; [exact Hm|].
  split.
  { unfold irq. rewrite spurious_check_pass;
      [|exact Hirq|fold irq; intros H715; rewrite <- (Hserv H715), <- His;
                    reflexivity].
    fold irq. rewrite serve_split. mstep. rewrite Hrun. mstep.
    rewrite (dispatch_null call_handler r irq st_p Hirq);
      [|rewrite Phd, Fh; exact Hh2].
    exact Erun. }
  split.
  { rewrite Et. cbn [trace set_unhandled].
    rewrite Pt, Ft, <- !app_assoc. reflexivity. }
  split. { rewrite !handler_calls_app, Qh, Ph, Eh. reflexivity. }
  rewrite Eu. cbn [unhandled_irq_count set_unhandled].
  rewrite Pu, Fu. change (unhandled_irq_count st2) with (unhandled_irq_count st1).
  rewrite Hu1, list_lookup_alter_eq, Hc. reflexivity.
Qed.

Lemma uninstalled_line_counts_unhandled_witness :
  exists st1 st2 st3 evs,
    irq_install_handler 3 0x1000 boot_state = Some (tt, st1) /\
    irq_uninstall_handler 3 st1 = Some (tt, st2) /\
    line_masked st2 3 = false /\
    handle_irq false (handler_returning 1) {| int_num := 35 |} st2 =
      Some (tt, st3) /\
    trace st3 = trace st2 ++ evs /\
    handler_calls evs = [] /\
    unhandled_irq_count st3 !! 3%nat = Some 1.
Proof.
  apply (uninstalled_line_counts_unhandled false (handler_returning 1)
           {| int_num := 35 |} boot_state 0x1000 0).
  - cbn. lia.
  - reflexivity.
  - cbn. intros [H|H]; discriminate H.
  - reflexivity.
  - reflexivity.
Defined.

End IrqSpec.

(* ===================================================================== *)
(** * Properties of the VFS stat and getdents64 paths *)
(* ===================================================================== *)

Module VfsSpec.
Import Vfs.
Local Open Scope Z_scope.

(** ** [vfs_stat64] *)

(** Once [vfs_open] succeeded the result is 0, whatever [fstat] said. *)
Lemma vfs_stat64_zero_after_open env path statbuf rc h :
  vfs_open env path O_RDONLY 0 = (rc, Some h) ->
  0 <= rc ->
  exists sb calls, vfs_stat64 env path statbuf = Some (0, sb, calls).
Proof.
  intros Hopen Hrc. unfold vfs_stat64. rewrite Hopen.
  replace (rc <? 0) with false by (symmetry; apply Z.ltb_ge, Hrc).
  simpl. destruct (fsops_fstat env h) as [ret filled]. simpl.
  eexists _, _. reflexivity.
Qed.

(** C3 at the failing input: on the file system [stat_failing_env], whose
    [fstat] fails with -ENOENT for the file "/f" that [vfs_open] opens,
    [vfs_fstat64] returns -ENOENT and [vfs_stat64] returns 0 all the same,
    after the calls open, shlock, fstat, shunlock, close. *)
Theorem vfs_stat64_drops_fstat_error :
  vfs_fstat64 stat_failing_env (Some 1) None =
    Some (- ENOENT, None, [CallShlock 1; CallFstat 1; CallShunlock 1]) /\
  vfs_stat64 stat_failing_env path_f None =
    Some (0, None,
          [CallOpen path_f O_RDONLY; CallShlock 1; CallFstat 1;
           CallShunlock 1; CallClose 1]).
Proof. split; reflexivity. Qed.

(** X16.  The calls [vfs_stat64] makes.  When [vfs_open] fails its
    error code is returned, [statbuf] is not touched and nothing else is
    called; when it succeeds with a handle, [fstat] is called once,
    between [vfs_shlock] and [vfs_shunlock] on that handle, [statbuf]
    holds what the driver stored (or its old content if it stored
    nothing), and the handle is closed before the function returns;
    success of [vfs_open] with a NULL handle fails the assertion.
    [vfs_fstat64] itself hands on the result of the driver. *)
Theorem vfs_stat64_protocol (env : vfs_env) (path : list Z)
    (statbuf : option Z) (rc : Z) (h : option fs_handle) :
  vfs_open env path O_RDONLY 0 = (rc, h) ->
  (rc < 0 ->
   vfs_stat64 env path statbuf = Some (rc, statbuf, [CallOpen path O_RDONLY])) /\
  (0 <= rc -> h = None -> vfs_stat64 env path statbuf = None) /\
  (0 <= rc -> forall hh, h = Some hh ->
   let sb := match (fsops_fstat env hh).2 with
             | Some s => Some s
             | None => statbuf
             end in
   vfs_fstat64 env h statbuf =
     Some ((fsops_fstat env hh).1, sb,
           [CallShlock hh; CallFstat hh; CallShunlock hh]) /\
   vfs_stat64 env path statbuf =
     Some (0, sb,
           [CallOpen path O_RDONLY; CallShlock hh; CallFstat hh;
            CallShunlock hh; CallClose hh])).
Proof.
  intros Hopen. unfold vfs_stat64. rewrite Hopen. split; [|split].
  - intros Hneg.
    replace (rc <? 0) with true by (symmetry; apply Z.ltb_lt, Hneg).
    reflexivity.
  - intros Hpos ->.
    replace (rc <? 0) with false by (symmetry; apply Z.ltb_ge, Hpos).
    reflexivity.
  - intros Hpos hh ->.
    replace (rc <? 0) with false by (symmetry; apply Z.ltb_ge, Hpos).
    unfold vfs_fstat64. destruct (fsops_fstat env hh) as [ret filled].
    split; reflexivity.
Qed.

Lemma vfs_stat64_protocol_witness :
  vfs_stat64 stat_failing_env [47; 103] (Some 5) =
    Some (- ENOENT, Some 5, [CallOpen [47; 103] O_RDONLY]).
Proof.
  apply (vfs_stat64_protocol stat_failing_env [47; 103] (Some 5)
           (- ENOENT) None).
  - reflexivity.
  - reflexivity.
Defined.

(** ** Entry types *)

(** X17.  [vfs_type_to_linux_dirent_type] fails its assertion for
    [VFS_NONE] only; for the other types it gives a [d_type] that fits
    a byte, is never [DT_UNKNOWN], and tells the types apart: two types
    with the same [d_type] are the same type. *)
Theorem vfs_type_to_linux_dirent_type_table (t1 t2 : vfs_entry_type) :
  (vfs_type_to_linux_dirent_type t1 = None <-> t1 = VFS_NONE) /\
  (forall dt, vfs_type_to_linux_dirent_type t1 = Some dt ->
     0 < dt < 256 /\ dt <> DT_UNKNOWN /\
     (vfs_type_to_linux_dirent_type t2 = Some dt -> t1 = t2)).
Proof.
  split.
  - destruct t1; split; intros H; first [reflexivity | discriminate H].
  - intros dt H1.
    destruct t1; try discriminate H1; injection H1 as <-;
      (split; [unfold DT_REG, DT_DIR, DT_LNK, DT_CHR, DT_BLK, DT_FIFO; lia|]);
      (split; [discriminate|]);
      intros H2; destruct t2; first [reflexivity | discriminate H2].
Qed.

(** ** Bytes in the user buffer *)

Lemma length_le_bytes n v : length (le_bytes n v) = n.
Proof. revert v. induction n as [|n IH]; intros v; simpl; [|rewrite IH]; reflexivity. Qed.

Lemma length_dirent_fields e : length (dirent_fields e) = 19%nat.
Proof.
  unfold dirent_fields. rewrite !length_app, !length_le_bytes. reflexivity.
Qed.

Lemma bytes_at_inserts off bs (ub : ubuf) :
  0 <= off ->
  off + Z.of_nat (length bs) <= Z.of_nat (length ub) ->
  bytes_at off bs (list_inserts (Z.to_nat off) bs ub).
Proof.
  intros Hoff Hfit i b Hi.
  assert (i < length bs)%nat by (eapply lookup_lt_Some; exact Hi).
  rewrite list_lookup_inserts by lia.
  replace (Z.to_nat off + i - Z.to_nat off)%nat with i by lia. exact Hi.
Qed.

(** A copy leaves the bytes outside its destination alone. *)
Lemma inserts_lookup_outside (off : nat) bs (ub : ubuf) (j : nat) :
  (j < off \/ off + length bs <= j)%nat ->
  list_inserts off bs ub !! j = ub !! j.
Proof.
  intros [Hlt|Hge].
  - apply list_lookup_inserts_lt. exact Hlt.
  - apply list_lookup_inserts_ge. exact Hge.
Qed.

Lemma bytes_at_ext off bs (ub ub' : ubuf) :
  0 <= off ->
  bytes_at off bs ub ->
  (forall j : nat, off <= Z.of_nat j < off + Z.of_nat (length bs) ->
                   ub' !! j = ub !! j) ->
  bytes_at off bs ub'.
Proof.
  intros Hoff Hb Hsame i b Hi.
  assert (i < length bs)%nat by (eapply lookup_lt_Some; exact Hi).
  rewrite Hsame by lia. apply Hb, Hi.
Qed.

(** ** The callback *)

Section GetdentsProofs.

Variable dirent64_size : Z.
Hypothesis Hsize : d_name_offset <= dirent64_size.

#[local] Abbreviation reclen := (reclen dirent64_size).
#[local] Abbreviation total_reclen := (total_reclen dirent64_size).
#[local] Abbreviation record_at := (record_at dirent64_size).
#[local] Abbreviation records_at := (records_at dirent64_size).
#[local] Abbreviation dent_ok := (dent_ok dirent64_size).
#[local] Abbreviation vfs_getdents_cb := (vfs_getdents_cb dirent64_size).
#[local] Abbreviation fsops_getdents := (fsops_getdents dirent64_size).
#[local] Abbreviation vfs_getdents64 := (vfs_getdents64 dirent64_size).
#[local] Abbreviation fit := (fit dirent64_size).

Lemma reclen_pos e : d_name_offset < reclen e.
Proof. unfold Vfs.reclen. lia. Qed.

Lemma total_reclen_nonneg es : 0 <= total_reclen es.
Proof.
  induction es as [|e es IH]; simpl; [lia|].
  pose proof (reclen_pos e). unfold d_name_offset in *. lia.
Qed.

Lemma total_reclen_app es1 es2 :
  total_reclen (es1 ++ es2) = total_reclen es1 + total_reclen es2.
Proof. induction es1 as [|e es1 IH]; simpl; [|rewrite IH]; lia. Qed.

Lemma length_dirent_bytes e :
  Z.of_nat (length (dirent_bytes dirent64_size e)) = dirent64_size.
Proof.
  unfold dirent_bytes. rewrite length_app, length_replicate, Nat2Z.inj_add.
  rewrite length_dirent_fields. unfold d_name_offset in *. lia.
Qed.

(** The 16-bit length and record size of an admissible entry. *)
Lemma entry_size_eq e :
  dent_ok e ->
  wrap16 (Z.of_nat (length (name e))) = Z.of_nat (length (name e)) /\
  wrap16 (dirent64_size + Z.of_nat (length (name e)) + 1) = reclen e.
Proof.
  intros [_ Hlt]. unfold Vfs.reclen in *. unfold wrap16, d_name_offset in *.
  rewrite !Z.mod_small by lia. split; reflexivity.
Qed.

(** An entry before the position of the handle is skipped. *)
Lemma cb_skip e ctx :
  curr_index ctx < h_pos ctx ->
  vfs_getdents_cb e ctx =
    Some (0, {| h_pos := h_pos ctx; buf_size := buf_size ctx;
                offset := offset ctx; curr_index := curr_index ctx + 1;
                ent := ent ctx; user_mem := user_mem ctx |}).
Proof.
  intros H. unfold Vfs.vfs_getdents_cb.
  replace (curr_index ctx <? h_pos ctx) with true
    by (symmetry; apply Z.ltb_lt, H).
  reflexivity.
Qed.

(** An entry that does not fit any more ends the walk. *)
Lemma cb_overflow e ctx :
  dent_ok e ->
  h_pos ctx <= curr_index ctx ->
  0 <= offset ctx ->
  offset ctx + reclen e < 2 ^ 32 ->
  buf_size ctx < offset ctx + reclen e ->
  vfs_getdents_cb e ctx =
    Some (if offset ctx =? 0 then - EINVAL else offset ctx, ctx).
Proof.
  intros Hok Hidx Hoff Hb Hov. unfold Vfs.vfs_getdents_cb.
  replace (curr_index ctx <? h_pos ctx) with false
    by (symmetry; apply Z.ltb_ge, Hidx).
  destruct (entry_size_eq e Hok) as [-> ->].
  pose proof (reclen_pos e). unfold d_name_offset in *.
  rewrite wrap32_small by lia.
  replace (buf_size ctx <? offset ctx + reclen e) with true
    by (symmetry; apply Z.ltb_lt, Hov).
  destruct (offset ctx =? 0); reflexivity.
Qed.

(** An entry that fits into the buffer and into the mapped memory is
    written out and the position advances. *)
Lemma cb_emit e ctx :
  dent_ok e ->
  h_pos ctx <= curr_index ctx ->
  0 <= offset ctx ->
  offset ctx + reclen e < 2 ^ 32 ->
  offset ctx + reclen e <= buf_size ctx ->
  offset ctx + reclen e <= Z.of_nat (length (user_mem ctx)) ->
  exists ctx',
    vfs_getdents_cb e ctx = Some (0, ctx') /\
    h_pos ctx' = h_pos ctx + 1 /\
    curr_index ctx' = curr_index ctx + 1 /\
    offset ctx' = offset ctx + reclen e /\
    buf_size ctx' = buf_size ctx /\
    length (user_mem ctx') = length (user_mem ctx) /\
    record_at (offset ctx) e (user_mem ctx') /\
    (forall j : nat,
        Z.of_nat j < offset ctx \/ offset ctx + reclen e <= Z.of_nat j ->
        user_mem ctx' !! j = user_mem ctx !! j).
Proof.
  intros Hok Hidx Hoff Hb Hfit Hmap. unfold Vfs.vfs_getdents_cb.
  replace (curr_index ctx <? h_pos ctx) with false
    by (symmetry; apply Z.ltb_ge, Hidx).
  destruct (entry_size_eq e Hok) as [-> ->].
  pose proof (reclen_pos e) as Hpos. unfold d_name_offset in Hpos.
  rewrite wrap32_small by lia.
  replace (buf_size ctx <? offset ctx + reclen e) with false
    by (symmetry; apply Z.ltb_ge, Hfit).
  destruct Hok as [Hty Hlt].
  destruct (vfs_type_to_linux_dirent_type (type e)) as [dt|] eqn:Hdt;
    [|destruct (type e); [congruence|discriminate..]].
  cbn [mbind option_bind]. unfold copy_to_user.
  set (e1 := {| d_ino := ino e; d_off := offset ctx + reclen e;
                d_reclen := reclen e; d_type := dt |}).
  assert (Hlen1 := length_dirent_bytes e1).
  assert (Hnm : take (Z.to_nat (Z.of_nat (length (name e)) + 1)) (name e ++ [0])
                = name e ++ [0]).
  { apply take_ge. rewrite length_app. simpl. lia. }
  rewrite Hnm.
  assert (Hlen2 : Z.of_nat (length (name e ++ [0]))
                  = Z.of_nat (length (name e)) + 1).
  { rewrite length_app. simpl. lia. }
  unfold Vfs.reclen in Hmap, Hfit, Hb, Hpos. unfold d_name_offset in *.
  replace (offset ctx + Z.of_nat (length (dirent_bytes dirent64_size e1))
           <=? Z.of_nat (length (user_mem ctx))) with true
    by (symmetry; apply Z.leb_le; lia).
  cbn [Z.ltb Z.compare].
  replace (offset ctx + 19 + Z.of_nat (length (name e ++ [0]))
           <=? Z.of_nat (length (list_inserts (Z.to_nat (offset ctx))
                                   (dirent_bytes dirent64_size e1) (user_mem ctx))))
    with true
    by (symmetry; apply Z.leb_le; rewrite length_inserts; lia).
  cbn [Z.ltb Z.compare].
  eexists. split; [reflexivity|]. cbn [h_pos curr_index offset buf_size user_mem].
  split; [reflexivity|]. split; [reflexivity|]. split; [reflexivity|].
  split; [reflexivity|]. split; [rewrite !length_inserts; reflexivity|].
  split.
  - exists dt. split; [exact Hdt|]. split.
    + (* the fields, written first, are not reached by the name *)
      apply (bytes_at_ext _ _
               (list_inserts (Z.to_nat (offset ctx))
                  (dirent_bytes dirent64_size e1) (user_mem ctx))).
      * exact Hoff.
      * intros i b Hi.
        assert (i < 19)%nat.
        { apply lookup_lt_Some in Hi. rewrite length_dirent_fields in Hi.
          exact Hi. }
        rewrite list_lookup_inserts by lia.
        replace (Z.to_nat (offset ctx) + i - Z.to_nat (offset ctx))%nat
          with i by lia.
        unfold dirent_bytes. rewrite lookup_app_l; [exact Hi|].
        rewrite length_dirent_fields. exact H.
      * intros j Hj. rewrite length_dirent_fields in Hj.
        apply list_lookup_inserts_lt. lia.
    + apply bytes_at_inserts; [lia|]. rewrite length_inserts. lia.
  - intros j Hj. unfold Vfs.reclen in Hj.
    rewrite !inserts_lookup_outside; [reflexivity| |]; lia.
Qed.

(** ** The walk over the directory *)

Lemma record_at_ext off e (ub ub' : ubuf) :
  0 <= off ->
  record_at off e ub ->
  (forall j : nat, off <= Z.of_nat j < off + reclen e -> ub' !! j = ub !! j) ->
  record_at off e ub'.
Proof.
  intros Hoff (dt & Hdt & Hf & Hn) Hsame. exists dt. split; [exact Hdt|].
  unfold Vfs.reclen in Hsame. unfold d_name_offset in *. split.
  - apply (bytes_at_ext _ _ ub); [exact Hoff|exact Hf|].
    intros j Hj. rewrite length_dirent_fields in Hj. apply Hsame. lia.
  - apply (bytes_at_ext _ _ ub); [lia|exact Hn|].
    intros j Hj. rewrite length_app in Hj. simpl in Hj. apply Hsame. lia.
Qed.

Lemma records_at_ext es : forall off (ub ub' : ubuf),
  0 <= off ->
  records_at off es ub ->
  (forall j : nat, off <= Z.of_nat j < off + total_reclen es ->
                   ub' !! j = ub !! j) ->
  records_at off es ub'.
Proof.
  induction es as [|e es IH]; intros off ub ub' Hoff Hr Hsame; [exact I|].
  destruct Hr as [He Hes]. simpl in Hsame.
  pose proof (reclen_pos e) as Hp. unfold d_name_offset in Hp.
  pose proof (total_reclen_nonneg es).
  split.
  - apply (record_at_ext _ _ ub); [exact Hoff|exact He|].
    intros j Hj. apply Hsame. lia.
  - apply (IH _ ub); [lia|exact Hes|]. intros j Hj. apply Hsame. lia.
Qed.

Lemma skipped_0 ctx : skipped 0 ctx = ctx.
Proof. destruct ctx. unfold skipped. simpl. f_equal. lia. Qed.

(** The entries before the position of the handle are passed over. *)
Lemma walk_skip pre rest : forall ctx,
  curr_index ctx + Z.of_nat (length pre) <= h_pos ctx ->
  fsops_getdents (pre ++ rest) ctx =
  fsops_getdents rest (skipped (Z.of_nat (length pre)) ctx).
Proof.
  induction pre as [|e pre IH]; intros ctx Hle.
  - simpl. rewrite skipped_0. reflexivity.
  - simpl app. cbn [Vfs.fsops_getdents].
    rewrite cb_skip by (simpl in Hle; lia).
    cbn [mbind option_bind Z.eqb]. rewrite IH by (simpl in *; lia).
    f_equal. unfold skipped. simpl. f_equal. lia.
Qed.

(** The entries that fit are written out one after the other. *)
Lemma walk_emit es rest : forall ctx,
  Forall dent_ok es ->
  h_pos ctx <= curr_index ctx ->
  0 <= offset ctx ->
  offset ctx + total_reclen es < 2 ^ 32 ->
  offset ctx + total_reclen es <= buf_size ctx ->
  offset ctx + total_reclen es <= Z.of_nat (length (user_mem ctx)) ->
  exists ctx',
    fsops_getdents (es ++ rest) ctx = fsops_getdents rest ctx' /\
    h_pos ctx' = h_pos ctx + Z.of_nat (length es) /\
    curr_index ctx' = curr_index ctx + Z.of_nat (length es) /\
    offset ctx' = offset ctx + total_reclen es /\
    buf_size ctx' = buf_size ctx /\
    length (user_mem ctx') = length (user_mem ctx) /\
    records_at (offset ctx) es (user_mem ctx') /\
    (forall j : nat,
        Z.of_nat j < offset ctx \/ offset ctx + total_reclen es <= Z.of_nat j ->
        user_mem ctx' !! j = user_mem ctx !! j).
Proof.
  induction es as [|e es IH]; intros ctx Hok Hidx Hoff Hb Hfit Hmap.
  - exists ctx. simpl. repeat split; try lia. 
  - apply Forall_cons in Hok as [Hoke Hokes]. simpl in Hb, Hfit, Hmap.
    pose proof (reclen_pos e) as Hp. unfold d_name_offset in Hp.
    pose proof (total_reclen_nonneg es) as Ht.
    destruct (cb_emit e ctx Hoke Hidx Hoff) as
      (ctx1 & Hcb & Hp1 & Hi1 & Ho1 & Hb1 & Hl1 & Hr1 & Hs1); [lia..|].
    destruct (IH ctx1 Hokes) as
      (ctx' & Hw & Hp' & Hi' & Ho' & Hb' & Hl' & Hr' & Hs'); [lia..|].
    exists ctx'. split.
    { simpl app. cbn [Vfs.fsops_getdents]. rewrite Hcb.
      cbn [mbind option_bind Z.eqb]. exact Hw. }
    simpl length. simpl Vfs.total_reclen.
    split; [lia|]. split; [lia|]. split; [lia|]. split; [congruence|].
    split; [congruence|]. split.
    + split.
      * apply (record_at_ext _ _ (user_mem ctx1)); [exact Hoff|exact Hr1|].
        intros j Hj. apply Hs'. lia.
      * rewrite <- Ho1. exact Hr'.
    + intros j Hj. rewrite Hs' by lia. apply Hs1. lia.
Qed.

Lemma fit_spec es : forall room,
  total_reclen (take (fit room es) es) <= room \/ fit room es = O.
Proof.
  induction es as [|e es IH]; intros room; [right; reflexivity|].
  simpl. destruct (reclen e <=? room) eqn:E; [|right; reflexivity].
  left. apply Z.leb_le in E. simpl.
  destruct (IH (room - reclen e)) as [H|H]; [lia|].
  rewrite H. simpl. lia.
Qed.

Lemma fit_next es : forall room e,
  es !! fit room es = Some e ->
  room < total_reclen (take (fit room es) es) + reclen e.
Proof.
  induction es as [|a es IH]; intros room e Hn; [discriminate|].
  simpl in *. destruct (reclen a <=? room) eqn:E.
  - simpl in *. specialize (IH _ _ Hn). lia.
  - simpl in *. injection Hn as <-. apply Z.leb_gt in E. lia.
Qed.

(** ** One call of [vfs_getdents64] *)

Lemma to_int_small x : 0 <= x < 2 ^ 31 -> to_int x = x.
Proof.
  intros H. unfold to_int. rewrite wrap32_small by lia.
  replace (x <? 2 ^ 31) with true by (symmetry; apply Z.ltb_lt; lia).
  reflexivity.
Qed.

(** The context after the entries before [pos] were passed over. *)
Lemma getdents_start entries pos (ub : ubuf) bufsz :
  0 <= pos -> 0 <= bufsz < 2 ^ 31 ->
  exists ctx,
    vfs_getdents64 entries pos ub bufsz =
      ('(rc, ctx') ← fsops_getdents (drop (Z.to_nat pos) entries) ctx;
       Some (if rc =? 0 then to_int (offset ctx') else rc,
             h_pos ctx', user_mem ctx')) /\
    h_pos ctx = pos /\ buf_size ctx = bufsz /\ offset ctx = 0 /\
    user_mem ctx = ub /\
    (drop (Z.to_nat pos) entries ≠ [] -> curr_index ctx = pos).
Proof.
  intros Hpos Hb. eexists. split.
  - unfold Vfs.vfs_getdents64.
    rewrite <- (take_drop (Z.to_nat pos) entries) at 1.
    rewrite walk_skip; [reflexivity|].
    simpl. rewrite length_take. lia.
  - simpl. rewrite wrap32_small by lia. repeat split.
    intros Hne. rewrite length_take.
    destruct (decide (Z.to_nat pos < length entries)%nat) as [Hlt|Hge]; [lia|].
    exfalso. apply Hne. apply drop_ge. lia.
Qed.

(** The first pending record does not fit: invalid argument, nothing
    changed. *)
Lemma getdents_call_einval entries pos (ub : ubuf) bufsz e rest :
  Forall dent_ok entries ->
  0 <= pos -> 0 <= bufsz < 2 ^ 31 ->
  drop (Z.to_nat pos) entries = e :: rest ->
  bufsz < reclen e ->
  vfs_getdents64 entries pos ub bufsz = Some (- EINVAL, pos, ub).
Proof.
  intros Hok Hpos Hb Hpend Hsmall.
  destruct (getdents_start entries pos ub bufsz Hpos Hb)
    as (ctx & Hrun & Hp & Hbs & Ho & Hm & Hi).
  rewrite Hrun, Hpend. cbn [Vfs.fsops_getdents].
  assert (Hoke : dent_ok e).
  { apply (Forall_drop _ (Z.to_nat pos)) in Hok. rewrite Hpend in Hok.
    apply Forall_cons in Hok as [Hoke _]. exact Hoke. }
  assert (Hidx : h_pos ctx <= curr_index ctx).
  { rewrite Hp, Hi; [lia|]. rewrite Hpend. discriminate. }
  rewrite (cb_overflow e ctx Hoke Hidx) by (destruct Hoke; lia).
  rewrite Ho. cbn. change (- EINVAL =? 0) with false. cbn. rewrite Hp, Hm. reflexivity.
Qed.

(** The pending entries split into those that fit and the rest: the
    call writes the former and stops in front of the latter. *)
Lemma getdents_call_emits entries pos (ub : ubuf) bufsz emitted rest :
  Forall dent_ok entries ->
  0 <= pos -> 0 <= bufsz < 2 ^ 31 ->
  drop (Z.to_nat pos) entries = emitted ++ rest ->
  (emitted = [] -> rest = []) ->
  total_reclen emitted <= bufsz ->
  total_reclen emitted <= Z.of_nat (length ub) ->
  (forall e, rest !! 0%nat = Some e -> bufsz < total_reclen emitted + reclen e) ->
  exists ub',
    vfs_getdents64 entries pos ub bufsz =
      Some (total_reclen emitted, pos + Z.of_nat (length emitted), ub') /\
    length ub' = length ub /\
    records_at 0 emitted ub' /\
    (forall j : nat, total_reclen emitted <= Z.of_nat j -> ub' !! j = ub !! j).
Proof.
  intros Hok Hpos Hb Hpend Hnonempty Hfit Hmap Hnext.
  destruct (getdents_start entries pos ub bufsz Hpos Hb)
    as (ctx & Hrun & Hp & Hbs & Ho & Hm & Hi).
  assert (Hokp : Forall dent_ok (emitted ++ rest)).
  { rewrite <- Hpend. apply Forall_drop, Hok. }
  apply Forall_app in Hokp as [Hoke Hokr].
  pose proof (total_reclen_nonneg emitted) as Ht.
  destruct emitted as [|e0 em].
  { rewrite (Hnonempty eq_refl) in *. simpl in Hpend. exists ub.
    rewrite Hrun, Hpend. cbn. rewrite Ho, Hp, Hm. rewrite to_int_small by lia.
    simpl. split; [do 3 f_equal; lia|]. repeat split. }
  assert (Hidx : h_pos ctx <= curr_index ctx).
  { rewrite Hp, Hi; [lia|]. rewrite Hpend. discriminate. }
  destruct (walk_emit (e0 :: em) rest ctx Hoke Hidx) as
    (ctx' & Hw & Hp' & Hi' & Ho' & Hb' & Hl' & Hr' & Hs');
    [rewrite ?Ho, ?Hbs, ?Hm; lia..|].
  exists (user_mem ctx'). rewrite Hrun, Hpend, Hw.
  assert (Hnz : total_reclen (e0 :: em) ≠ 0).
  { simpl. pose proof (reclen_pos e0). pose proof (total_reclen_nonneg em).
    unfold d_name_offset in *. lia. }
  assert (Hres : fsops_getdents rest ctx' =
                 Some (if rest is [] then 0 else total_reclen (e0 :: em), ctx')).
  { destruct rest as [|e rest']; [reflexivity|].
    cbn [Vfs.fsops_getdents].
    apply Forall_cons in Hokr as [Hoke' _].
    rewrite (cb_overflow e ctx' Hoke')
      by (try specialize (Hnext e eq_refl); destruct Hoke'; lia).
    rewrite Ho', Ho, Z.add_0_l.
    replace (total_reclen (e0 :: em) =? 0) with false
      by (symmetry; apply Z.eqb_neq, Hnz).
    cbn [mbind option_bind].
    replace (total_reclen (e0 :: em) =? 0) with false
      by (symmetry; apply Z.eqb_neq, Hnz).
    reflexivity. }
  rewrite Hres. cbn [mbind option_bind].
  split.
  - f_equal. rewrite Hp', Hp, Ho', Ho, Z.add_0_l.
    destruct rest.
    + cbn [Z.eqb]. rewrite to_int_small by lia. reflexivity.
    + replace (total_reclen (e0 :: em) =? 0) with false
        by (symmetry; apply Z.eqb_neq, Hnz).
      reflexivity.
  - split; [rewrite Hl', Hm; reflexivity|]. split.
    + rewrite Ho in Hr'. exact Hr'.
    + intros j Hj. rewrite Hs' by lia. rewrite Hm. reflexivity.
Qed.

(** The records written by one call are those of the longest run of
    pending entries that fits. *)
Lemma fit_le es : forall room, (fit room es <= length es)%nat.
Proof.
  induction es as [|a l IH]; intros b; simpl; [lia|].
  destruct (reclen a <=? b); simpl; [|lia].
  specialize (IH (b - reclen a)). lia.
Qed.

Lemma getdents_call_fit entries pos (ub : ubuf) bufsz :
  Forall dent_ok entries ->
  0 <= pos -> 0 <= bufsz < 2 ^ 31 -> bufsz <= Z.of_nat (length ub) ->
  let pending := drop (Z.to_nat pos) entries in
  let k := fit bufsz pending in
  let emitted := take k pending in
  (forall e rest, pending = e :: rest -> reclen e <= bufsz) ->
  exists ub',
    vfs_getdents64 entries pos ub bufsz =
      Some (total_reclen emitted, pos + Z.of_nat k, ub') /\
    length ub' = length ub /\
    records_at 0 emitted ub' /\
    (forall j : nat, total_reclen emitted <= Z.of_nat j -> ub' !! j = ub !! j) /\
    (forall e, pending !! k = Some e ->
               bufsz < total_reclen emitted + reclen e).
Proof.
  intros Hok Hpos Hb Hmap pending k emitted Hfirst.
  assert (Hk : total_reclen emitted <= bufsz).
  { destruct (fit_spec pending bufsz) as [H|H]; [exact H|].
    subst emitted k. rewrite H. simpl. lia. }
  destruct (getdents_call_emits entries pos ub bufsz emitted
              (drop k pending)) as (ub' & Hcall & Hlen & Hrec & Hrest).
  - exact Hok.
  - exact Hpos.
  - exact Hb.
  - subst emitted. rewrite take_drop. reflexivity.
  - intros Hem. subst emitted k.
    destruct pending as [|e rest] eqn:Hp; [reflexivity|].
    exfalso. specialize (Hfirst e rest eq_refl).
    simpl in Hem. apply Z.leb_le in Hfirst. rewrite Hfirst in Hem.
    discriminate.
  - exact Hk.
  - lia.
  - intros e He. apply fit_next. rewrite lookup_drop in He.
    rewrite Nat.add_0_r in He. exact He.
  - exists ub'. subst emitted.
    rewrite length_take_le in Hcall by apply fit_le.
    split; [exact Hcall|]. split; [exact Hlen|]. split; [exact Hrec|].
    split; [exact Hrest|]. intros e He. apply fit_next, He.
Qed.

(** ** Listing a directory *)

(** Calls with a buffer for one record each return the entries behind
    the position one by one. *)
Lemma getdents_one_by_one entries sfx : forall pre (ub : ubuf),
  entries = pre ++ sfx ->
  Forall dent_ok entries ->
  (forall e, e ∈ sfx -> reclen e <= Z.of_nat (length ub)) ->
  exists results,
    getdents_calls dirent64_size entries (map reclen sfx)
      (Z.of_nat (length pre)) ub
      = Some (results, Z.of_nat (length entries)) /\
    Forall2 (fun e r => r.1 = reclen e /\ record_at 0 e r.2) sfx results.
Proof.
  induction sfx as [|e sfx IH]; intros pre ub Hsplit Hok Hmap.
  - exists []. split; [|constructor].
    simpl. rewrite Hsplit, app_nil_r. reflexivity.
  - assert (Hoke : dent_ok e).
    { rewrite Hsplit in Hok. apply Forall_app in Hok as [_ Hok].
      apply Forall_cons in Hok as [Hoke _]. exact Hoke. }
    pose proof (reclen_pos e) as Hpe. unfold d_name_offset in Hpe.
    destruct (getdents_call_emits entries (Z.of_nat (length pre)) ub (reclen e)
                [e] sfx) as (ub' & Hcall & Hlen & Hrec & _).
    + exact Hok.
    + lia.
    + destruct Hoke. lia.
    + rewrite Nat2Z.id, Hsplit. apply drop_app_length.
    + discriminate.
    + simpl. lia.
    + simpl. rewrite Z.add_0_r. apply Hmap. left.
    + intros e' He'. simpl. pose proof (reclen_pos e'). unfold d_name_offset in *.
      lia.
    + destruct (IH (pre ++ [e]) ub') as (results & Hcalls & Hall).
      * rewrite <- app_assoc. exact Hsplit.
      * exact Hok.
      * intros x Hx. rewrite Hlen. apply Hmap. right. exact Hx.
      * exists ((reclen e, ub') :: results). split.
        -- cbn [map Vfs.getdents_calls]. rewrite Hcall.
           cbn [mbind option_bind Vfs.total_reclen foldr length].
           rewrite length_app in Hcalls. simpl in Hcalls.
           replace (Z.of_nat (length pre) + Z.of_nat 1)
             with (Z.of_nat (length pre + 1)) by lia.
           rewrite Hcalls. cbn [mbind option_bind].
           rewrite Z.add_0_r. reflexivity.
        -- constructor; [|exact Hall]. simpl. split; [reflexivity|].
           destruct Hrec as [Hrec _]. exact Hrec.
Qed.

(** C7.  For a directory holding [entries] (real types, record lengths
    within 16 bits), a handle at [pos], and a buffer of [bufsz] bytes
    (below 2^31) that is mapped for the bytes written:
    (1) when the first pending entry does not fit, [vfs_getdents64]
        returns -EINVAL and leaves [pos] and the user memory as they are;
    (2) otherwise it writes the records of the longest run of pending
        entries that fits ([fit]), back to back from offset 0, returns
        their total length, advances [pos] by their number, leaves the
        memory behind them alone, and the next entry, if any, would
        overflow the buffer;
    (3) calls with a buffer of exactly one record each return entry 0,
        entry 1, ... in this order, one per call, and end at
        [pos = N]; one call with a buffer for all records returns the
        same entries in the same order and ends at [pos = N] too. *)
Theorem vfs_getdents64_listing (entries : list vfs_dent64) (ub : ubuf) :
  Forall dent_ok entries ->
  (forall pos bufsz,
      0 <= pos -> 0 <= bufsz < 2 ^ 31 -> bufsz <= Z.of_nat (length ub) ->
      let pending := drop (Z.to_nat pos) entries in
      let k := fit bufsz pending in
      let emitted := take k pending in
      (forall e rest, pending = e :: rest -> bufsz < reclen e ->
         vfs_getdents64 entries pos ub bufsz = Some (- EINVAL, pos, ub)) /\
      ((forall e rest, pending = e :: rest -> reclen e <= bufsz) ->
         exists ub',
           vfs_getdents64 entries pos ub bufsz =
             Some (total_reclen emitted, pos + Z.of_nat k, ub') /\
           length ub' = length ub /\
           records_at 0 emitted ub' /\
           (forall j : nat, total_reclen emitted <= Z.of_nat j ->
                            ub' !! j = ub !! j) /\
           (forall e, pending !! k = Some e ->
                      bufsz < total_reclen emitted + reclen e))) /\
  (total_reclen entries < 2 ^ 31 ->
   total_reclen entries <= Z.of_nat (length ub) ->
   (exists results,
       getdents_calls dirent64_size entries (map reclen entries) 0 ub
         = Some (results, Z.of_nat (length entries)) /\
       Forall2 (fun e r => r.1 = reclen e /\ record_at 0 e r.2)
         entries results) /\
   (exists ub',
       vfs_getdents64 entries 0 ub (total_reclen entries)
         = Some (total_reclen entries, Z.of_nat (length entries), ub') /\
       records_at 0 entries ub')).
Proof.
  intros Hok. split.
  - intros pos bufsz Hpos Hb Hmap pending k emitted. split.
    + intros e rest Hpend Hsmall.
      apply (getdents_call_einval entries pos ub bufsz e rest); assumption.
    + intros Hfirst.
      apply (getdents_call_fit entries pos ub bufsz); assumption.
  - intros Hlt Hmap.
    pose proof (total_reclen_nonneg entries) as Hnn. split.
    + apply (getdents_one_by_one entries entries [] ub eq_refl Hok).
      intros e He. apply list_elem_of_split in He as (l1 & l2 & ->).
      rewrite total_reclen_app in Hmap. simpl in Hmap.
      pose proof (total_reclen_nonneg l1). pose proof (total_reclen_nonneg l2).
      lia.
    + destruct (getdents_call_emits entries 0 ub (total_reclen entries)
                  entries []) as (ub' & Hcall & _ & Hrec & _).
      * exact Hok.
      * lia.
      * lia.
      * rewrite app_nil_r. reflexivity.
      * reflexivity.
      * lia.
      * exact Hmap.
      * intros e He. discriminate.
      * exists ub'. split; [|exact Hrec]. rewrite Hcall. reflexivity.
Qed.

(** ** A fault in the middle of a listing *)

(** The copy of the record, or of its name, runs past the mapped memory:
    the callback fails with -EFAULT; the position and the bytes in front
    of the record stay. *)
Lemma cb_fault e ctx :
  dent_ok e ->
  h_pos ctx <= curr_index ctx ->
  0 <= offset ctx ->
  offset ctx + reclen e < 2 ^ 32 ->
  offset ctx + reclen e <= buf_size ctx ->
  (Z.of_nat (length (user_mem ctx)) < offset ctx + dirent64_size \/
   Z.of_nat (length (user_mem ctx))
     < offset ctx + d_name_offset + Z.of_nat (length (name e)) + 1) ->
  exists ctx',
    vfs_getdents_cb e ctx = Some (- EFAULT, ctx') /\
    h_pos ctx' = h_pos ctx /\
    length (user_mem ctx') = length (user_mem ctx) /\
    (forall j : nat, Z.of_nat j < offset ctx ->
                     user_mem ctx' !! j = user_mem ctx !! j).
Proof.
  intros Hok Hidx Hoff Hb Hfit Hfault. unfold Vfs.vfs_getdents_cb.
  replace (curr_index ctx <? h_pos ctx) with false
    by (symmetry; apply Z.ltb_ge, Hidx).
  destruct (entry_size_eq e Hok) as [-> ->].
  pose proof (reclen_pos e) as Hpos. unfold d_name_offset in Hpos.
  rewrite wrap32_small by lia.
  replace (buf_size ctx <? offset ctx + reclen e) with false
    by (symmetry; apply Z.ltb_ge, Hfit).
  destruct Hok as [Hty Hlt].
  destruct (vfs_type_to_linux_dirent_type (type e)) as [dt|] eqn:Hdt;
    [|destruct (type e); [congruence|discriminate..]].
  cbn [mbind option_bind]. unfold copy_to_user.
  set (e1 := {| d_ino := ino e; d_off := offset ctx + reclen e;
                d_reclen := reclen e; d_type := dt |}).
  assert (Hlen1 := length_dirent_bytes e1).
  rewrite Hlen1.
  assert (Hnm : take (Z.to_nat (Z.of_nat (length (name e)) + 1)) (name e ++ [0])
                = name e ++ [0]).
  { apply take_ge. rewrite length_app. simpl. lia. }
  rewrite Hnm, length_inserts.
  assert (Hlen2 : Z.of_nat (length (name e ++ [0]))
                  = Z.of_nat (length (name e)) + 1).
  { rewrite length_app. simpl. lia. }
  rewrite Hlen2.
  destruct (offset ctx + dirent64_size <=? Z.of_nat (length (user_mem ctx)))
    eqn:E1.
  - apply Z.leb_le in E1. cbn [Z.ltb Z.compare].
    replace (offset ctx + d_name_offset + (Z.of_nat (length (name e)) + 1)
             <=? Z.of_nat (length (user_mem ctx))) with false
      by (symmetry; apply Z.leb_gt; lia).
    cbn [Z.ltb Z.compare].
    eexists. split; [reflexivity|]. cbn [h_pos user_mem].
    split; [reflexivity|]. split; [rewrite !length_inserts; reflexivity|].
    intros j Hj. unfold d_name_offset.
    rewrite !list_lookup_inserts_lt by lia. reflexivity.
  - cbn [Z.ltb Z.compare].
    eexists. split; [reflexivity|]. cbn [h_pos user_mem].
    split; [reflexivity|]. split; [rewrite !length_inserts; reflexivity|].
    intros j Hj. rewrite !list_lookup_inserts_lt by lia. reflexivity.
Qed.

(** C10.  When the pending entries are [emitted ++ e :: rest] with
    [emitted] not empty, the records of [emitted] and of [e] fit into
    [bufsz], the records of [emitted] lie in mapped memory, but the copy
    of the record of [e] or of its name runs past it: [vfs_getdents64]
    returns -EFAULT, which is not the number of bytes written; the
    records of [emitted] are in the user buffer; [pos] has moved past
    them; and the next call on the handle, with a mapped buffer that
    takes the record of [e], returns records that start with [e]. *)
Theorem vfs_getdents64_fault_keeps_emitted (entries : list vfs_dent64)
    (pos : Z) (ub : ubuf) (bufsz : Z) (emitted : list vfs_dent64)
    (e : vfs_dent64) (rest : list vfs_dent64) :
  Forall dent_ok entries ->
  0 <= pos -> 0 <= bufsz < 2 ^ 31 ->
  drop (Z.to_nat pos) entries = emitted ++ e :: rest ->
  emitted ≠ [] ->
  total_reclen emitted + reclen e <= bufsz ->
  total_reclen emitted <= Z.of_nat (length ub) ->
  (Z.of_nat (length ub) < total_reclen emitted + dirent64_size \/
   Z.of_nat (length ub)
     < total_reclen emitted + d_name_offset + Z.of_nat (length (name e)) + 1) ->
  exists ub',
    vfs_getdents64 entries pos ub bufsz =
      Some (- EFAULT, pos + Z.of_nat (length emitted), ub') /\
    - EFAULT ≠ total_reclen emitted /\
    records_at 0 emitted ub' /\
    forall (ub2 : ubuf) bufsz2,
      reclen e <= bufsz2 < 2 ^ 31 -> bufsz2 <= Z.of_nat (length ub2) ->
      exists n pos2 again ub2',
        vfs_getdents64 entries (pos + Z.of_nat (length emitted)) ub2 bufsz2 =
          Some (n, pos2, ub2') /\
        pos + Z.of_nat (length emitted) < pos2 /\
        records_at 0 (e :: again) ub2'.
Proof.
  intros Hok Hpos Hb Hpend Hne Hfit Hmap Hfault.
  destruct (getdents_start entries pos ub bufsz Hpos Hb)
    as (ctx & Hrun & Hp & Hbs & Ho & Hm & Hi).
  assert (Hokp : Forall dent_ok (emitted ++ e :: rest)).
  { rewrite <- Hpend. apply Forall_drop, Hok. }
  apply Forall_app in Hokp as [Hoke Hokr].
  apply Forall_cons in Hokr as [Hoke1 Hokr].
  pose proof (total_reclen_nonneg emitted) as Ht.
  pose proof (reclen_pos e) as Hpe. unfold d_name_offset in Hpe.
  assert (Hidx : h_pos ctx <= curr_index ctx).
  { rewrite Hp, Hi; [lia|]. rewrite Hpend. destruct emitted; discriminate. }
  destruct (walk_emit emitted (e :: rest) ctx Hoke Hidx) as
    (ctx1 & Hw & Hp1 & Hi1 & Ho1 & Hb1 & Hl1 & Hr1 & Hs1);
    [rewrite ?Ho, ?Hbs, ?Hm; lia..|].
  rewrite Ho, Z.add_0_l in Ho1.
  destruct (cb_fault e ctx1 Hoke1) as (ctx2 & Hcb & Hp2 & Hl2 & Hs2).
  { lia. }
  { lia. }
  { lia. }
  { lia. }
  { rewrite Hl1, Hm, Ho1. exact Hfault. }
  exists (user_mem ctx2). split.
  { rewrite Hrun, Hpend, Hw. cbn [Vfs.fsops_getdents]. rewrite Hcb.
    cbn [mbind option_bind].
    change (- EFAULT =? 0) with false. cbn [mbind option_bind].
    change (- EFAULT =? 0) with false. cbv iota.
    rewrite Hp2, Hp1, Hp. reflexivity. }
  split; [unfold EFAULT; lia|].
  split.
  { rewrite Ho in Hr1.
    apply (records_at_ext _ _ (user_mem ctx1)); [lia|exact Hr1|].
    intros j Hj. apply Hs2. lia. }
  intros ub2 bufsz2 Hb2 Hmap2.
  set (pos1 := pos + Z.of_nat (length emitted)).
  assert (Hpend1 : drop (Z.to_nat pos1) entries = e :: rest).
  { subst pos1. rewrite Z2Nat.inj_add, Nat2Z.id by lia.
    rewrite <- drop_drop, Hpend. apply drop_app_length. }
  destruct (getdents_call_fit entries pos1 ub2 bufsz2 Hok) as
    (ub2' & Hcall & _ & Hrec & _); [subst pos1; lia|lia|exact Hmap2| |].
  { intros e' rest' He'. rewrite Hpend1 in He'. injection He' as <- <-. lia. }
  rewrite Hpend1 in Hcall, Hrec. cbn [Vfs.fit] in Hcall, Hrec.
  replace (reclen e <=? bufsz2) with true in Hcall, Hrec
    by (symmetry; apply Z.leb_le; lia).
  cbn [take] in Hcall, Hrec.
  eexists _, _, _, ub2'. split; [exact Hcall|]. split; [lia|]. exact Hrec.
Qed.

(** ** Safety of a call, whatever is mapped *)




End GetdentsProofs.

(** Scenario S6: a directory with the entries [a], [bb], [ccc], on i386
    ([sizeof(struct linux_dirent64) = 20]). *)
Lemma s6_entries_ok : Forall (dent_ok 20) s6_entries.
Proof. repeat constructor; try discriminate. Qed.

Lemma vfs_getdents64_listing_witness :
  exists results,
    getdents_calls 20 s6_entries [22; 23; 24] 0 (replicate 80 0) =
      Some (results, 3) /\
    Forall2 (fun e r => r.1 = reclen 20 e /\ record_at 20 0 e r.2)
      s6_entries results.
Proof.
  destruct (vfs_getdents64_listing 20 ltac:(unfold d_name_offset; lia)
              s6_entries (replicate 80 0) s6_entries_ok) as [_ H].
  destruct H as [H _].
  - vm_compute. reflexivity.
  - vm_compute. discriminate.
  - exact H.
Defined.

(** The same directory, with only 30 bytes of the 80-byte buffer mapped:
    the record of [a] is written, the record of [bb] faults. *)
Lemma vfs_getdents64_fault_keeps_emitted_witness :
  exists ub',
    vfs_getdents64 20 s6_entries 0 (replicate 30 0) 80 = Some (- EFAULT, 1, ub') /\
    records_at 20 0 [s6_a] ub'.
Proof.
  destruct (vfs_getdents64_fault_keeps_emitted 20
              ltac:(unfold d_name_offset; lia) s6_entries 0 (replicate 30 0) 80
              [s6_a] s6_bb [s6_ccc])
    as (ub' & Hcall & _ & Hrec & _).
  - exact s6_entries_ok.
  - lia.
  - lia.
  - reflexivity.
  - discriminate.
  - vm_compute. discriminate.
  - vm_compute. discriminate.
  - left. vm_compute. reflexivity.
  - exists ub'. split; [exact Hcall|exact Hrec].
Defined.


End VfsSpec.

(* ===================================================================== *)
(** * Properties of the FAT driver *)
(* ===================================================================== *)

Module FatSpec.
Import Fat.
Local Open Scope Z_scope.

(** ** [fat_seek] *)

(** C5 at the failing input: on the 6-byte file of [tiny_image], with
    the cursor at 0, [fat_seek(h, 0, SEEK_END)] returns 0 and leaves the
    cursor at 0, and [fat_seek(h, 2, SEEK_END)] returns 2: for a
    non-negative offset the file size is not added, the seek is taken
    from the current position. *)
Theorem fat_seek_end_ignores_file_size :
  fat_seek tiny_image (fat_open tiny_file) 0 SEEK_END =
    Some (fat_open tiny_file, 0) /\
  fat_seek tiny_image (fat_open tiny_file) 2 SEEK_END =
    Some ({| e := tiny_file; pos := 2; curr_cluster := 5 |}, 2) /\
  DIR_FileSize tiny_file = 6.
Proof. repeat split. Qed.

(** ** Values of [offt] *)

Lemma to_offt_small x : 0 <= x < 2 ^ 31 -> to_offt x = x.
Proof.
  intros H. unfold to_offt. rewrite wrap32_small by lia.
  replace (x <? 2 ^ 31) with true by (symmetry; apply Z.ltb_lt; lia).
  reflexivity.
Qed.

Lemma offt_val_in x : - 2 ^ 31 <= x < 2 ^ 31 -> offt_val x = Some x.
Proof.
  intros H. unfold offt_val, OFFT_MIN, OFFT_MAX.
  replace (- 2 ^ 31 <=? x) with true by (symmetry; apply Z.leb_le; lia).
  replace (x <=? 2 ^ 31 - 1) with true by (symmetry; apply Z.leb_le; lia).
  reflexivity.
Qed.

Lemma offt_rem_pos a b : 0 <= a -> 0 < b -> offt_rem a b = Some (a mod b).
Proof.
  intros Ha Hb. unfold offt_rem, OFFT_MIN.
  replace (b =? 0) with false by (symmetry; apply Z.eqb_neq; lia).
  replace (a =? - 2 ^ 31) with false by (symmetry; apply Z.eqb_neq; lia).
  cbn [andb]. rewrite Z.rem_mod_nonneg by lia. reflexivity.
Qed.

(** ** Lists of clusters *)

Lemma drop_concat_uniform (n : nat) (blocks : list (list Z)) : forall i : nat,
  Forall (fun b => length b = n) blocks ->
  drop (i * n) (concat blocks) = concat (drop i blocks).
Proof.
  induction blocks as [|b blocks IH]; intros i Hall.
  - simpl. rewrite !drop_nil. reflexivity.
  - apply Forall_cons in Hall as [Hb Hall]. destruct i as [|i]; [reflexivity|].
    simpl. rewrite drop_app_ge by lia.
    replace (n + i * n - length b)%nat with (i * n)%nat by lia.
    apply IH, Hall.
Qed.

Lemma length_concat_uniform (n : nat) (blocks : list (list Z)) :
  Forall (fun b => length b = n) blocks ->
  length (concat blocks) = (length blocks * n)%nat.
Proof.
  induction 1 as [|b blocks Hb _ IH]; [reflexivity|].
  simpl. rewrite length_app, IH, Hb. reflexivity.
Qed.

Lemma take_drop_take (l : list Z) (p t f : nat) :
  (p + t <= f)%nat -> take t (drop p (take f l)) = take t (drop p l).
Proof.
  intros H. rewrite !take_drop_commute, take_take.
  replace ((p + t) `min` f)%nat with (p + t)%nat by lia. reflexivity.
Qed.

(** A run of bytes that stays inside block [i] can be read from that
    block. *)
Lemma block_slice (n : nat) (blocks : list (list Z)) (i off t : nat) b :
  Forall (fun b => length b = n) blocks ->
  blocks !! i = Some b ->
  (off + t <= n)%nat ->
  take t (drop (i * n + off) (concat blocks)) = take t (drop off b).
Proof.
  intros Hall Hi Hfit.
  assert (length b = n) as Hb.
  { rewrite Forall_forall in Hall. apply Hall.
    apply list_elem_of_lookup. exists i. exact Hi. }
  rewrite <- drop_drop, drop_concat_uniform by exact Hall.
  rewrite (drop_S _ _ _ Hi). simpl.
  rewrite drop_app_le by lia. apply take_app_le.
  rewrite length_drop. lia.
Qed.

(** The FAT links every cluster of a chain to the next and ends it. *)
Lemma chain_ok_next d rest : forall c0 (i : nat) c,
  chain_ok d c0 rest ->
  (c0 :: rest) !! i = Some c ->
  match (c0 :: rest) !! S i with
  | Some nx =>
      fat_read_fat_entry d c = nx /\
      fat_is_end_of_clusterchain d nx = false /\
      fat_is_bad_cluster d nx = false
  | None => fat_is_end_of_clusterchain d (fat_read_fat_entry d c) = true
  end.
Proof.
  induction rest as [|n rest IH]; intros c0 i c Hok Hi.
  - destruct i as [|i]; [|discriminate]. injection Hi as <-. exact Hok.
  - destruct Hok as (Hn & He & Hb & Hok). destruct i as [|i].
    + injection Hi as <-. simpl. auto.
    + apply (IH n i c Hok Hi).
Qed.

(** ** Reading a well-formed file *)

Section File.

Variable d : fat_fs_device_data.
Variable ent : fat_entry.
Variable chain : list Z.
Hypothesis Hfile : file_ok d ent chain.

#[local] Abbreviation cs := (cluster_size d).
#[local] Abbreviation fsize := (DIR_FileSize ent).
#[local] Abbreviation content := (file_content d ent chain).
#[local] Abbreviation blocks := (map (fat_get_pointer_to_cluster_data d) chain).

Lemma cs_pos : 0 < cs.
Proof. apply Hfile. Qed.

Lemma cs_offt : cs < 2 ^ 31.
Proof. apply Hfile. Qed.

Lemma fsize_nonneg : 0 <= fsize.
Proof. apply Hfile. Qed.

Lemma fsize_offt : fsize < 2 ^ 31.
Proof. apply Hfile. Qed.

Lemma blocks_uniform : Forall (fun b => length b = Z.to_nat cs) blocks.
Proof.
  destruct Hfile as (_ & _ & _ & _ & Hlen).
  apply Forall_forall. intros b Hb.
  apply list_elem_of_fmap in Hb as (c & -> & Hc).
  specialize (Hlen c Hc). lia.
Qed.

Lemma fsize_le_blocks : (Z.to_nat fsize <= length (concat blocks))%nat.
Proof.
  rewrite (length_concat_uniform _ _ blocks_uniform), length_map.
  destruct Hfile as (Hcs & Hf & _ & Hroom & _). nia.
Qed.

Lemma length_content : length content = Z.to_nat fsize.
Proof.
  unfold file_content. rewrite length_take. pose proof fsize_le_blocks. lia.
Qed.

Lemma chain_next (i : nat) c :
  chain !! i = Some c ->
  match chain !! S i with
  | Some nx =>
      fat_read_fat_entry d c = nx /\
      fat_is_end_of_clusterchain d nx = false /\
      fat_is_bad_cluster d nx = false
  | None => fat_is_end_of_clusterchain d (fat_read_fat_entry d c) = true
  end.
Proof.
  destruct Hfile as (_ & _ & Hch & _). destruct chain as [|c0 rest].
  - discriminate.
  - destruct Hch as [_ Hok]. apply chain_ok_next, Hok.
Qed.

(** The bytes [fat_read] takes out of the current cluster are the bytes
    of the file at the cursor. *)
Lemma content_slice p t c :
  0 <= p -> 0 <= t -> p + t <= fsize ->
  chain !! Z.to_nat (p / cs) = Some c ->
  p mod cs + t <= cs ->
  take (Z.to_nat t)
       (drop (Z.to_nat (p mod cs)) (fat_get_pointer_to_cluster_data d c)) =
  take (Z.to_nat t) (drop (Z.to_nat p) content).
Proof.
  intros Hp Ht Hend Hc Hin. pose proof cs_pos as Hcs.
  pose proof (Z.mod_pos_bound p cs Hcs) as Hmod.
  pose proof (Z.div_pos p cs Hp Hcs) as Hdiv.
  pose proof (Z.div_mod p cs ltac:(lia)) as Hdm.
  unfold file_content. rewrite take_drop_take by lia.
  assert (Hsplit : Z.to_nat p =
            (Z.to_nat (p / cs) * Z.to_nat cs + Z.to_nat (p mod cs))%nat).
  { rewrite <- Z2Nat.inj_mul, <- Z2Nat.inj_add by lia. f_equal. lia. }
  rewrite Hsplit. symmetry.
  apply (block_slice _ _ _ _ _ _ blocks_uniform).
  - rewrite list_lookup_fmap, Hc. reflexivity.
  - lia.
Qed.

Lemma chunk_eq h t :
  e h = ent ->
  handle_ok d chain h ->
  0 <= t -> t <= fsize - pos h -> pos h mod cs + t <= cs ->
  take (Z.to_nat t)
       (drop (Z.to_nat (pos h mod cs))
             (fat_get_pointer_to_cluster_data d (curr_cluster h))) =
  take (Z.to_nat t) (drop (Z.to_nat (pos h)) content).
Proof.
  intros He [[Hp _] Hcur] Ht Hrem Hin. rewrite He in Hcur.
  destruct (decide (t = 0)) as [->|Hne]; [reflexivity|].
  apply content_slice; [lia..| |lia]. apply Hcur. lia.
Qed.

(** The loop of [fat_read], entered with [w] bytes already copied (the
    bytes [out]): it copies what the buffer and the file still allow. *)
Lemma fat_read_loop_spec bufsize buf0 : forall (fuel : nat) h out w,
  e h = ent ->
  pos h <= fsize ->
  handle_ok d chain h ->
  Z.of_nat (length out) = w ->
  w <= bufsize ->
  bufsize < 2 ^ 31 ->
  (Z.to_nat (Z.min (bufsize - w) (fsize - pos h)) < fuel)%nat ->
  exists h',
    fat_read_loop fuel d bufsize h (list_inserts 0 out buf0) w =
      Some (h',
            list_inserts 0
              (out ++ take (Z.to_nat (Z.min (bufsize - w) (fsize - pos h)))
                           (drop (Z.to_nat (pos h)) content)) buf0,
            w + Z.min (bufsize - w) (fsize - pos h)) /\
    pos h' = pos h + Z.min (bufsize - w) (fsize - pos h) /\
    e h' = ent /\
    handle_ok d chain h'.
Proof.
  pose proof cs_pos as Hcs. pose proof cs_offt as Hcso.
  pose proof fsize_nonneg as Hfs. pose proof fsize_offt as Hfso.
  induction fuel as [|fuel IH]; intros h out w He Hle Hok Hw Hwb Hbo Hfuel;
    [lia|].
  pose proof Hok as [[Hp Hpo] Hcur].
  pose proof (Z.mod_pos_bound (pos h) cs Hcs) as Hmod.
  set (n := Z.min (bufsize - w) (fsize - pos h)) in *.
  cbn [fat_read_loop]. rewrite He.
  rewrite (to_offt_small fsize), (to_offt_small bufsize), (to_offt_small cs)
    by lia.
  rewrite (offt_val_in (fsize - pos h)) by lia. cbn [mbind option_bind].
  rewrite (offt_val_in (bufsize - w)) by lia. cbn [mbind option_bind].
  rewrite offt_rem_pos by lia. cbn [mbind option_bind].
  rewrite (offt_val_in (cs - pos h mod cs)) by lia. cbn [mbind option_bind].
  set (off := pos h mod cs) in *.
  set (t := MIN3 (cs - off) (bufsize - w) (fsize - pos h)).
  assert (Ht : t = Z.min (cs - off) n) by (unfold t, MIN3, n; lia).
  assert (Hn : 0 <= n /\ n <= bufsize - w /\ n <= fsize - pos h /\
               (n = bufsize - w \/ n = fsize - pos h)) by (unfold n; lia).
  assert (Hoff : off = pos h mod cs) by reflexivity.
  clearbody n t.
  replace (t <? 0) with false by (symmetry; apply Z.ltb_ge; lia).
  rewrite (offt_val_in (w + t)) by lia. cbn [mbind option_bind].
  rewrite (offt_val_in (pos h + t)) by lia. cbn [mbind option_bind].
  assert (Hchunk :
    memcpy (list_inserts 0 out buf0) w
      (drop (Z.to_nat off) (fat_get_pointer_to_cluster_data d (curr_cluster h))) t
    = list_inserts 0
        (out ++ take (Z.to_nat t) (drop (Z.to_nat (pos h)) content)) buf0).
  { unfold memcpy. rewrite list_inserts_app_l, Nat.add_0_r.
    replace (length out) with (Z.to_nat w) by lia.
    f_equal. apply chunk_eq; [exact He|exact Hok|lia..]. }
  rewrite Hchunk.
  destruct (t <? cs - off) eqn:Ebrk.
  - (* the buffer or the file is used up *)
    apply Z.ltb_lt in Ebrk. assert (t = n) as Htn by lia. rewrite Htn.
    eexists. split; [reflexivity|]. cbn [pos e curr_cluster].
    split; [reflexivity|]. split; [reflexivity|].
    split; cbn [pos e curr_cluster]; [lia|]. intros Hlt.
    replace ((pos h + n) / cs) with (pos h / cs); [apply Hcur; rewrite He; lia|].
    apply (Z.div_unique _ _ _ (off + n)); [lia|].
    pose proof (Z.div_mod (pos h) cs ltac:(lia)). lia.
  - (* the cluster is used up: follow the chain *)
    apply Z.ltb_ge in Ebrk. assert (t = cs - off) as Htc by lia.
    assert (Hin : pos h < fsize) by lia.
    assert (Hc := Hcur ltac:(rewrite He; lia)).
    pose proof (chain_next _ _ Hc) as Hnext.
    assert (Hdiv : (pos h + t) / cs = pos h / cs + 1).
    { symmetry. apply (Z.div_unique _ _ _ 0); [lia|].
      pose proof (Z.div_mod (pos h) cs ltac:(lia)). lia. }
    pose proof (Z.div_pos (pos h) cs Hp Hcs) as Hdivpos.
    cbn [pos e curr_cluster].
    destruct (chain !! S (Z.to_nat (pos h / cs))) as [nx|] eqn:Enx.
    + destruct Hnext as (Hfat & Heoc & Hbad). rewrite Hfat, Heoc, Hbad.
      destruct (IH {| e := ent; pos := pos h + t; curr_cluster := nx |}
                  (out ++ take (Z.to_nat t) (drop (Z.to_nat (pos h)) content))
                  (w + t)) as (h' & Hrun & Hpos' & He' & Hok').
      * reflexivity.
      * cbn [pos]. lia.
      * split; cbn [pos e curr_cluster]; [lia|]. intros _.
        rewrite Hdiv, Z2Nat.inj_add by lia. rewrite Nat.add_1_r. exact Enx.
      * rewrite length_app, length_take, length_drop, length_content. lia.
      * lia.
      * exact Hbo.
      * cbn [pos]. lia.
      * cbn [pos] in Hrun, Hpos'.
        replace (Z.min (bufsize - (w + t)) (fsize - (pos h + t)))
          with (n - t) in Hrun, Hpos' by lia.
        exists h'. split; [|split; [lia|split; assumption]].
        rewrite Hrun. f_equal. f_equal; [|lia]. f_equal. f_equal.
        rewrite <- app_assoc. f_equal.
        replace (Z.to_nat n) with (Z.to_nat t + Z.to_nat (n - t))%nat by lia.
        rewrite <- take_take_drop, drop_drop.
        replace (Z.to_nat (pos h) + Z.to_nat t)%nat
          with (Z.to_nat (pos h + t)) by lia.
        reflexivity.
    + rewrite Hnext.
      (* the chain ends here, and so does the file *)
      assert (Hend : pos h + t = fsize).
      { apply lookup_ge_None in Enx.
        destruct Hfile as (_ & _ & _ & Hroom & _).
        pose proof (Z.div_mod (pos h) cs ltac:(lia)). nia. }
      replace (pos h + t =? fsize) with true by (symmetry; apply Z.eqb_eq, Hend).
      assert (t = n) as Htn by lia. rewrite Htn.
      eexists. split; [reflexivity|]. cbn [pos e curr_cluster].
      split; [reflexivity|]. split; [reflexivity|].
      split; cbn [pos e]; lia.
Qed.

Lemma fat_read_at_end h (buf : list Z) bufsize :
  e h = ent ->
  fsize <= pos h ->
  fat_read d h buf bufsize = Some (h, buf, 0).
Proof.
  intros He H. unfold fat_read. rewrite He.
  rewrite to_offt_small by (split; [apply fsize_nonneg|apply fsize_offt]).
  replace (fsize <=? pos h) with true by (symmetry; apply Z.leb_le, H).
  reflexivity.
Qed.

Lemma fat_read_inside h (buf : list Z) bufsize :
  e h = ent ->
  handle_ok d chain h ->
  pos h < fsize ->
  0 <= bufsize <= Z.of_nat (length buf) ->
  bufsize < 2 ^ 31 ->
  exists h',
    fat_read d h buf bufsize =
      Some (h',
            take (Z.to_nat (Z.min bufsize (fsize - pos h)))
                 (drop (Z.to_nat (pos h)) content)
            ++ drop (Z.to_nat (Z.min bufsize (fsize - pos h))) buf,
            Z.min bufsize (fsize - pos h)) /\
    pos h' = pos h + Z.min bufsize (fsize - pos h) /\
    e h' = ent /\
    handle_ok d chain h'.
Proof.
  intros He Hok Hin Hbuf Hbo. pose proof Hok as [[Hp _] _].
  destruct (fat_read_loop_spec bufsize buf (S (Z.to_nat (fsize - pos h))) h [] 0)
    as (h' & Hrun & Hpos & He' & Hok');
    [exact He|lia|exact Hok|reflexivity|lia|exact Hbo|lia|].
  rewrite Z.sub_0_r in Hrun, Hpos. rewrite Z.add_0_l in Hrun.
  set (n := Z.min bufsize (fsize - pos h)) in *.
  exists h'. split; [|split; [exact Hpos|split; assumption]].
  unfold fat_read. rewrite He.
  rewrite to_offt_small by (split; [apply fsize_nonneg|apply fsize_offt]).
  replace (fsize <=? pos h) with false by (symmetry; apply Z.leb_gt, Hin).
  change buf with (list_inserts 0 [] buf) at 1. rewrite Hrun.
  do 2 f_equal. f_equal. rewrite app_nil_l.
  rewrite <- (take_drop (Z.to_nat n) buf) at 1.
  apply list_inserts_0_r.
  rewrite !length_take, length_drop, length_content. unfold n. lia.
Qed.

Lemma total_size_nonneg sizes :
  Forall (fun sz => 0 <= sz < 2 ^ 31) sizes -> 0 <= total_size sizes.
Proof.
  induction 1 as [|sz sizes Hsz _ IH]; [reflexivity|].
  change (total_size (sz :: sizes)) with (sz + total_size sizes). lia.
Qed.

(** Reading on in chunks gives the rest of the file. *)
Lemma read_chunks_rest sizes : forall h,
  e h = ent ->
  handle_ok d chain h ->
  pos h <= fsize ->
  Forall (fun sz => 0 <= sz < 2 ^ 31) sizes ->
  fsize - pos h <= total_size sizes ->
  exists h',
    read_chunks d sizes h = Some (drop (Z.to_nat (pos h)) content, h') /\
    pos h' = fsize /\ e h' = ent.
Proof.
  induction sizes as [|sz sizes IH]; intros h He Hok Hle Hnn Hsum.
  - change (total_size []) with 0 in Hsum.
    exists h. split; [|split; [lia|exact He]].
    simpl. rewrite drop_ge by (rewrite length_content; lia). reflexivity.
  - apply Forall_cons in Hnn as [Hsz Hnn].
    change (total_size (sz :: sizes)) with (sz + total_size sizes) in Hsum.
    pose proof (total_size_nonneg sizes Hnn) as Htot.
    pose proof Hok as [[Hp0 _] _].
    cbn [read_chunks].
    destruct (decide (pos h < fsize)) as [Hin|Hout].
    + destruct (fat_read_inside h (replicate (Z.to_nat sz) 0) sz He Hok Hin)
        as (h1 & Hrd & Hp1 & He1 & Hok1); [rewrite length_replicate; lia|lia|].
      set (n := Z.min sz (fsize - pos h)) in *.
      destruct (IH h1 He1 Hok1) as (h' & Hrest & Hp' & He');
        [unfold n in *; lia|exact Hnn|unfold n in *; lia|].
      exists h'. split; [|split; assumption].
      rewrite Hrd. cbn [mbind option_bind]. rewrite Hrest.
      cbn [mbind option_bind]. do 2 f_equal.
      rewrite take_app_length'.
      2:{ rewrite length_take, length_drop, length_content. unfold n. lia. }
      rewrite Hp1. replace (Z.to_nat (pos h + n))
        with (Z.to_nat (pos h) + Z.to_nat n)%nat by (unfold n; lia).
      rewrite <- drop_drop. apply take_drop.
    + assert (pos h = fsize) as Heq by lia.
      rewrite fat_read_at_end by (assumption || lia).
      cbn [mbind option_bind].
      destruct (IH h He Hok Hle Hnn) as (h' & Hrest & Hp' & He'); [lia|].
      exists h'. split; [|split; assumption].
      rewrite Hrest. cbn [mbind option_bind]. reflexivity.
Qed.

Lemma fat_open_ok : handle_ok d chain (fat_open ent).
Proof.
  split; [simpl; lia|]. simpl. intros Hlt.
  destruct Hfile as (Hcs & _ & Hch & _).
  rewrite Z.div_0_l by lia. destruct chain as [|c rest]; [lia|].
  destruct Hch as [-> _]. reflexivity.
Qed.

(** ** Seeking in a well-formed file *)

(** The loop of [fat_seek_forward], entered with [moved] of the [dist]
    bytes done: it ends with the cursor moved by the rest. *)
Lemma fat_seek_forward_loop_spec dist : dist < 2 ^ 31 ->
  forall (fuel : nat) h moved,
  e h = ent ->
  handle_ok d chain h ->
  0 <= moved <= dist ->
  pos h + (dist - moved) <= fsize ->
  (Z.to_nat (dist - moved) < fuel)%nat ->
  exists h',
    fat_seek_forward_loop fuel d dist h moved = Some h' /\
    pos h' = pos h + (dist - moved) /\
    e h' = ent /\
    handle_ok d chain h'.
Proof.
  intros Hdo.
  pose proof cs_pos as Hcs. pose proof cs_offt as Hcso.
  pose proof fsize_nonneg as Hfs. pose proof fsize_offt as Hfso.
  induction fuel as [|fuel IH]; intros h moved He Hok Hmv Hle Hfuel; [lia|].
  pose proof Hok as [[Hp Hpo] Hcur].
  pose proof (Z.mod_pos_bound (pos h) cs Hcs) as Hmod.
  cbn [fat_seek_forward_loop]. rewrite He.
  rewrite (to_offt_small fsize), (to_offt_small cs) by lia.
  rewrite (offt_val_in (fsize - pos h)) by lia. cbn [mbind option_bind].
  rewrite (offt_val_in (dist - moved)) by lia. cbn [mbind option_bind].
  rewrite offt_rem_pos by lia. cbn [mbind option_bind].
  rewrite (offt_val_in (cs - pos h mod cs)) by lia. cbn [mbind option_bind].
  set (off := pos h mod cs) in *.
  set (t := MIN3 (cs - off) (dist - moved) (fsize - pos h)).
  assert (Ht : t = Z.min (cs - off) (dist - moved)) by (unfold t, MIN3; lia).
  assert (Hoff : off = pos h mod cs) by reflexivity.
  clearbody t.
  replace (t <? 0) with false by (symmetry; apply Z.ltb_ge; lia).
  rewrite (offt_val_in (moved + t)) by lia. cbn [mbind option_bind].
  rewrite (offt_val_in (pos h + t)) by lia. cbn [mbind option_bind].
  destruct (t <? cs - off) eqn:Ebrk.
  - apply Z.ltb_lt in Ebrk. assert (t = dist - moved) as Htn by lia.
    eexists. split; [reflexivity|]. cbn [pos e curr_cluster].
    split; [lia|]. split; [reflexivity|].
    split; cbn [pos e curr_cluster]; [lia|]. intros Hlt.
    replace ((pos h + t) / cs) with (pos h / cs); [apply Hcur; rewrite He; lia|].
    apply (Z.div_unique _ _ _ (off + t)); [lia|].
    pose proof (Z.div_mod (pos h) cs ltac:(lia)). lia.
  - apply Z.ltb_ge in Ebrk. assert (t = cs - off) as Htc by lia.
    assert (Hin : pos h < fsize) by lia.
    assert (Hc := Hcur ltac:(rewrite He; lia)).
    pose proof (chain_next _ _ Hc) as Hnext.
    assert (Hdiv : (pos h + t) / cs = pos h / cs + 1).
    { symmetry. apply (Z.div_unique _ _ _ 0); [lia|].
      pose proof (Z.div_mod (pos h) cs ltac:(lia)). lia. }
    pose proof (Z.div_pos (pos h) cs Hp Hcs) as Hdivpos.
    cbn [pos e curr_cluster].
    destruct (chain !! S (Z.to_nat (pos h / cs))) as [nx|] eqn:Enx.
    + destruct Hnext as (Hfat & Heoc & Hbad). rewrite Hfat, Heoc, Hbad.
      destruct (IH {| e := ent; pos := pos h + t; curr_cluster := nx |}
                  (moved + t)) as (h' & Hrun & Hpos' & He' & Hok').
      * reflexivity.
      * split; cbn [pos e curr_cluster]; [lia|]. intros _.
        rewrite Hdiv, Z2Nat.inj_add by lia. rewrite Nat.add_1_r. exact Enx.
      * lia.
      * cbn [pos]. lia.
      * lia.
      * cbn [pos] in Hpos'. exists h'. split; [exact Hrun|].
        split; [lia|]. split; assumption.
    + rewrite Hnext.
      assert (Hend : pos h + t = fsize).
      { apply lookup_ge_None in Enx.
        destruct Hfile as (_ & _ & _ & Hroom & _).
        pose proof (Z.div_mod (pos h) cs ltac:(lia)). nia. }
      replace (pos h + t =? fsize) with true by (symmetry; apply Z.eqb_eq, Hend).
      eexists. split; [reflexivity|]. cbn [pos e curr_cluster].
      split; [lia|]. split; [reflexivity|].
      split; cbn [pos e]; lia.
Qed.

(** [fat_seek_forward] moves the cursor by [dist], also past the end of
    the file, where the cluster becomes the invalid one. *)
Lemma fat_seek_forward_spec h dist :
  e h = ent ->
  handle_ok d chain h ->
  0 <= dist ->
  pos h + dist < 2 ^ 31 ->
  exists h',
    fat_seek_forward d h dist = Some (h', pos h + dist) /\
    pos h' = pos h + dist /\
    e h' = ent /\
    handle_ok d chain h' /\
    (0 < dist -> fsize < pos h + dist -> curr_cluster h' = INVALID_CLUSTER).
Proof.
  intros He Hok Hdist Hto. pose proof Hok as [[Hp _] _].
  unfold fat_seek_forward.
  rewrite He. destruct (dist =? 0) eqn:E0.
  - apply Z.eqb_eq in E0. subst dist. exists h.
    rewrite Z.add_0_r. repeat split; try assumption; try apply Hok. lia.
  - apply Z.eqb_neq in E0.
    rewrite to_offt_small by (split; [apply fsize_nonneg|apply fsize_offt]).
    rewrite (offt_val_in (pos h + dist)) by lia. cbn [mbind option_bind].
    destruct (fsize <? pos h + dist) eqn:Epast.
    + apply Z.ltb_lt in Epast. eexists. split; [reflexivity|].
      cbn [pos e curr_cluster]. split; [reflexivity|]. split; [reflexivity|].
      split; [|reflexivity].
      split; cbn [pos e]; lia.
    + apply Z.ltb_ge in Epast.
      destruct (fat_seek_forward_loop_spec dist ltac:(lia) (S (Z.to_nat dist)) h 0)
        as (h' & Hrun & Hpos & He' & Hok'); [exact He|exact Hok|lia..|].
      rewrite Z.sub_0_r in Hpos. exists h'. rewrite Hrun.
      cbn [mbind option_bind]. rewrite Hpos.
      split; [reflexivity|]. split; [reflexivity|]. split; [exact He'|].
      split; [exact Hok'|]. lia.
Qed.

Lemma fat_rewind_ok h : e h = ent -> handle_ok d chain (fat_rewind h).
Proof.
  intros He. unfold fat_rewind. rewrite He. exact fat_open_ok.
Qed.

(** [fat_seek] on a file, case by case, for an offset [off] of type
    [offt] and a target that is one: the target is [off] for SET and
    [pos + off] for CUR; for END it is [size + off] when [off] is
    negative and [pos + off] when it is not; a negative target gives
    -EINVAL with the handle untouched, any other target becomes the
    cursor, and the handle stays in step with the file. *)
Lemma fat_seek_file h off whence :
  e h = ent ->
  directory ent = false ->
  handle_ok d chain h ->
  - 2 ^ 31 <= off < 2 ^ 31 ->
  whence = SEEK_SET \/ whence = SEEK_CUR \/ whence = SEEK_END ->
  let target :=
    if whence =? SEEK_SET then off
    else if whence =? SEEK_CUR then pos h + off
    else if off <? 0 then fsize + off
    else pos h + off in
  target < 2 ^ 31 ->
  (target < 0 -> fat_seek d h off whence = Some (h, - EINVAL)) /\
  (0 <= target ->
   exists h',
     fat_seek d h off whence = Some (h', target) /\
     pos h' = target /\ e h' = ent /\ handle_ok d chain h' /\
     (fsize < target -> fat_read d h' [] 0 = Some (h', [], 0))).
Proof.
  intros He Hfile' Hok Hoff Hwh target Hto. pose proof Hok as [[Hp Hpo] _].
  pose proof fsize_nonneg as Hfs. pose proof fsize_offt as Hfso.
  assert (Hrw := fat_rewind_ok h He).
  assert (Hrwe : e (fat_rewind h) = ent) by exact He.
  assert (Hfin : forall h0 dist, e h0 = ent -> handle_ok d chain h0 ->
            0 <= dist -> pos h0 + dist = target ->
            exists h', fat_seek_forward d h0 dist = Some (h', target) /\
              pos h' = target /\ e h' = ent /\ handle_ok d chain h' /\
              (fsize < target -> fat_read d h' [] 0 = Some (h', [], 0))).
  { intros h0 dist He0 Hok0 Hd Ht.
    destruct (fat_seek_forward_spec h0 dist He0 Hok0 Hd)
      as (h' & Hrun & Hpos & He' & Hok' & _); [lia|].
    exists h'. rewrite Hrun, Hpos, Ht.
    split; [reflexivity|]. split; [reflexivity|]. split; [exact He'|].
    split; [exact Hok'|]. intros Hpast. apply fat_read_at_end; [exact He'|].
    lia. }
  unfold fat_seek. rewrite He, Hfile'.
  destruct Hwh as [-> | [-> | ->]]; subst target;
    cbn [Z.eqb SEEK_SET SEEK_CUR SEEK_END Pos.eqb] in *.
  - destruct (off <? 0) eqn:E; [apply Z.ltb_lt in E|apply Z.ltb_ge in E].
    + split; [reflexivity|lia].
    + split; [lia|]. intros _. apply Hfin; try assumption. simpl. lia.
  - destruct (off <? 0) eqn:E; [apply Z.ltb_lt in E|apply Z.ltb_ge in E].
    + rewrite (offt_val_in (pos h + off)) by lia. cbn [mbind option_bind].
      destruct (pos h + off <? 0) eqn:E2;
        [apply Z.ltb_lt in E2|apply Z.ltb_ge in E2].
      * split; [reflexivity|lia].
      * split; [lia|]. intros _. apply Hfin; try assumption. simpl. lia.
    + split; [lia|]. intros _. apply Hfin; try assumption. reflexivity.
  - destruct (off <? 0) eqn:E; [apply Z.ltb_lt in E|apply Z.ltb_ge in E].
    + replace (0 <=? off) with false by (symmetry; apply Z.leb_gt, E).
      rewrite to_offt_small by lia.
      rewrite (offt_val_in (fsize + off)) by lia. cbn [mbind option_bind].
      destruct (fsize + off <? 0) eqn:E2;
        [apply Z.ltb_lt in E2|apply Z.ltb_ge in E2].
      * split; [reflexivity|lia].
      * split; [lia|]. intros _. apply Hfin; try assumption. simpl. lia.
    + replace (0 <=? off) with true by (symmetry; apply Z.leb_le, E).
      split; [lia|]. intros _. apply Hfin; try assumption. reflexivity.
Qed.

End File.

(** C6.  For a file [ent] of a well-formed image (cluster chain [chain]
    linked and ended by the FAT, with room for the file size; the file
    and a cluster smaller than 2^31 bytes, so that their sizes are
    values of [offt]) and a handle on it whose [curr_cluster] is the
    cluster under the cursor:
    (1) with the cursor at or past the end, [fat_read] returns 0 and
        changes nothing, whatever the buffer size;
    (2) otherwise, for a buffer of less than 2^31 bytes, it returns
        [n = min(bufsize, S - pos)], the buffer then starts with the [n]
        bytes of the file content from offset [pos] and is unchanged
        behind them, the cursor is at [pos + n], and the handle is again
        in step with the file;
    (3) reading from a fresh handle in chunks of any sizes (each below
        2^31) that add up to at least [S] yields exactly the content of
        the file, ends with [pos = S], and a further read returns 0. *)
Theorem fat_read_spec (d : fat_fs_device_data) (ent : fat_entry)
    (chain : list Z) :
  file_ok d ent chain ->
  (forall h (buf : list Z) bufsize,
      e h = ent -> handle_ok d chain h ->
      (DIR_FileSize ent <= pos h ->
         fat_read d h buf bufsize = Some (h, buf, 0)) /\
      (pos h < DIR_FileSize ent ->
         0 <= bufsize <= Z.of_nat (length buf) ->
         bufsize < 2 ^ 31 ->
         let n := Z.min bufsize (DIR_FileSize ent - pos h) in
         exists h',
           fat_read d h buf bufsize =
             Some (h',
                   take (Z.to_nat n)
                        (drop (Z.to_nat (pos h)) (file_content d ent chain))
                   ++ drop (Z.to_nat n) buf,
                   n) /\
           pos h' = pos h + n /\
           e h' = ent /\
           handle_ok d chain h')) /\
  (forall sizes,
      Forall (fun sz => 0 <= sz < 2 ^ 31) sizes ->
      DIR_FileSize ent <= total_size sizes ->
      exists h',
        read_chunks d sizes (fat_open ent) =
          Some (file_content d ent chain, h') /\
        pos h' = DIR_FileSize ent /\
        forall (buf : list Z) bufsize,
          fat_read d h' buf bufsize = Some (h', buf, 0)).
Proof.
  intros Hfile. split.
  - intros h buf bufsize He Hok. split.
    + intros Hend. apply (fat_read_at_end d ent chain Hfile); assumption.
    + intros Hin Hbuf Hbo.
      apply (fat_read_inside d ent chain Hfile); assumption.
  - intros sizes Hnn Hsum.
    destruct (read_chunks_rest d ent chain Hfile sizes (fat_open ent))
      as (h' & Hrd & Hp & He).
    + reflexivity.
    + apply fat_open_ok, Hfile.
    + simpl. apply Hfile.
    + exact Hnn.
    + simpl. lia.
    + exists h'. split; [exact Hrd|]. split; [exact Hp|].
      intros buf bufsize.
      apply (fat_read_at_end d ent chain Hfile); [exact He|lia].
Qed.

Lemma tiny_file_ok : file_ok tiny_image tiny_file tiny_chain.
Proof.
  split; [split; reflexivity|]. split; [split; [discriminate|reflexivity]|].
  split; [repeat split|]. split; [discriminate|].
  intros c Hc. unfold tiny_chain in Hc.
  apply elem_of_cons in Hc as [->|Hc]; [reflexivity|].
  apply list_elem_of_singleton in Hc as ->. reflexivity.
Qed.

(** The 6-byte file read in chunks of 1, 4, 0, 3 and 2 bytes. *)
Lemma fat_read_spec_witness :
  exists h',
    read_chunks tiny_image [1; 4; 0; 3; 2] (fat_open tiny_file) =
      Some ([10; 11; 12; 13; 14; 15], h') /\
    pos h' = 6 /\
    forall (buf : list Z) bufsize,
      fat_read tiny_image h' buf bufsize = Some (h', buf, 0).
Proof.
  destruct (fat_read_spec tiny_image tiny_file tiny_chain tiny_file_ok)
    as [_ H].
  apply (H [1; 4; 0; 3; 2]).
  - repeat constructor; discriminate.
  - discriminate.
Defined.

(** ** Random access *)

(** X12.  [fat_seek] followed by [fat_read] gives random access to a
    file.  For a file of a well-formed image (the file and a cluster
    smaller than 2^31 bytes), a handle in step with it, an offset [off]
    of type [offt] and a buffer of less than 2^31 bytes: a seek with
    [SEEK_SET], with [SEEK_CUR], or with [SEEK_END] and a negative
    offset has the target [off], [pos + off], respectively [size + off].
    A negative target is refused with [-EINVAL] and the handle stays as
    it was; any other target below 2^31 (the range of [offt]) is
    returned, also one past the end of the file, and the next
    [fat_read] then delivers the [min(bufsize, size - target)] bytes of
    the content that start at the target (none when the target is at or
    past the end), leaves the rest of the buffer alone and moves the
    cursor behind them.  A [whence] other than the three is refused
    with [-EINVAL]. *)
Theorem fat_seek_then_read (d : fat_fs_device_data) (ent : fat_entry)
    (chain : list Z) (h : fat_handle) (off whence : Z)
    (buf : list Z) (bufsize : Z) :
  file_ok d ent chain ->
  directory ent = false ->
  e h = ent ->
  handle_ok d chain h ->
  - 2 ^ 31 <= off < 2 ^ 31 ->
  0 <= bufsize <= Z.of_nat (length buf) ->
  bufsize < 2 ^ 31 ->
  (whence = SEEK_SET \/ whence = SEEK_CUR \/ (whence = SEEK_END /\ off < 0) ->
   let target :=
     if whence =? SEEK_SET then off
     else if whence =? SEEK_CUR then pos h + off
     else DIR_FileSize ent + off in
   (target < 0 -> fat_seek d h off whence = Some (h, - EINVAL)) /\
   (0 <= target < 2 ^ 31 ->
    let n := Z.max 0 (Z.min bufsize (DIR_FileSize ent - target)) in
    exists h1 h2,
      fat_seek d h off whence = Some (h1, target) /\
      pos h1 = target /\
      fat_read d h1 buf bufsize =
        Some (h2,
              take (Z.to_nat n)
                   (drop (Z.to_nat target) (file_content d ent chain))
              ++ drop (Z.to_nat n) buf,
              n) /\
      pos h2 = target + n /\
      e h2 = ent /\
      handle_ok d chain h2)) /\
  (whence <> SEEK_SET -> whence <> SEEK_CUR -> whence <> SEEK_END ->
   fat_seek d h off whence = Some (h, - EINVAL)).
Proof.
  intros Hfile Hnd He Hok Hoff Hbuf Hbo. split.
  - intros Hwh target.
    assert (Hwh' : whence = SEEK_SET \/ whence = SEEK_CUR \/ whence = SEEK_END)
      by tauto.
    pose proof (fat_seek_file d ent chain Hfile h off whence He Hnd Hok Hoff
                  Hwh') as Hseek.
    assert (Ht : (if whence =? SEEK_SET then off
                  else if whence =? SEEK_CUR then pos h + off
                  else if off <? 0 then DIR_FileSize ent + off
                  else pos h + off) = target).
    { subst target. destruct Hwh as [-> | [-> | [-> Hneg]]];
        try reflexivity.
      cbn. replace (off <? 0) with true by (symmetry; apply Z.ltb_lt; lia).
      reflexivity. }
    cbv zeta in Hseek. rewrite Ht in Hseek. split.
    + intros Hneg. apply Hseek; lia.
    + intros Htarget n.
      destruct Hseek as [_ Hpos]; [lia|].
      destruct (Hpos ltac:(lia)) as (h1 & Hsk & Hp1 & He1 & Hok1 & _).
      destruct (Z_lt_le_dec target (DIR_FileSize ent)) as [Hin|Hout].
      * destruct (fat_read_inside d ent chain Hfile h1 buf bufsize He1 Hok1)
          as (h2 & Hrd & Hp2 & He2 & Hok2); [lia|exact Hbuf|exact Hbo|].
        rewrite Hp1 in Hrd, Hp2.
        assert (Hn : n = Z.min bufsize (DIR_FileSize ent - target))
          by (subst n; lia).
        exists h1, h2. rewrite Hn. auto 10.
      * assert (Hn : n = 0) by (subst n; lia).
        exists h1, h1. rewrite Hn. split; [exact Hsk|]. split; [exact Hp1|].
        split.
        { rewrite (fat_read_at_end d ent chain Hfile h1 buf bufsize)
            by (assumption || lia).
          reflexivity. }
        split; [lia|]. split; assumption.
  - intros H0 H1 H2. unfold fat_seek. rewrite He, Hnd.
    replace (whence =? SEEK_SET) with false by (symmetry; apply Z.eqb_neq; exact H0).
    replace (whence =? SEEK_END) with false by (symmetry; apply Z.eqb_neq; exact H2).
    replace (whence =? SEEK_CUR) with false by (symmetry; apply Z.eqb_neq; exact H1).
    reflexivity.
Qed.

(** The 6-byte file: a seek to offset 4, then a read of 5 bytes. *)
Lemma fat_seek_then_read_witness :
  exists h1 h2,
    fat_seek tiny_image (fat_open tiny_file) 4 SEEK_SET = Some (h1, 4) /\
    pos h1 = 4 /\
    fat_read tiny_image h1 [0; 0; 0; 0; 0] 5 =
      Some (h2, [14; 15; 0; 0; 0], 2) /\
    pos h2 = 6 /\
    e h2 = tiny_file /\
    handle_ok tiny_image tiny_chain h2.
Proof.
  destruct (fat_seek_then_read tiny_image tiny_file tiny_chain
              (fat_open tiny_file) 4 SEEK_SET [0; 0; 0; 0; 0] 5)
    as [H _].
  - exact tiny_file_ok.
  - reflexivity.
  - reflexivity.
  - apply fat_open_ok, tiny_file_ok.
  - lia.
  - simpl. lia.
  - lia.
  - destruct (H (or_introl eq_refl)) as [_ H2].
    apply H2. simpl. lia.
Defined.

(** ** Directories *)

(** X13.  [fat_seek] on a directory handle never fails an assertion and
    keeps the cursor among the entries: with the cursor in
    [0 .. dirents_count], any call leaves it there.  The call returns
    [-EINVAL] and changes nothing unless [whence] is [SEEK_SET] and
    [0 <= off <= dirents_count]; in that case it returns [off] and the
    cursor is [off].  The entry and the current cluster are never
    changed. *)
Theorem fat_seek_dir_cursor (d : fat_fs_device_data) (fh : fat_handle)
    (off whence : Z) :
  directory (e fh) = true ->
  0 <= pos fh <= dirents_count (e fh) ->
  exists fh' rc,
    fat_seek d fh off whence = Some (fh', rc) /\
    0 <= pos fh' <= dirents_count (e fh') /\
    e fh' = e fh /\
    curr_cluster fh' = curr_cluster fh /\
    (if (whence =? SEEK_SET) && (0 <=? off) && (off <=? dirents_count (e fh))
     then rc = off /\ pos fh' = off
     else rc = - EINVAL /\ fh' = fh).
Proof.
  intros Hdir Hpos. unfold fat_seek, fat_seek_dir. rewrite Hdir.
  destruct (whence =? SEEK_SET) eqn:Ew; cbn [negb andb].
  - destruct (off <? 0) eqn:E0.
    + apply Z.ltb_lt in E0.
      replace (0 <=? off) with false by (symmetry; apply Z.leb_gt; lia).
      cbn [andb]. exists fh, (- EINVAL). repeat split; solve [reflexivity | lia].
    + apply Z.ltb_ge in E0.
      replace (0 <=? off) with true by (symmetry; apply Z.leb_le; lia).
      cbn [andb]. destruct (dirents_count (e fh) <? off) eqn:E1.
      * apply Z.ltb_lt in E1.
        replace (off <=? dirents_count (e fh)) with false
          by (symmetry; apply Z.leb_gt; lia).
        exists fh, (- EINVAL). repeat split; solve [reflexivity | lia].
      * apply Z.ltb_ge in E1.
        replace (off <=? dirents_count (e fh)) with true
          by (symmetry; apply Z.leb_le; lia).
        eexists _, _. split; [reflexivity|]. cbn [pos e curr_cluster].
        repeat split; lia.
  - exists fh, (- EINVAL). repeat split; solve [reflexivity | lia].
Qed.

Lemma fat_seek_dir_cursor_witness :
  exists fh' rc,
    fat_seek tiny_image (fat_open tiny_dir) 3 SEEK_SET = Some (fh', rc) /\
    0 <= pos fh' <= dirents_count (e fh') /\
    e fh' = tiny_dir /\
    curr_cluster fh' = 2 /\
    rc = 3 /\ pos fh' = 3.
Proof.
  apply (fat_seek_dir_cursor tiny_image (fat_open tiny_dir) 3 SEEK_SET).
  - reflexivity.
  - simpl. lia.
Defined.

(** ** Dates *)

Lemma land_ones_mod a n : 0 <= n -> Z.land a (Z.ones n) = a mod 2 ^ n.
Proof. intros H. apply Z.land_ones. exact H. Qed.

(** X14.  [fat_datetime_to_regular_datetime] splits the FAT date and
    time words without loss: the fields are within the ranges of their
    bit fields (day up to 31, month up to 15, year 1980 to 2107, minute
    up to 63, hour up to 31, second up to 31 plus the whole tenths, at
    most 56), and the date and time words are recovered from them by
    [day + 32 * month + 512 * (year - 1980)] and
    [(sec - timetenth / 10) + 32 * min + 2048 * hour]. *)
Theorem fat_datetime_fields (date time timetenth : Z) :
  0 <= date < 65536 ->
  0 <= time < 65536 ->
  0 <= timetenth < 256 ->
  let dt := fat_datetime_to_regular_datetime date time timetenth in
  0 <= day dt <= 31 /\
  0 <= month dt <= 15 /\
  1980 <= year dt <= 2107 /\
  0 <= sec dt <= 56 /\
  0 <= min dt <= 63 /\
  0 <= hour dt <= 31 /\
  day dt + 32 * month dt + 512 * (year dt - 1980) = date /\
  (sec dt - timetenth / 10) + 32 * min dt + 2048 * hour dt = time.
Proof.
  intros Hd Ht Htt dt. subst dt. unfold fat_datetime_to_regular_datetime.
  cbn [day month year sec min hour].
  rewrite (wrap16_small date), (wrap16_small time), (wrap8_small timetenth)
    by lia.
  change 31 with (Z.ones 5).
  change 15 with (Z.ones 4).
  change 127 with (Z.ones 7).
  change 63 with (Z.ones 6).
  rewrite !land_ones_mod, !Z.shiftr_div_pow2 by lia.
  change (Z.ones 5) with 31. change (Z.ones 4) with 15.
  change (Z.ones 6) with 63.
  change (2 ^ 5) with 32. change (2 ^ 4) with 16. change (2 ^ 7) with 128.
  change (2 ^ 6) with 64. change (2 ^ 9) with 512. change (2 ^ 11) with 2048.
  repeat split; Z.div_mod_to_equations; lia.
Qed.

(** The date word of 17 March 2019 and a time word. *)
Lemma fat_datetime_fields_witness :
  let dt := fat_datetime_to_regular_datetime 0x4E71 0x6DB0 150 in
  0 <= day dt <= 31 /\
  0 <= month dt <= 15 /\
  1980 <= year dt <= 2107 /\
  0 <= sec dt <= 56 /\
  0 <= min dt <= 63 /\
  0 <= hour dt <= 31 /\
  day dt + 32 * month dt + 512 * (year dt - 1980) = 0x4E71 /\
  (sec dt - 150 / 10) + 32 * min dt + 2048 * hour dt = 0x6DB0.
Proof.
  apply (fat_datetime_fields 0x4E71 0x6DB0 150); lia.
Defined.

End FatSpec.
(* ===================================================================== *)
(** * Properties of the ioctl interface of the tty *)
(* ===================================================================== *)

Module TtySpec.
Import Tty.
Local Open Scope Z_scope.

(** ** Copies *)

Lemma inserts_whole (k l : list Z) :
  length k = length l -> list_inserts 0 k l = k.
Proof.
  intros Hlen. apply list_eq. intros j.
  destruct (decide (j < length k)%nat) as [Hlt|Hge].
  - rewrite list_lookup_inserts by lia. f_equal. lia.
  - rewrite !lookup_ge_None_2; [reflexivity|lia|].
    rewrite length_inserts. lia.
Qed.

Lemma inserts_read_back (i : nat) (k l : list Z) :
  (i + length k <= length l)%nat ->
  take (length k) (drop i (list_inserts i k l)) = k.
Proof.
  intros Hfit. apply list_eq. intros j.
  destruct (decide (j < length k)%nat) as [Hlt|Hge].
  - rewrite lookup_take_lt by exact Hlt. rewrite lookup_drop.
    rewrite list_lookup_inserts by lia. f_equal. lia.
  - rewrite lookup_take_ge by lia. symmetry. apply lookup_ge_None_2. lia.
Qed.

Lemma set_c_term_back ct st : set_c_term (c_term st) (set_c_term ct st) = st.
Proof. destruct st. reflexivity. Qed.

Lemma is_tcsets_dispatch st request argp :
  is_tcsets request = true ->
  tty_ioctl st request argp = tty_ioctl_tcsets st argp.
Proof.
  unfold is_tcsets, tty_ioctl. intros H.
  destruct (request =? TCGETS) eqn:Eg.
  { apply Z.eqb_eq in Eg. subst request. discriminate H. }
  destruct (request =? TCSETS); [reflexivity|].
  destruct (request =? TCSETSW); [reflexivity|].
  destruct (request =? TCSETSF); [reflexivity|discriminate H].
Qed.

(** ** The termios *)

(** X20.  [TCSETS], [TCSETSW] and [TCSETSF] store a termios or change
    nothing.  When the [sizeof(struct termios)] bytes at [argp] are
    mapped, the request returns 0, [c_term] holds exactly these bytes,
    the special-character handlers are derived again once, and a
    following [TCGETS] into mapped memory at [argp2] returns 0 and
    delivers the same bytes there.  When the bytes at [argp] are not all
    mapped, the request returns -EFAULT and the state of the tty is as
    before, although the copy may have overwritten part of [c_term] on
    the way: the handlers are not derived again. *)
Theorem tty_tcsets_all_or_nothing (st : tty_state) (request argp argp2 : Z) :
  is_tcsets request = true ->
  0 <= argp ->
  0 <= argp2 ->
  let n := termios_size st in
  let new := take (Z.to_nat n) (drop (Z.to_nat argp) (user st)) in
  (argp + n <= Z.of_nat (length (user st)) ->
   tty_ioctl st request argp = (0, log EvUpdateHandlers (set_c_term new st)) /\
   (argp2 + n <= Z.of_nat (length (user st)) ->
    exists st2,
      tty_ioctl (log EvUpdateHandlers (set_c_term new st)) TCGETS argp2
        = (0, st2) /\
      take (Z.to_nat n) (drop (Z.to_nat argp2) (user st2)) = new /\
      c_term st2 = new /\
      events st2 = events st ++ [EvUpdateHandlers])) /\
  (Z.of_nat (length (user st)) < argp + n ->
   tty_ioctl st request argp = (- EFAULT, st)).
Proof.
  intros Hreq Hargp Hargp2 n new. rewrite is_tcsets_dispatch by exact Hreq.
  unfold tty_ioctl_tcsets, copy_from_user. fold n. fold new.
  assert (Hn : n = Z.of_nat (length (c_term st))) by reflexivity.
  split.
  - intros Hmap.
    assert (Hlen : length new = length (c_term st)).
    { subst new. rewrite length_take, length_drop. lia. }
    replace (argp + n <=? Z.of_nat (length (user st))) with true
      by (symmetry; apply Z.leb_le, Hmap).
    cbn [Z.ltb Z.compare]. rewrite (inserts_whole new) by exact Hlen.
    split; [reflexivity|].
    intros Hmap2. unfold tty_ioctl.
    change (TCGETS =? TCGETS) with true. cbv iota.
    unfold tty_ioctl_tcgets, Vfs.copy_to_user.
    cbn [c_term user log set_c_term].
    replace (argp2 + Z.of_nat (length new) <=? Z.of_nat (length (user st)))
      with true by (symmetry; apply Z.leb_le; lia).
    cbn [Z.ltb Z.compare]. eexists. split; [reflexivity|].
    cbn [c_term user events set_user].
    split; [|split; reflexivity].
    replace (Z.to_nat n) with (length new) by lia.
    apply inserts_read_back. lia.
  - intros Hfault.
    replace (argp + n <=? Z.of_nat (length (user st))) with false
      by (symmetry; apply Z.leb_gt, Hfault).
    cbn [Z.ltb Z.compare]. f_equal. apply set_c_term_back.
Qed.

Lemma tty_tcsets_all_or_nothing_witness :
  tty_ioctl tty0 TCSETSW 4 =
    (0, log EvUpdateHandlers
          (set_c_term [21; 22; 23; 24; 25; 26; 27; 28] tty0)) /\
  tty_ioctl tty0 TCSETSW 12 = (- EFAULT, tty0).
Proof.
  split.
  - apply (tty_tcsets_all_or_nothing tty0 TCSETSW 4 0); [reflexivity|lia|lia|].
    vm_compute. discriminate.
  - apply (tty_tcsets_all_or_nothing tty0 TCSETSW 12 0); [reflexivity|lia|lia|].
    vm_compute. reflexivity.
Defined.

(** ** The video mode *)

(** X21.  [tty_kd_mode] is [KD_TEXT] or [KD_GRAPHICS] and stays so under
    every request of [tty_ioctl] and under [tty_setup_for_panic].
    [KDSETMODE] returns 0 exactly for these two arguments, then the mode
    is the argument and the video output was restarted (for [KD_TEXT])
    or paused (for [KD_GRAPHICS]) once; for any other argument it
    returns -EINVAL and changes nothing.  After [tty_setup_for_panic]
    the mode is [KD_TEXT]; the video output is restarted only if the
    mode was not [KD_TEXT] already, and a second call changes nothing. *)
Theorem tty_kd_mode_machine (st : tty_state) (request argp : Z) :
  kd_mode_ok st ->
  kd_mode_ok (tty_ioctl st request argp).2 /\
  (let r := tty_ioctl st KDSETMODE argp in
   (r.1 = 0 <-> argp = KD_TEXT \/ argp = KD_GRAPHICS) /\
   (r.1 = 0 ->
    tty_kd_mode r.2 = argp /\
    events r.2 = events st ++
      [if argp =? KD_TEXT then EvRestartVideo else EvPauseVideo]) /\
   (r.1 <> 0 -> r = (- EINVAL, st))) /\
  tty_kd_mode (tty_setup_for_panic st) = KD_TEXT /\
  events (tty_setup_for_panic st) =
    events st ++ (if tty_kd_mode st =? KD_TEXT then [] else [EvRestartVideo]) /\
  tty_setup_for_panic (tty_setup_for_panic st) = tty_setup_for_panic st.
Proof.
  intros Hok. split; [|split; [|split; [|split]]].
  - unfold tty_ioctl, tty_ioctl_tcgets, tty_ioctl_tcsets,
      tty_ioctl_tiocgwinsz, tty_ioctl_kdsetmode, tty_ioctl_KDGKBMODE,
      tty_ioctl_KDSKBMODE, copy_from_user, Vfs.copy_to_user, kd_mode_ok.
    repeat match goal with
           | |- context [if ?b then _ else _] => destruct b
           end;
      cbn [snd tty_kd_mode set_user set_c_term set_kd_mode log];
      first [exact Hok | left; reflexivity | right; reflexivity].
  - unfold tty_ioctl. cbn [Z.eqb KDSETMODE TCGETS TCSETS TCSETSW TCSETSF
                            TIOCGWINSZ Pos.eqb].
    unfold tty_ioctl_kdsetmode.
    destruct (argp =? KD_TEXT) eqn:Et.
    { apply Z.eqb_eq in Et. subst argp. cbn [fst snd].
      split; [split; [left; reflexivity|reflexivity]|].
      split; [intros _; split; reflexivity|]. intros H. contradiction. }
    destruct (argp =? KD_GRAPHICS) eqn:Eg.
    { apply Z.eqb_eq in Eg. subst argp. cbn [fst snd].
      split; [split; [right; reflexivity|reflexivity]|].
      split; [intros _; split; reflexivity|]. intros H. contradiction. }
    apply Z.eqb_neq in Et, Eg. cbn [fst snd].
    split; [split; [discriminate|intros [H|H]; contradiction]|].
    split; [discriminate|]. reflexivity.
  - unfold tty_setup_for_panic.
    destruct (tty_kd_mode st =? KD_TEXT) eqn:E; [|reflexivity].
    apply Z.eqb_eq in E. exact E.
  - unfold tty_setup_for_panic.
    destruct (tty_kd_mode st =? KD_TEXT) eqn:E; [|reflexivity].
    symmetry. apply app_nil_r.
  - unfold tty_setup_for_panic.
    destruct (tty_kd_mode st =? KD_TEXT) eqn:E; cbn [negb].
    + rewrite E. reflexivity.
    + reflexivity.
Qed.

Lemma tty_kd_mode_machine_witness :
  tty_kd_mode (tty_setup_for_panic tty0) = KD_TEXT /\
  events (tty_setup_for_panic tty0) = [EvRestartVideo] /\
  tty_setup_for_panic (tty_setup_for_panic tty0) = tty_setup_for_panic tty0.
Proof.
  apply (tty_kd_mode_machine tty0 KDSETMODE 7). right. reflexivity.
Defined.

(** ** What a request leaves alone *)

Ltac no_event :=
  let Hin := fresh "Hin" in
  intros Hin;
  first [ apply elem_of_nil in Hin; exact Hin
        | apply list_elem_of_singleton in Hin; discriminate Hin ].

(** The conjuncts of the frame property, once the request is decided. *)
Ltac frame_fields :=
  cbn [fst snd c_term user term_rows term_cols tty_kd_mode events
       set_user set_c_term set_kd_mode log orb];
  rewrite ?drop_app_length, ?drop_all, ?length_inserts;
  repeat match goal with
         | |- _ /\ _ => split
         | |- _ -> _ => intro
         | H : ?x <> ?x |- _ => exfalso; apply H; reflexivity
         | H : true = false |- _ => discriminate H
         | H : false = true |- _ => discriminate H
         | |- ~ _ ∈ _ => no_event
         | |- _ = _ => reflexivity
         | |- 0 = 0 \/ _ => left; reflexivity
         | |- - EFAULT = 0 \/ _ => right; left; reflexivity
         | |- - EINVAL = 0 \/ _ => right; right; reflexivity
         end.

Ltac frame_known :=
  cbv [tty_ioctl is_tcsets TCGETS TCSETS TCSETSW TCSETSF TIOCGWINSZ
       KDSETMODE KDGKBMODE KDSKBMODE Z.eqb Pos.eqb orb
       tty_ioctl_tcgets tty_ioctl_tcsets tty_ioctl_tiocgwinsz
       tty_ioctl_kdsetmode tty_ioctl_KDGKBMODE tty_ioctl_KDSKBMODE
       copy_from_user Vfs.copy_to_user];
  repeat match goal with
         | |- context [if ?b then _ else _] => destruct b
         end;
  frame_fields.

(** X22.  Every request of [tty_ioctl] returns 0, -EFAULT or -EINVAL and
    keeps the sizes of [c_term] and of the user memory and the size of
    the terminal.  Only the three TCSETS requests change [c_term] or
    derive the handlers again, and they write no user memory; only
    [KDSETMODE] changes the mode or touches the video output; a result
    of -EINVAL or -EFAULT leaves the termios and the mode as they were;
    and a request that is none of the eight known ones returns -EINVAL
    after a warning, with nothing else changed. *)
Theorem tty_ioctl_frame (st : tty_state) (request argp : Z) :
  let r := tty_ioctl st request argp in
  (r.1 = 0 \/ r.1 = - EFAULT \/ r.1 = - EINVAL) /\
  length (c_term r.2) = length (c_term st) /\
  length (user r.2) = length (user st) /\
  term_rows r.2 = term_rows st /\
  term_cols r.2 = term_cols st /\
  (is_tcsets request = false ->
   c_term r.2 = c_term st /\ ~ EvUpdateHandlers ∈ drop (length (events st)) (events r.2)) /\
  (is_tcsets request = true -> user r.2 = user st) /\
  (request <> KDSETMODE ->
   tty_kd_mode r.2 = tty_kd_mode st /\
   ~ EvRestartVideo ∈ drop (length (events st)) (events r.2) /\
   ~ EvPauseVideo ∈ drop (length (events st)) (events r.2)) /\
  (r.1 <> 0 -> c_term r.2 = c_term st /\ tty_kd_mode r.2 = tty_kd_mode st) /\
  (request <> TCGETS -> is_tcsets request = false ->
   request <> TIOCGWINSZ -> request <> KDSETMODE ->
   request <> KDGKBMODE -> request <> KDSKBMODE ->
   r = (- EINVAL, log (EvPrintk request) st)).
Proof.
  intros r. subst r.
  destruct (Z.eq_dec request TCGETS) as [->|N1]; [frame_known|].
  destruct (Z.eq_dec request TCSETS) as [->|N2]; [frame_known|].
  destruct (Z.eq_dec request TCSETSW) as [->|N3]; [frame_known|].
  destruct (Z.eq_dec request TCSETSF) as [->|N4]; [frame_known|].
  destruct (Z.eq_dec request TIOCGWINSZ) as [->|N5]; [frame_known|].
  destruct (Z.eq_dec request KDSETMODE) as [->|N6]; [frame_known|].
  destruct (Z.eq_dec request KDGKBMODE) as [->|N7]; [frame_known|].
  destruct (Z.eq_dec request KDSKBMODE) as [->|N8]; [frame_known|].
  unfold tty_ioctl, is_tcsets.
  rewrite (proj2 (Z.eqb_neq _ _) N1), (proj2 (Z.eqb_neq _ _) N2),
    (proj2 (Z.eqb_neq _ _) N3), (proj2 (Z.eqb_neq _ _) N4),
    (proj2 (Z.eqb_neq _ _) N5), (proj2 (Z.eqb_neq _ _) N6),
    (proj2 (Z.eqb_neq _ _) N7), (proj2 (Z.eqb_neq _ _) N8).
  frame_fields.
Qed.

End TtySpec.
